(** * Network uptime logger: persistence and backup (main.js)

    A shallow embedding of the Electron main process of the network uptime
    monitor: the in-memory SQL.js database with its [network_log] table, the
    persistent file and the archive directory, the hourly backup routine and
    the IPC handlers, followed by the properties of the persistence
    subsystem.

    Conventions.  A JavaScript number that holds a row id is the integer of
    [Z] that the double stands for; a [Buffer] is a list of bytes; a global
    variable of main.js is a field of [State]; a function that can throw
    lives in the monad [M], whose state is kept when an exception is
    raised, as in JavaScript.  sql.js and the file system are not part of
    the program: the first is described by its effect on the table and by
    a class for its image format, the second by a small model with explicit
    faults. *)

From Stdlib Require Import ZArith List String Ascii Lia Bool Sorted.
From stdpp Require Import base option list gmap strings pretty.

Open Scope string_scope.
Open Scope Z_scope.
Open Scope list_scope.

(** ** JavaScript values and errors *)

(** The values that travel between sql.js and the handlers. *)
Inductive Value : Type :=
  | VUndefined
  | VNull
  | VNum (n : Z)
  | VStr (s : string).

(** [error.code] of a file-system error. *)
Inductive ErrCode : Type := ENOENT | EACCES.

(** A thrown [Error]: [code] is absent on errors made by [new Error]. *)
Record JsError : Type := mkError { code : option ErrCode; message : string }.

Inductive Result (A : Type) : Type :=
  | Ok (a : A)
  | Throw (e : JsError).
Arguments Ok {A} a.
Arguments Throw {A} e.

Definition ErrCode_eqb (a b : ErrCode) : bool :=
  match a, b with
  | ENOENT, ENOENT | EACCES, EACCES => true
  | _, _ => false
  end.

(** [error.code !== 'ENOENT'] *)
Definition code_is_not_ENOENT (e : JsError) : bool :=
  match code e with
  | Some c => negb (ErrCode_eqb c ENOENT)
  | None => true
  end.

(** ** The SQL.js database

    What a database handle of sql.js stands for, as far as the program can
    tell: the table [network_log], absent until it is created, and the row
    that [sqlite_sequence] keeps for it because [id] is declared
    [INTEGER PRIMARY KEY AUTOINCREMENT].  A handle can also be open on bytes
    that are not a database: [sqlite3_open] does not read the file, and the
    first statement then fails with "file is not a database". *)
Module Sql.

Record Row : Type := mkRow { id : Z; timestamp : string; status : string }.

(** What the handle has for [network_log]. *)
Inductive Content : Type :=
  | Table (rows : list Row)
  | NoTable
  | NotADatabase.

Record Database : Type := mkDatabase {
  network_log : Content;
  (** [seq] of [sqlite_sequence] for [network_log]; 0 while it has no row. *)
  sqlite_sequence : Z
}.

(** [new sql.Database()] *)
Definition empty : Database :=
  {| network_log := NoTable; sqlite_sequence := 0 |}.

(** One result set of [db.exec]. *)
Record QueryResult : Type := mkResult {
  columns : list string;
  values : list (list Value)
}.

Inductive Order : Type := ASC | DESC.

(** The statements main.js sends to the database. *)
Inductive Stmt : Type :=
  | CREATE_TABLE_IF_NOT_EXISTS
  | INSERT (ts st : string)
  | DELETE_ALL
  | SELECT_MAX_ID
  | SELECT_ALL_ORDER_BY_ID (o : Order).

(** The largest rowid SQLite can store. *)
Definition MAX_ROWID : Z := 9223372036854775807.

(** [MAX(id)]: NULL on an empty table. *)
Fixpoint max_id (rows : list Row) : option Z :=
  match rows with
  | [] => None
  | r :: rest =>
      match max_id rest with
      | None => Some (id r)
      | Some m => Some (Z.max (id r) m)
      end
  end.

(** The rowid AUTOINCREMENT gives to a new row: one more than the largest
    rowid of the table, and never less than one more than the recorded
    sequence; SQLITE_FULL once either has reached [MAX_ROWID]. *)
Definition new_rowid (rows : list Row) (seq : Z) : option Z :=
  let m := match max_id rows with Some m => m | None => 0 end in
  if (m =? MAX_ROWID) || (seq =? MAX_ROWID) then None
  else Some (Z.max (m + 1) (seq + 1)).

Fixpoint insert_by (le : Z -> Z -> bool) (r : Row) (rows : list Row) : list Row :=
  match rows with
  | [] => [r]
  | r' :: rest =>
      if le (id r) (id r') then r :: r' :: rest
      else r' :: insert_by le r rest
  end.

Definition sort_by (le : Z -> Z -> bool) (rows : list Row) : list Row :=
  fold_right (insert_by le) [] rows.

(** [ORDER BY id ASC] and [ORDER BY id DESC] *)
Definition order_by_id (o : Order) (rows : list Row) : list Row :=
  match o with
  | ASC => sort_by Z.leb rows
  | DESC => sort_by Z.geb rows
  end.

(** The JavaScript number that sql.js gives for an INTEGER: the nearest
    double, ties to even.  Integers up to 2^53 in absolute value are
    exact; above, the low [e] bits are rounded away. *)
Definition to_number (z : Z) : Z :=
  let a := Z.abs z in
  if a <=? 2 ^ 53 then z
  else
    let e := Z.log2 a - 52 in
    let q := a / 2 ^ e in
    let r := a mod 2 ^ e in
    let half := 2 ^ (e - 1) in
    let q' := if r <? half then q
              else if half <? r then q + 1
              else if Z.even q then q else q + 1 in
    Z.sgn z * (q' * 2 ^ e).

(** A row of [SELECT id, timestamp, status]. *)
Definition row_values (r : Row) : list Value :=
  [VNum (to_number (id r)); VStr (timestamp r); VStr (status r)].

Definition no_such_table : JsError :=
  {| code := None; message := "no such table: network_log" |}.

Definition not_a_database : JsError :=
  {| code := None; message := "file is not a database" |}.

Definition database_full : JsError :=
  {| code := None; message := "database or disk is full" |}.

(** Running one statement: the database afterwards and the result sets
    (sql.js leaves out a statement that produced no row). *)
Definition execute (s : Stmt) (d : Database) : Result (Database * list QueryResult) :=
  match network_log d with
  | NotADatabase => Throw not_a_database
  | NoTable =>
      match s with
      | CREATE_TABLE_IF_NOT_EXISTS =>
          Ok ({| network_log := Table []; sqlite_sequence := sqlite_sequence d |}, [])
      | _ => Throw no_such_table
      end
  | Table rows =>
      match s with
      | CREATE_TABLE_IF_NOT_EXISTS => Ok (d, [])
      | INSERT ts st =>
          match new_rowid rows (sqlite_sequence d) with
          | None => Throw database_full
          | Some i =>
              Ok ({| network_log := Table (rows ++ [mkRow i ts st]);
                     sqlite_sequence := i |}, [])
          end
      | DELETE_ALL =>
          Ok ({| network_log := Table []; sqlite_sequence := sqlite_sequence d |}, [])
      | SELECT_MAX_ID =>
          let v := match max_id rows with
                   | Some m => VNum (to_number m)
                   | None => VNull
                   end in
          Ok (d, [ {| columns := ["max_id"]; values := [[v]] |} ])
      | SELECT_ALL_ORDER_BY_ID o =>
          match rows with
          | [] => Ok (d, [])
          | _ :: _ =>
              Ok (d, [ {| columns := ["id"; "timestamp"; "status"];
                          values := map row_values (order_by_id o rows) |} ])
          end
      end
  end.

End Sql.

(** The part of sql.js the program relies on for persistence: [db.export()]
    gives the image of a database as bytes, and [new sql.Database(buffer)]
    opens a handle on the bytes, or throws ([None]).  Only the contract
    between the two is assumed: an exported image opens as the database it
    was exported from.  What the constructor does with other bytes is left
    to the instance: it may throw, or hand back a handle that is not a
    database. *)
Class SqlJs : Type := {
  export : Sql.Database -> list Byte.byte;
  open_image : list Byte.byte -> option Sql.Database;
  open_export : forall d, open_image (export d) = Some d
}.

(** An image format that meets the contract: a database is numbered by its
    encoding as a positive number and the image holds two header bytes and
    the binary digits of that number, one per byte.  As with SQLite, the
    constructor does not inspect the bytes: a file of no byte or of one
    byte is the empty database (the file layer of SQLite reports the size
    of a one-byte file as zero), and other bytes that are not an image give
    a handle that is not a database.  It is the instance on which the
    program is evaluated on concrete inputs. *)
Module Demo.

#[global] Instance Row_eq_dec : EqDecision Sql.Row.
Proof. solve_decision. Defined.

#[global] Instance Row_countable : Countable Sql.Row :=
  inj_countable'
    (fun r => (Sql.id r, Sql.timestamp r, Sql.status r))
    (fun t => Sql.mkRow t.1.1 t.1.2 t.2)
    (fun r => match r with Sql.mkRow _ _ _ => eq_refl end).

#[global] Instance Content_eq_dec : EqDecision Sql.Content.
Proof. solve_decision. Defined.

#[global] Instance Content_countable : Countable Sql.Content :=
  inj_countable'
    (fun c => match c with
              | Sql.Table rows => Some (Some rows)
              | Sql.NoTable => Some None
              | Sql.NotADatabase => None
              end)
    (fun o => match o with
              | Some (Some rows) => Sql.Table rows
              | Some None => Sql.NoTable
              | None => Sql.NotADatabase
              end)
    (fun c => match c with
              | Sql.Table _ | Sql.NoTable | Sql.NotADatabase => eq_refl
              end).

#[global] Instance Database_eq_dec : EqDecision Sql.Database.
Proof. solve_decision. Defined.

#[global] Instance Database_countable : Countable Sql.Database :=
  inj_countable'
    (fun d => (Sql.network_log d, Sql.sqlite_sequence d))
    (fun t => Sql.mkDatabase t.1 t.2)
    (fun d => match d with Sql.mkDatabase _ _ => eq_refl end).

Fixpoint bytes_of_positive (p : positive) : list Byte.byte :=
  match p with
  | xH => []
  | xO q => Byte.x00 :: bytes_of_positive q
  | xI q => Byte.x01 :: bytes_of_positive q
  end.

Fixpoint positive_of_bytes (l : list Byte.byte) : option positive :=
  match l with
  | [] => Some xH
  | Byte.x00 :: rest => xO <$> positive_of_bytes rest
  | Byte.x01 :: rest => xI <$> positive_of_bytes rest
  | _ :: _ => None
  end.

Definition export_db (d : Sql.Database) : list Byte.byte :=
  Byte.x53 :: Byte.x51 :: bytes_of_positive (encode d).

(** The handle on bytes that are not a database. *)
Definition garbage : Sql.Database :=
  {| Sql.network_log := Sql.NotADatabase; Sql.sqlite_sequence := 0 |}.

Definition open_db (image : list Byte.byte) : option Sql.Database :=
  match image with
  | [] | [_] => Some Sql.empty
  | Byte.x53 :: Byte.x51 :: digits =>
      match positive_of_bytes digits with
      | Some p =>
          match decode p with
          | Some d => Some d
          | None => Some garbage
          end
      | None => Some garbage
      end
  | _ :: _ :: _ => Some garbage
  end.

#[global] Instance sqljs : SqlJs.
Proof.
  refine {| export := export_db; open_image := open_db |}.
  intros d. unfold open_db, export_db.
  assert (Hbits : forall p, positive_of_bytes (bytes_of_positive p) = Some p).
  { induction p as [q IH|q IH|]; simpl; [rewrite IH .. |]; reflexivity. }
  rewrite Hbits, decode_encode. reflexivity.
Defined.

End Demo.

(** ** The file system

    Directories hold files; a directory is named by its components and a
    file by its directory and its name, which is what [path.join] builds.
    Faults are part of the state: reading a path of [rdeny], writing a
    path of [wdeny] or creating a directory of [ddeny] fails with EACCES,
    which stands for every failure other than ENOENT.  ENOENT is decided by
    the tree alone. *)
Module Fs.

Abbreviation dirpath := (list string).
Abbreviation path := (list string * string)%type.

Record FS : Type := mkFS {
  tree : gmap dirpath (gmap string (list Byte.byte));
  rdeny : gset path;
  wdeny : gset path;
  ddeny : gset dirpath
}.

Definition enoent : JsError :=
  {| code := Some ENOENT; message := "ENOENT: no such file or directory" |}.
Definition eacces : JsError :=
  {| code := Some EACCES; message := "EACCES: permission denied" |}.

(** The content of a file, if the file exists. *)
Definition lookup_file (p : path) (fs : FS) : option (list Byte.byte) :=
  match tree fs !! p.1 with
  | Some files => files !! p.2
  | None => None
  end.

(** [fs.readFileSync(p)] *)
Definition readFileSync (p : path) (fs : FS) : Result (list Byte.byte) :=
  match lookup_file p fs with
  | None => Throw enoent
  | Some data => if decide (p ∈ rdeny fs) then Throw eacces else Ok data
  end.

(** The disk once [data] is the content of [p], in the directory whose
    files were [files]. *)
Definition store (p : path) (data : list Byte.byte)
    (files : gmap string (list Byte.byte)) (fs : FS) : FS :=
  {| tree := <[p.1 := <[p.2 := data]> files]> (tree fs);
     rdeny := rdeny fs; wdeny := wdeny fs; ddeny := ddeny fs |}.

(** [fs.writeFileSync(p, data)]: creates the file or replaces its
    content; the directory has to exist. *)
Definition writeFileSync (p : path) (data : list Byte.byte) (fs : FS) : Result FS :=
  match tree fs !! p.1 with
  | None => Throw enoent
  | Some files =>
      if decide (p ∈ wdeny fs) then Throw eacces
      else Ok (store p data files fs)
  end.

(** [fs.existsSync(d)] for a directory. *)
Definition existsSync (d : dirpath) (fs : FS) : bool :=
  bool_decide (is_Some (tree fs !! d)).

(** [fs.mkdirSync(d, { recursive: true })]: creates the missing
    directories on the way to [pre ++ rest], outermost first. *)
Fixpoint mkdir_from (pre : dirpath) (rest : list string) (fs : FS) : Result FS :=
  match rest with
  | [] => Ok fs
  | c :: rest' =>
      let d := pre ++ [c] in
      match tree fs !! d with
      | Some _ => mkdir_from d rest' fs
      | None =>
          if decide (d ∈ ddeny fs) then Throw eacces
          else mkdir_from d rest'
                 {| tree := <[d := ∅]> (tree fs);
                    rdeny := rdeny fs; wdeny := wdeny fs; ddeny := ddeny fs |}
      end
  end.

Definition mkdirSync_recursive (d : dirpath) (fs : FS) : Result FS :=
  mkdir_from [] d fs.

(** The text of a path, for messages. *)
Definition path_str (p : path) : string :=
  String.concat "/" (p.1 ++ [p.2]).

End Fs.

(** ** The state of the main process *)

Inductive Level : Type := LOG | ERROR.

Record State : Type := mkState {
  (** [let db]: [None] is [undefined]. *)
  db : option Sql.Database;
  (** [let lastLogId] *)
  lastLogId : Value;
  disk : Fs.FS;
  (** what [console.log] and [console.error] have printed, oldest first *)
  console : list (Level * string);
  (** the number of open browser windows *)
  windows : nat;
  (** the messages sent to the renderer on the channel backup-status *)
  sent : list string;
  (** the periods of the timers [setInterval] has armed for
      [autoHourlyBackup] *)
  intervals : list Z;
  (** [app.quit()] has been called *)
  quitting : bool
}.

(** ** Computations that may throw *)

Definition M (A : Type) : Type := State -> Result A * State.

Definition ret {A} (a : A) : M A := fun s => (Ok a, s).

Definition bind {A B} (m : M A) (k : A -> M B) : M B :=
  fun s =>
    match m s with
    | (Ok a, s') => k a s'
    | (Throw e, s') => (Throw e, s')
    end.

Definition throw {A} (e : JsError) : M A := fun s => (Throw e, s).

(** [try { m } catch (error) { h error }] *)
Definition try_catch {A} (m : M A) (h : JsError -> M A) : M A :=
  fun s =>
    match m s with
    | (Ok a, s') => (Ok a, s')
    | (Throw e, s') => h e s'
    end.

Definition get : M State := fun s => (Ok s, s).
Definition put (s : State) : M unit := fun _ => (Ok tt, s).

#[global] Instance M_ret : MRet M := @ret.
#[global] Instance M_bind : MBind M := fun A B k m => bind m k.

(** [new Error(msg)] *)
Definition Error (msg : string) : JsError := {| code := None; message := msg |}.

(** Assignments to the fields of the state. *)
Definition upd_db (d : Sql.Database) (s : State) : State :=
  {| db := Some d; lastLogId := lastLogId s; disk := disk s;
     console := console s; windows := windows s; sent := sent s;
     intervals := intervals s; quitting := quitting s |}.

Definition upd_lastLogId (v : Value) (s : State) : State :=
  {| db := db s; lastLogId := v; disk := disk s;
     console := console s; windows := windows s; sent := sent s;
     intervals := intervals s; quitting := quitting s |}.

Definition upd_disk (fs : Fs.FS) (s : State) : State :=
  {| db := db s; lastLogId := lastLogId s; disk := fs;
     console := console s; windows := windows s; sent := sent s;
     intervals := intervals s; quitting := quitting s |}.

Definition upd_console (l : Level) (msg : string) (s : State) : State :=
  {| db := db s; lastLogId := lastLogId s; disk := disk s;
     console := console s ++ [(l, msg)]; windows := windows s;
     sent := sent s; intervals := intervals s; quitting := quitting s |}.

Definition set_db (d : Sql.Database) : M unit := fun s => (Ok tt, upd_db d s).
Definition set_lastLogId (v : Value) : M unit := fun s => (Ok tt, upd_lastLogId v s).
Definition set_disk (fs : Fs.FS) : M unit := fun s => (Ok tt, upd_disk fs s).
Definition print (l : Level) (msg : string) : M unit :=
  fun s => (Ok tt, upd_console l msg s).

Definition console_log (msg : string) : M unit := print LOG msg.
Definition console_error (msg : string) : M unit := print ERROR msg.

(** A file-system call on the disk of the state. *)
Definition fs_read (p : Fs.path) : M (list Byte.byte) :=
  fun s => (Fs.readFileSync p (disk s), s).

Definition fs_write (p : Fs.path) (data : list Byte.byte) : M unit :=
  fun s =>
    match Fs.writeFileSync p data (disk s) with
    | Ok fs' => set_disk fs' s
    | Throw e => (Throw e, s)
    end.

Definition fs_mkdir (d : Fs.dirpath) : M unit :=
  fun s =>
    match Fs.mkdirSync_recursive d (disk s) with
    | Ok fs' => set_disk fs' s
    | Throw e => (Throw e, s)
    end.

(** Calling a method of [db] while it is [undefined]. *)
Definition undefined_db : JsError :=
  Error "Cannot read properties of undefined".

(** [db.exec(stmt)]: runs the statement on the global database and gives
    its result sets; [db.run(stmt)] drops them. *)
Definition db_exec (stmt : Sql.Stmt) : M (list Sql.QueryResult) :=
  s ← get;
  match db s with
  | None => throw undefined_db
  | Some d =>
      match Sql.execute stmt d with
      | Ok (d', res) => set_db d';; ret res
      | Throw e => throw e
      end
  end.

Definition db_run (stmt : Sql.Stmt) : M unit :=
  db_exec stmt;; ret tt.

(** ** Dates

    A [Date] is held by the UTC calendar fields that [toISOString] prints:
    YYYY-MM-DDTHH:mm:ss.sssZ, and +YYYYYY-MM-DDTHH:mm:ss.sssZ from the
    year 10000 on (a [Date] ends in the year 275760). *)

Record Date : Type := mkDate {
  year : N;
  month : N;
  day : N;
  hours : N;
  minutes : N;
  seconds : N;
  milliseconds : N
}.

(** The fields are in the range in which [toISOString] prints them with a
    fixed number of digits. *)
Definition valid_date (d : Date) : Prop :=
  (year d < 10000 ∧ month d < 100 ∧ day d < 100 ∧ hours d < 100 ∧
   minutes d < 100 ∧ seconds d < 100 ∧ milliseconds d < 1000)%N.

Definition digit (n : N) : ascii := ascii_of_N (48 + n).

(** [n] in [k] decimal digits, most significant first. *)
Fixpoint fixed (k : nat) (n : N) : list ascii :=
  match k with
  | O => []
  | S k' => digit (n / 10 ^ N.of_nat k') :: fixed k' (n mod 10 ^ N.of_nat k')
  end.

(** The year: four digits, or a sign and six digits past 9999. *)
Definition year_chars (y : N) : list ascii :=
  if (y <=? 9999)%N then fixed 4 y else "+"%char :: fixed 6 y.

Definition iso_chars (d : Date) : list ascii :=
  year_chars (year d) ++ "-"%char :: fixed 2 (month d) ++ "-"%char ::
  fixed 2 (day d) ++ "T"%char :: fixed 2 (hours d) ++ ":"%char ::
  fixed 2 (minutes d) ++ ":"%char :: fixed 2 (seconds d) ++ "."%char ::
  fixed 3 (milliseconds d) ++ ["Z"%char].

(** [d.toISOString()] *)
Definition toISOString (d : Date) : string :=
  string_of_list_ascii (iso_chars d).

Definition colon_or_dot (c : ascii) : bool :=
  Ascii.eqb c ":"%char || Ascii.eqb c "."%char.

(** [s.replace(/[:.]/g, '-')] *)
Fixpoint replace_colon_dot (s : string) : string :=
  match s with
  | EmptyString => EmptyString
  | String c rest =>
      String (if colon_or_dot c then "-"%char else c) (replace_colon_dot rest)
  end.

(** *** Numbers as text

    [Number.prototype.toString] prints the shortest decimal digits that
    read back as the same double, and of those the closest to it; up to
    10^21 they are followed by the zeros that fill the integer, beyond they
    are given with an exponent.  A [VNum] holds an integer that is a
    double, so up to 2^53 the text is the integer itself. *)

(** The greatest power of ten that is at most [x], from [p] upwards. *)
Fixpoint pow10_below (fuel : nat) (p x : Z) : Z :=
  match fuel with
  | O => p
  | S fuel' => if 10 * p <=? x then pow10_below fuel' (10 * p) x else p
  end.

(** The multiple of the greatest power of ten [p] that rounds to the
    double [x]: of the two multiples around [x] the one that rounds to [x],
    the closer one if both do, the one with the even last digit on a
    tie. *)
Fixpoint shortest_from (fuel : nat) (p x : Z) : Z :=
  match fuel with
  | O => x
  | S fuel' =>
      let lo := x / p * p in
      let hi := lo + p in
      let lo_ok := Sql.to_number lo =? x in
      let hi_ok := Sql.to_number hi =? x in
      if lo_ok && hi_ok then
        if x - lo <? hi - x then lo
        else if hi - x <? x - lo then hi
        else if Z.even (lo / p) then lo else hi
      else if lo_ok then lo
      else if hi_ok then hi
      else shortest_from fuel' (p / 10) x
  end.

(** The integer whose decimal expansion is printed for the double
    [x > 0]. *)
Definition shortest (x : Z) : Z :=
  let fuel := S (Z.to_nat (Z.log2 x)) in
  shortest_from fuel (pow10_below fuel 1 x) x.

Fixpoint strip_zeros (fuel : nat) (v : Z) : Z :=
  match fuel with
  | O => v
  | S fuel' => if v mod 10 =? 0 then strip_zeros fuel' (v / 10) else v
  end.

(** [d.ddde+n]: the digits of [v] without its final zeros, and the
    exponent. *)
Definition exponential (v : Z) : string :=
  let e := pretty (Z.of_nat (String.length (pretty v)) - 1) in
  match pretty (strip_zeros (String.length (pretty v)) v) with
  | EmptyString => EmptyString
  | String c EmptyString => String c ("e+" +:+ e)
  | String c rest => String c ("." +:+ rest +:+ "e+" +:+ e)
  end.

(** [String(n)] for a number that is an integer. *)
Definition Number_toString (n : Z) : string :=
  if n =? 0 then "0"
  else
    let v := shortest (Z.abs n) in
    let text := if v <? 10 ^ 21 then pretty v else exponential v in
    if n <? 0 then "-" +:+ text else text.

(** [String(v)], as a template literal renders a value. *)
Definition to_string (v : Value) : string :=
  match v with
  | VUndefined => "undefined"
  | VNull => "null"
  | VNum n => Number_toString n
  | VStr s => s
  end.

(** The double quote character. *)
Definition dquote : string := String "034"%char EmptyString.

(** [lines.join(sep)] *)
Definition join (sep : string) (parts : list string) : string :=
  String.concat sep parts.

(** ** Replies of the IPC handlers *)

(** [{ success: true }] or [{ success: false, error }] *)
Inductive Response : Type :=
  | Success
  | Failure (error : string).

(** [{ success, message }] of the CSV export *)
Record ExportReply : Type := mkReply { success : bool; text : string }.

(** What the renderer sends with insert-log. *)
Record LogEntry : Type := mkEntry { entry_status : string; entry_timestamp : string }.

(** A log object given to the renderer: its properties in the order they
    were set. *)
Definition LogObject : Type := list (string * Value).

(** ** Concrete inputs

    The data directory, disks and states on which the properties below are
    exercised with the image format of [Demo]. *)

Definition ex_home : list string := ["data"].

(** The rendering of the time of day is left to the locale; here it is
    the hour. *)
Definition ex_clock (d : Date) : string := pretty (hours d).

Definition ex_noon : Date := mkDate 2024 1 1 12 0 0 0.
Definition ex_one : Date := mkDate 2024 1 1 13 0 0 0.

(** A disk with the data directory and the backup directory, and no
    persistent file. *)
Definition ex_disk : Fs.FS :=
  {| Fs.tree := {[ ["data"] := ∅; ["data"; "network_backups"] := ∅ ]};
     Fs.rdeny := ∅; Fs.wdeny := ∅; Fs.ddeny := ∅ |}.

(** The state of a process that has started on [ex_disk]. *)
Definition ex_started : State :=
  {| db := Some {| Sql.network_log := Sql.Table []; Sql.sqlite_sequence := 0 |};
     lastLogId := VNum 0; disk := ex_disk; console := []; windows := 1;
     sent := []; intervals := [3600000]; quitting := false |}.

(** A database with two entries, and a state holding it. *)
Definition ex_db : Sql.Database :=
  {| Sql.network_log :=
       Sql.Table [Sql.mkRow 1 "2024-01-01T00:00:00Z" "DOWN";
                  Sql.mkRow 2 "2024-01-01T00:05:00Z" "UP"];
     Sql.sqlite_sequence := 2 |}.

Definition ex_logged : State :=
  {| db := Some ex_db; lastLogId := VNum 2; disk := ex_disk; console := [];
     windows := 1; sent := []; intervals := [3600000]; quitting := false |}.

(** The state after the two entries were cleared: no row, [lastLogId] 0,
    the sequence still 2. *)
Definition ex_cleared : State :=
  {| db := Some {| Sql.network_log := Sql.Table []; Sql.sqlite_sequence := 2 |};
     lastLogId := VNum 0; disk := ex_disk; console := []; windows := 1;
     sent := []; intervals := [3600000]; quitting := false |}.

(** A disk whose persistent file holds the image of [ex_db] and cannot be
    read. *)
Definition ex_unreadable : Fs.FS :=
  {| Fs.tree := {[ ["data"] := {[ "network_log.db" := export ex_db ]};
                   ["data"; "network_backups"] := ∅ ]};
     Fs.rdeny := {[ (["data"], "network_log.db") ]};
     Fs.wdeny := ∅; Fs.ddeny := ∅ |}.


(** [ex_logged] on a disk that refuses to write the persistent file. *)
Definition ex_locked : State :=
  {| db := Some ex_db; lastLogId := VNum 2;
     disk := {| Fs.tree := Fs.tree ex_disk; Fs.rdeny := ∅;
                Fs.wdeny := {[ (["data"], "network_log.db") ]}; Fs.ddeny := ∅ |};
     console := []; windows := 1; sent := []; intervals := [3600000];
     quitting := false |}.


(** [ex_logged] on a disk without any directory. *)
Definition ex_bare : State :=
  {| db := Some ex_db; lastLogId := VNum 2;
     disk := {| Fs.tree := ∅; Fs.rdeny := ∅; Fs.wdeny := ∅; Fs.ddeny := ∅ |};
     console := []; windows := 1; sent := []; intervals := [3600000];
     quitting := false |}.

(** A disk whose persistent file holds the image of [ex_db]. *)
Definition ex_saved : Fs.FS :=
  {| Fs.tree := {[ ["data"] := {[ "network_log.db" := export ex_db ]};
                   ["data"; "network_backups"] := ∅ ]};
     Fs.rdeny := ∅; Fs.wdeny := ∅; Fs.ddeny := ∅ |}.

(** [ex_logged] on [ex_saved], with the persistent file write-protected. *)
Definition ex_stale : State :=
  {| db := Some ex_db; lastLogId := VNum 2;
     disk := {| Fs.tree := Fs.tree ex_saved; Fs.rdeny := ∅;
                Fs.wdeny := {[ (["data"], "network_log.db") ]}; Fs.ddeny := ∅ |};
     console := []; windows := 1; sent := []; intervals := [3600000];
     quitting := false |}.

(** A state without a database, as before [initializeDatabase] has run. *)
Definition ex_unready : State :=
  {| db := None; lastLogId := VNum 0; disk := ex_disk; console := [];
     windows := 0; sent := []; intervals := []; quitting := false |}.

(** ** main.js *)

Section Main.

(** The initialised sql.js module, the directory [app.getPath('userData')]
    and the locale's rendering of a time of day. *)
Context `{SqlJs}.
Variable userData : Fs.dirpath.
Variable toLocaleTimeString : Date -> string.

Definition dbPath : Fs.path := (userData, "network_log.db").
Definition backupDir : Fs.dirpath := userData ++ ["network_backups"].
Definition HOURLY_BACKUP_INTERVAL_MS : Z := 3600000.

(** [new sql.Database(filebuffer)] *)
Definition new_Database (filebuffer : list Byte.byte) : M Sql.Database :=
  match open_image filebuffer with
  | Some d => mret d
  | None => throw (Error "file is not a database")
  end.

Definition performBackup (filePath : Fs.path) : M unit :=
  s ← get;
  match db s with
  | None => throw (Error "Database not initialized. Cannot perform backup.")
  | Some d =>
      try_catch
        (let data := export d in
         fs_write filePath data;;
         console_log ("[Persistence] Database saved/backed up to: "
                      +:+ Fs.path_str filePath))
        (fun error =>
           if code_is_not_ENOENT error
           then throw (Error ("Backup/Export failed: " +:+ message error))
           else mret tt)
  end.

(** The first element of the first row of the first result set:
    [result[0].values[0][0]], when [result.length > 0] and
    [result[0].values.length > 0]. *)
Definition first_cell (result : list Sql.QueryResult) : option Value :=
  match result with
  | r :: _ =>
      match Sql.values r with
      | row :: _ => Some (nth 0 row VUndefined)
      | [] => None
      end
  | [] => None
  end.

Definition is_null (v : Value) : bool :=
  match v with VNull => true | _ => false end.

(** From step 1 on; loading the WASM binary is taken to have succeeded. *)
Definition initializeDatabase : M unit :=
  (* 1. Ensure the backup directory exists *)
  s ← get;
  (if negb (Fs.existsSync backupDir (disk s))
   then fs_mkdir backupDir;;
        console_log ("Created backup directory: "
                     +:+ String.concat "/" backupDir)
   else mret tt);;
  (* 2. Load the database file content from disk, or create a new one *)
  try_catch
    (filebuffer ← fs_read dbPath;
     d ← new_Database filebuffer;
     set_db d;;
     console_log ("Loaded persistent database from: " +:+ Fs.path_str dbPath))
    (fun error =>
       set_db Sql.empty;;
       console_log "Created new in-memory SQL.js database.");;
  (* 3. Create the log table if it doesn't exist *)
  db_run Sql.CREATE_TABLE_IF_NOT_EXISTS;;
  console_log "Network logs table ensured.";;
  (* 4. Initialize the lastLogId from the last known ID value *)
  try_catch
    (result ← db_exec Sql.SELECT_MAX_ID;
     match first_cell result with
     | Some v => if negb (is_null v) then set_lastLogId v
                 else set_lastLogId (VNum 0)
     | None => set_lastLogId (VNum 0)
     end)
    (fun e =>
       console_error ("Failed to get MAX(id), resetting counter to 0: "
                      +:+ message e);;
       set_lastLogId (VNum 0)).

(** [mainWindow.webContents.send('backup-status', msg)] *)
Definition send_backup_status (msg : string) : M unit :=
  fun s => (Ok tt, {| db := db s; lastLogId := lastLogId s; disk := disk s;
                      console := console s; windows := windows s;
                      sent := sent s ++ [msg]; intervals := intervals s;
                      quitting := quitting s |}).

(** The name of the archive made at [now]. *)
Definition backupFileName (now : Date) : string :=
  let dateStr := replace_colon_dot (toISOString now) in
  "network_log_backup_" +:+ dateStr +:+ ".db".

(** [now] is the value of [new Date()]. *)
Definition autoHourlyBackup (now : Date) : M unit :=
  s ← get;
  match db s with
  | None => mret tt
  | Some _ =>
      (* 1. Save to the main file (Persistence) *)
      performBackup dbPath;;
      (* 2. Create timestamped backup file (Archival) *)
      let backupFilePath := (backupDir, backupFileName now) in
      try_catch
        (performBackup backupFilePath;;
         console_log ("[Auto Backup] Archival backup created successfully: "
                      +:+ backupFileName now);;
         s' ← get;
         if (0 <? windows s')%nat
         then send_backup_status ("Last Auto Backup: " +:+ toLocaleTimeString now)
         else mret tt)
        (fun error => console_error ("Auto Backup failed: " +:+ message error))
  end.

Definition createWindow : M unit :=
  fun s => (Ok tt, {| db := db s; lastLogId := lastLogId s; disk := disk s;
                      console := console s; windows := S (windows s);
                      sent := sent s; intervals := intervals s;
                      quitting := quitting s |}).

(** [setInterval(autoHourlyBackup, ms)] *)
Definition setInterval (ms : Z) : M unit :=
  fun s => (Ok tt, {| db := db s; lastLogId := lastLogId s; disk := disk s;
                      console := console s; windows := windows s;
                      sent := sent s; intervals := intervals s ++ [ms];
                      quitting := quitting s |}).

(** [app.quit()] *)
Definition app_quit : M unit :=
  fun s => (Ok tt, {| db := db s; lastLogId := lastLogId s; disk := disk s;
                      console := console s; windows := windows s;
                      sent := sent s; intervals := intervals s;
                      quitting := true |}).

(** The callback of [app.whenReady()]. *)
Definition whenReady : M unit :=
  try_catch
    (initializeDatabase;;
     createWindow;;
     setInterval HOURLY_BACKUP_INTERVAL_MS;;
     console_log ("Hourly auto-backup scheduled to run every "
                  +:+ pretty (HOURLY_BACKUP_INTERVAL_MS / 3600000) +:+ " hour(s)."))
    (fun error =>
       console_error ("Critical error during app initialization: "
                      +:+ message error);;
       app_quit).

(** The listener of before-quit. *)
Definition before_quit : M unit :=
  s ← get;
  match db s with
  | None => mret tt
  | Some _ =>
      try_catch
        (performBackup dbPath;;
         console_log "Final save to persistent file complete before quit.")
        (fun error =>
           console_error ("Final persistence save failed: " +:+ message error))
  end.

(** A timer armed by [setInterval] fires: the callback runs and the
    promise it returns is dropped; the timer stays armed. *)
Definition interval_fires (now : Date) (s : State) : State :=
  match intervals s with
  | [] => s
  | _ :: _ => (autoHourlyBackup now s).2
  end.

(** *** IPC handlers *)

(** The object built from one row: [log[col] = row[index]] for each
    column. *)
Definition log_object (columnNames : list string) (row : list Value) : LogObject :=
  imap (fun index col => (col, nth index row VUndefined)) columnNames.

(** [ipcMain.handle('load-logs', ...)] *)
Definition load_logs : M (list LogObject) :=
  s ← get;
  match db s with
  | None => mret []
  | Some _ =>
      try_catch
        (res ← db_exec (Sql.SELECT_ALL_ORDER_BY_ID Sql.DESC);
         match res with
         | [] => mret []
         | r :: _ =>
             let columnNames := Sql.columns r in
             mret (map (log_object columnNames) (Sql.values r))
         end)
        (fun error =>
           console_error ("Error reading logs from SQL database: "
                          +:+ message error);;
           mret [])
  end.

(** [ipcMain.handle('insert-log', ...)] *)
Definition insert_log (logEntry : LogEntry) : M Response :=
  s ← get;
  match db s with
  | None => mret (Failure "Database not ready.")
  | Some _ =>
      try_catch
        (let status := entry_status logEntry in
         let timestamp := entry_timestamp logEntry in
         db_run (Sql.INSERT timestamp status);;
         (* Get the new max ID for tracking *)
         result ← db_exec Sql.SELECT_MAX_ID;
         match first_cell result with
         | Some v => set_lastLogId v
         | None => mret tt
         end;;
         mret Success)
        (fun error =>
           console_error ("SQL.js insert failed: " +:+ message error);;
           mret (Failure (message error)))
  end.

(** [ipcMain.handle('clear-logs', ...)] *)
Definition clear_logs : M Response :=
  s ← get;
  match db s with
  | None => mret (Failure "Database not ready.")
  | Some _ =>
      try_catch
        (db_run Sql.DELETE_ALL;;
         set_lastLogId (VNum 0);;
         (* Also save the empty state to the persistent file immediately *)
         performBackup dbPath;;
         console_log "SQL log cleared and persistent file updated.";;
         mret Success)
        (fun error =>
           console_error ("Error clearing SQL database: " +:+ message error);;
           mret (Failure (message error)))
  end.

(** One line of the CSV: [`${log[0]},"${log[1]}",${log[2]}`] *)
Definition csv_row (log : list Value) : string :=
  to_string (nth 0 log VUndefined) +:+ "," +:+ dquote
  +:+ to_string (nth 1 log VUndefined) +:+ dquote +:+ ","
  +:+ to_string (nth 2 log VUndefined).

Definition newline : string := String "010"%char EmptyString.

(** [csvContent] of the export, from the rows of the query. *)
Definition csv_content (logs : list (list Value)) : string :=
  let headers := ["ID"; "Timestamp_ISO"; "Status"] in
  let csvRows := map csv_row logs in
  join newline (join "," headers :: csvRows).

(** [ipcMain.handle('export-log-csv', ...)]; [chosen] is what the save
    dialog gives: [None] when it was cancelled or gave no path.  The default
    path offered to the dialog plays no part in what is written. *)
Definition export_log_csv (chosen : option Fs.path) : M ExportReply :=
  s ← get;
  match db s with
  | None => mret {| success := false; text := "Database not ready." |}
  | Some _ =>
      (* 1. Get all logs for CSV generation *)
      res ← db_exec (Sql.SELECT_ALL_ORDER_BY_ID Sql.ASC);
      match res with
      | [] => mret {| success := false; text := "No logs to export." |}
      | r :: _ =>
          let csvContent := csv_content (Sql.values r) in
          (* 2. Show the native save dialog *)
          match chosen with
          | None => mret {| success := false; text := "Export canceled by user." |}
          | Some filePath =>
              (* 3. Write the CSV content to the chosen file path *)
              try_catch
                (fs_write filePath (list_byte_of_string csvContent);;
                 mret {| success := true;
                         text := "CSV exported successfully to: "
                                 +:+ Fs.path_str filePath |})
                (fun error =>
                   mret {| success := false;
                           text := "CSV Export failed: " +:+ message error |})
          end
      end
  end.

(** *** Runs of the program *)

(** The state of a process that has just started on the disk [fs]. *)
Definition boot (fs : Fs.FS) : State :=
  {| db := None; lastLogId := VNum 0; disk := fs; console := [];
     windows := 0; sent := []; intervals := []; quitting := false |}.

(** The rows of the log table. *)
Definition entries (s : State) : list Sql.Row :=
  match db s with
  | Some d => match Sql.network_log d with Sql.Table rows => rows | _ => [] end
  | None => []
  end.

(** What happens to the process: a log entry arrives, the log is cleared,
    the backup timer fires, or the application quits and is started
    again on the same disk. *)
Inductive Op : Type :=
  | Insert (e : LogEntry)
  | Clear
  | Tick (now : Date)
  | Restart.

Definition step (o : Op) (s : State) : State :=
  match o with
  | Insert e => (insert_log e s).2
  | Clear => (clear_logs s).2
  | Tick now => interval_fires now s
  | Restart => (whenReady (boot (disk (before_quit s).2))).2
  end.

Definition run (ops : list Op) (s : State) : State :=
  fold_left (fun s o => step o s) ops s.

(** The id of the row that a successful insert-log adds in state [s]. *)
Definition assigned_id (e : LogEntry) (s : State) : option Z :=
  match insert_log e s with
  | (Ok Success, s') => Sql.id <$> last (entries s')
  | _ => None
  end.

(** The ids given out along a run, in the order of the inserts. *)
Fixpoint assigned (ops : list Op) (s : State) : list Z :=
  match ops with
  | [] => []
  | o :: rest =>
      (match o with
       | Insert e => option_list (assigned_id e s)
       | _ => []
       end) ++ assigned rest (step o s)
  end.

(** The disk as a successful start leaves it, with the persistent file
    open to reading and writing. *)
Definition healthy (fs : Fs.FS) : Prop :=
  is_Some (Fs.tree fs !! userData) ∧ is_Some (Fs.tree fs !! backupDir) ∧
  (dbPath ∉ Fs.rdeny fs) ∧ (dbPath ∉ Fs.wdeny fs).

(** The store of a running process: the table exists and no row has an id
    above the recorded sequence, which is what AUTOINCREMENT maintains;
    the sequence starts at 0. *)
Definition store_ok (s : State) : Prop :=
  ∃ d rows, db s = Some d ∧ Sql.network_log d = Sql.Table rows ∧
            Forall (fun r => Sql.id r <= Sql.sqlite_sequence d) rows ∧
            0 <= Sql.sqlite_sequence d.

(** The database that step 2 of [initializeDatabase] leaves in [db]. *)
Definition loaded (fs : Fs.FS) : Sql.Database :=
  match Fs.readFileSync dbPath fs with
  | Ok filebuffer =>
      match open_image filebuffer with
      | Some d => d
      | None => Sql.empty
      end
  | Throw _ => Sql.empty
  end.

(** The database after CREATE TABLE IF NOT EXISTS. *)
Definition ensure_table (d : Sql.Database) : Sql.Database :=
  match Sql.network_log d with
  | Sql.NoTable => {| Sql.network_log := Sql.Table [];
                      Sql.sqlite_sequence := Sql.sqlite_sequence d |}
  | _ => d
  end.

(** The value step 4 gives to [lastLogId]. *)
Definition counter (d : Sql.Database) : Value :=
  match Sql.network_log d with
  | Sql.Table rows =>
      match Sql.max_id rows with
      | Some m => VNum (Sql.to_number m)
      | None => VNum 0
      end
  | _ => VNum 0
  end.

(** The handle is open on a database. *)
Definition is_database (d : Sql.Database) : Prop :=
  Sql.network_log d ≠ Sql.NotADatabase.

(** The store that a first start creates: the empty table, nothing
    recorded in the sequence. *)
Definition fresh_db : Sql.Database :=
  {| Sql.network_log := Sql.Table []; Sql.sqlite_sequence := 0 |}.

(** The backup directory exists on [fs], or can be created. *)
Definition dirs_ready (fs : Fs.FS) : Prop :=
  Fs.existsSync backupDir fs = true ∨
  ∃ fs', Fs.mkdirSync_recursive backupDir fs = Ok fs'.

(** Every line is printed by [console.log]. *)
Definition only_logs (lines : list (Level * string)) : Prop :=
  Forall (fun l => l.1 = LOG) lines.

(** *** Notions used to state the properties *)

(** What a state keeps of another one apart from the database, the
    counter and the console. *)
Definition same_frame (s s' : State) : Prop :=
  disk s' = disk s ∧ windows s' = windows s ∧ sent s' = sent s ∧
  intervals s' = intervals s ∧ quitting s' = quitting s.

(** What the disk keeps when directories are created on it. *)
Definition same_files (fs fs' : Fs.FS) : Prop :=
  (∀ p, Fs.lookup_file p fs' = Fs.lookup_file p fs) ∧
  Fs.rdeny fs' = Fs.rdeny fs ∧ Fs.wdeny fs' = Fs.wdeny fs ∧
  (∀ d, is_Some (Fs.tree fs !! d) -> is_Some (Fs.tree fs' !! d)).

(** The database after DELETE FROM network_log: the sequence stays. *)
Definition emptied (d : Sql.Database) : Sql.Database :=
  {| Sql.network_log := Sql.Table []; Sql.sqlite_sequence := Sql.sqlite_sequence d |}.

Definition saved_line (p : Fs.path) : Level * string :=
  (LOG, "[Persistence] Database saved/backed up to: " +:+ Fs.path_str p).

Definition export_failed : JsError :=
  Error ("Backup/Export failed: " +:+ message Fs.eacces).

(** The recorded sequence of the database of [s]. *)
Definition seq_of (s : State) : Z :=
  match db s with
  | Some d => Sql.sqlite_sequence d
  | None => 0
  end.

(** [lastLogId] follows the table: it is the largest id, or 0 on an empty
    table. *)
Definition tracked (s : State) : Prop :=
  ∃ d rows, db s = Some d ∧ Sql.network_log d = Sql.Table rows ∧
            lastLogId s = counter d.

Definition dash (c : ascii) : ascii := if colon_or_dot c then "-"%char else c.

(** The characters of the date in an archive name. *)
Definition date_chars (d : Date) : list ascii :=
  fixed 4 (year d) ++ "-"%char :: fixed 2 (month d) ++ "-"%char ::
  fixed 2 (day d) ++ "T"%char :: fixed 2 (hours d) ++ "-"%char ::
  fixed 2 (minutes d) ++ "-"%char :: fixed 2 (seconds d) ++ "-"%char ::
  fixed 3 (milliseconds d) ++ ["Z"%char].

Definition down_entry : LogEntry :=
  {| entry_status := "DOWN"; entry_timestamp := "2024-01-01T00:00:00Z" |}.

Definition up_entry : LogEntry :=
  {| entry_status := "UP"; entry_timestamp := "2024-01-01T00:05:00Z" |}.

(** The three lines of the export, the timestamps between double
    quotes. *)
Definition expected_csv : string :=
  "ID,Timestamp_ISO,Status" +:+ newline +:+
  "1," +:+ dquote +:+ "2024-01-01T00:00:00Z" +:+ dquote +:+ ",DOWN" +:+ newline +:+
  "2," +:+ dquote +:+ "2024-01-01T00:05:00Z" +:+ dquote +:+ ",UP".

(** The object load-logs builds from a row. *)
Definition row_object (r : Sql.Row) : LogObject :=
  [("id", VNum (Sql.to_number (Sql.id r)));
   ("timestamp", VStr (Sql.timestamp r));
   ("status", VStr (Sql.status r))].

(** The entries are listed by strictly increasing id. *)
Definition ids_increasing (s : State) : Prop :=
  StronglySorted Z.lt (map Sql.id (entries s)).

(** How many times the character [c] occurs in [s]. *)
Fixpoint occurrences (c : ascii) (s : string) : nat :=
  match s with
  | EmptyString => 0%nat
  | String c' rest =>
      ((if Ascii.eqb c c' then 1 else 0) + occurrences c rest)%nat
  end.

(** How many times [c] occurs in the timestamps and statuses of [rows]. *)
Definition field_occurrences (c : ascii) (rows : list Sql.Row) : nat :=
  list_sum (map (fun r => (occurrences c (Sql.timestamp r)
                           + occurrences c (Sql.status r))%nat) rows).

(** The line of the CSV for an entry, with the id in decimal. *)
Definition csv_line (r : Sql.Row) : string :=
  pretty (Sql.id r) +:+ "," +:+ dquote +:+ Sql.timestamp r +:+ dquote +:+ ","
  +:+ Sql.status r.

(** The export of the DOWN entry and the UP entry when they have the ids
    [q + 1] and [q + 2]. *)
Definition two_rows_csv (q : Z) : string :=
  join newline
    ["ID,Timestamp_ISO,Status";
     csv_line (Sql.mkRow (q + 1) "2024-01-01T00:00:00Z" "DOWN");
     csv_line (Sql.mkRow (q + 2) "2024-01-01T00:05:00Z" "UP")].

(** *** Properties *)


(** **** The file system *)

Lemma lookup_file_store p data files fs :
  Fs.lookup_file p (Fs.store p data files fs) = Some data.
Proof.
  unfold Fs.lookup_file, Fs.store. simpl.
  rewrite lookup_insert_eq. apply lookup_insert_eq.
Qed.

Lemma lookup_file_store_ne p q data files fs :
  Fs.tree fs !! p.1 = Some files -> q ≠ p ->
  Fs.lookup_file q (Fs.store p data files fs) = Fs.lookup_file q fs.
Proof.
  intros Hdir Hne. unfold Fs.lookup_file, Fs.store. simpl.
  destruct (decide (p.1 = q.1)) as [Heq|Hd].
  - rewrite <- Heq, lookup_insert_eq, Hdir.
    apply lookup_insert_ne. intros Hn. apply Hne.
    destruct p, q; simpl in *; congruence.
  - rewrite lookup_insert_ne by exact Hd. reflexivity.
Qed.

Lemma store_dir p data files fs d :
  Fs.tree fs !! p.1 = Some files ->
  is_Some (Fs.tree (Fs.store p data files fs) !! d) <-> is_Some (Fs.tree fs !! d).
Proof.
  intros Hdir. unfold Fs.store. simpl.
  destruct (decide (p.1 = d)) as [<-|Hd].
  - rewrite lookup_insert_eq, Hdir. split; eauto.
  - rewrite lookup_insert_ne by exact Hd. reflexivity.
Qed.

Lemma writeFileSync_ok p data fs files :
  Fs.tree fs !! p.1 = Some files -> p ∉ Fs.wdeny fs ->
  Fs.writeFileSync p data fs = Ok (Fs.store p data files fs).
Proof.
  intros Hdir Hw. unfold Fs.writeFileSync. rewrite Hdir.
  case_decide; [contradiction | reflexivity].
Qed.

Lemma writeFileSync_enoent p data fs :
  Fs.tree fs !! p.1 = None -> Fs.writeFileSync p data fs = Throw Fs.enoent.
Proof. intros Hdir. unfold Fs.writeFileSync. rewrite Hdir. reflexivity. Qed.

Lemma writeFileSync_denied p data fs files :
  Fs.tree fs !! p.1 = Some files -> p ∈ Fs.wdeny fs ->
  Fs.writeFileSync p data fs = Throw Fs.eacces.
Proof.
  intros Hdir Hw. unfold Fs.writeFileSync. rewrite Hdir.
  case_decide; [reflexivity | contradiction].
Qed.

(** A write either stores the data or throws ENOENT or EACCES and leaves
    the disk as it was. *)
Lemma writeFileSync_cases p data fs :
  (∃ files, Fs.tree fs !! p.1 = Some files ∧ (p ∉ Fs.wdeny fs) ∧
            Fs.writeFileSync p data fs = Ok (Fs.store p data files fs)) ∨
  (Fs.tree fs !! p.1 = None ∧ Fs.writeFileSync p data fs = Throw Fs.enoent) ∨
  (is_Some (Fs.tree fs !! p.1) ∧ p ∈ Fs.wdeny fs ∧
   Fs.writeFileSync p data fs = Throw Fs.eacces).
Proof.
  destruct (Fs.tree fs !! p.1) as [files|] eqn:Hdir.
  - destruct (decide (p ∈ Fs.wdeny fs)) as [Hin|Hout].
    + right; right. split; [eauto|]. split; [exact Hin|].
      eapply writeFileSync_denied; eauto.
    + left. exists files. split; [reflexivity|]. split; [exact Hout|].
      apply writeFileSync_ok; assumption.
  - right; left. split; [reflexivity|]. apply writeFileSync_enoent; assumption.
Qed.

Lemma mkdir_from_keeps pre rest fs fs' :
  Fs.mkdir_from pre rest fs = Ok fs' ->
  (∀ p, Fs.lookup_file p fs' = Fs.lookup_file p fs) ∧
  Fs.rdeny fs' = Fs.rdeny fs ∧ Fs.wdeny fs' = Fs.wdeny fs ∧
  (∀ d, is_Some (Fs.tree fs !! d) -> is_Some (Fs.tree fs' !! d)).
Proof.
  revert pre fs. induction rest as [|c rest IH]; intros pre fs Hmk; simpl in Hmk.
  - inversion Hmk; subst. auto.
  - destruct (Fs.tree fs !! (pre ++ [c])) as [files|] eqn:Hd.
    + apply IH in Hmk. exact Hmk.
    + case_decide; [discriminate|].
      apply IH in Hmk. simpl in Hmk.
      destruct Hmk as (Hfiles & Hr & Hw & Hdirs).
      split; [|split; [exact Hr | split; [exact Hw|]]].
      * intros p. rewrite Hfiles. unfold Fs.lookup_file. simpl.
        destruct (decide (pre ++ [c] = p.1)) as [Heq|Hne].
        -- rewrite <- Heq, lookup_insert_eq. rewrite Hd. apply lookup_empty.
        -- rewrite lookup_insert_ne by exact Hne. reflexivity.
      * intros d Hsome. apply Hdirs.
        destruct (decide (pre ++ [c] = d)) as [Heq|Hne].
        -- rewrite <- Heq, lookup_insert_eq. eauto.
        -- rewrite lookup_insert_ne by exact Hne. exact Hsome.
Qed.

Lemma readFileSync_ext p fs fs' :
  Fs.lookup_file p fs' = Fs.lookup_file p fs -> Fs.rdeny fs' = Fs.rdeny fs ->
  Fs.readFileSync p fs' = Fs.readFileSync p fs.
Proof. intros Hl Hr. unfold Fs.readFileSync. rewrite Hl, Hr. reflexivity. Qed.

(** **** performBackup *)

Lemma performBackup_written s d p fs' :
  db s = Some d ->
  Fs.writeFileSync p (export d) (disk s) = Ok fs' ->
  performBackup p s =
    (Ok tt, upd_console LOG ("[Persistence] Database saved/backed up to: "
                             +:+ Fs.path_str p) (upd_disk fs' s)).
Proof.
  intros Hdb Hw. unfold performBackup. simpl. unfold mbind, M_bind, bind. simpl.
  rewrite Hdb. unfold try_catch, fs_write. simpl. rewrite Hw. reflexivity.
Qed.

Lemma performBackup_enoent s d p :
  db s = Some d ->
  Fs.tree (disk s) !! p.1 = None ->
  performBackup p s = (Ok tt, s).
Proof.
  intros Hdb Hdir. unfold performBackup. simpl. unfold mbind, M_bind, bind. simpl.
  rewrite Hdb. unfold try_catch, fs_write. simpl.
  rewrite writeFileSync_enoent by exact Hdir. reflexivity.
Qed.

Lemma performBackup_denied s d p :
  db s = Some d ->
  is_Some (Fs.tree (disk s) !! p.1) -> p ∈ Fs.wdeny (disk s) ->
  performBackup p s =
    (Throw (Error ("Backup/Export failed: " +:+ message Fs.eacces)), s).
Proof.
  intros Hdb [files Hdir] Hw. unfold performBackup. simpl.
  unfold mbind, M_bind, bind. simpl.
  rewrite Hdb. unfold try_catch, fs_write. simpl.
  rewrite (writeFileSync_denied _ _ _ files) by assumption. reflexivity.
Qed.

(** **** The database *)

Lemma db_exec_ok s d stmt d' res :
  db s = Some d -> Sql.execute stmt d = Ok (d', res) ->
  db_exec stmt s = (Ok res, upd_db d' s).
Proof.
  intros Hdb Hex. unfold db_exec. simpl. unfold mbind, M_bind, bind. simpl.
  rewrite Hdb, Hex. reflexivity.
Qed.

Lemma db_exec_throw s d stmt e :
  db s = Some d -> Sql.execute stmt d = Throw e ->
  db_exec stmt s = (Throw e, s).
Proof.
  intros Hdb Hex. unfold db_exec. simpl. unfold mbind, M_bind, bind. simpl.
  rewrite Hdb, Hex. reflexivity.
Qed.

Lemma upd_db_same s d : db s = Some d -> upd_db d s = s.
Proof. destruct s; simpl; intros ->; reflexivity. Qed.

(** **** initializeDatabase *)

Lemma execute_create d :
  is_database d ->
  Sql.execute Sql.CREATE_TABLE_IF_NOT_EXISTS d = Ok (ensure_table d, []).
Proof.
  unfold is_database, Sql.execute, ensure_table.
  destruct (Sql.network_log d); [reflexivity .. | congruence].
Qed.

Lemma execute_max_ensure d :
  is_database d ->
  ∃ v, Sql.execute Sql.SELECT_MAX_ID (ensure_table d)
       = Ok (ensure_table d, [ {| Sql.columns := ["max_id"]; Sql.values := [[v]] |} ])
       ∧ (if negb (is_null v) then v else VNum 0) = counter (ensure_table d).
Proof.
  unfold is_database, Sql.execute, ensure_table, counter.
  destruct (Sql.network_log d) as [rows| |] eqn:Hrows; simpl; [| |congruence].
  - intros _. rewrite Hrows. destruct (Sql.max_id rows); eexists; split; reflexivity.
  - intros _. eexists; split; reflexivity.
Qed.

Lemma execute_garbage stmt d :
  Sql.network_log d = Sql.NotADatabase ->
  Sql.execute stmt d = Throw Sql.not_a_database.
Proof. intros Hd. unfold Sql.execute. rewrite Hd. reflexivity. Qed.

Lemma db_run_ok s d stmt d' res :
  db s = Some d -> Sql.execute stmt d = Ok (d', res) ->
  db_run stmt s = (Ok tt, upd_db d' s).
Proof.
  intros Hdb Hex. unfold db_run. unfold mbind, M_bind, bind.
  rewrite (db_exec_ok s d stmt d' res Hdb Hex). reflexivity.
Qed.

(** Steps 2 to 4, from a state in which step 1 is done. *)
Lemma initializeDatabase_from s :
  Fs.existsSync backupDir (disk s) = true ->
  is_database (loaded (disk s)) ->
  ∃ s', initializeDatabase s = (Ok tt, s') ∧
        db s' = Some (ensure_table (loaded (disk s))) ∧
        lastLogId s' = counter (ensure_table (loaded (disk s))) ∧
        same_frame s s' ∧
        ∃ lines, console s' = console s ++ lines ∧ only_logs lines.
Proof.
  intros Hex. unfold initializeDatabase.
  unfold mbind, M_bind, bind, mret, M_ret, ret. simpl. rewrite Hex. simpl.
  unfold try_catch, fs_read, loaded, new_Database. cbv beta.
  destruct (Fs.readFileSync dbPath (disk s)) as [buf|err] eqn:Hread;
    [destruct (open_image buf) as [d0|] eqn:Hopen|]; simpl; intros Hisdb.
  - erewrite db_run_ok by (try (apply execute_create; exact Hisdb); reflexivity).
    destruct (execute_max_ensure d0 Hisdb) as (v & Hmax & Hv).
    erewrite db_exec_ok by (try exact Hmax; reflexivity).
    simpl. rewrite <- Hv. clear Hv.
    destruct (negb (is_null v)); simpl.
    all: eexists; split; [reflexivity|]; simpl.
    all: split; [reflexivity|]; split; [reflexivity|].
    all: split; [repeat split|].
    all: eexists; split;
      [rewrite <- app_assoc; reflexivity | repeat constructor].
  - eexists; split; [reflexivity|]. simpl.
    split; [reflexivity|]; split; [reflexivity|].
    split; [repeat split|].
    eexists; split;
      [rewrite <- app_assoc; reflexivity | repeat constructor].
  - eexists; split; [reflexivity|]. simpl.
    split; [reflexivity|]; split; [reflexivity|].
    split; [repeat split|].
    eexists; split;
      [rewrite <- app_assoc; reflexivity | repeat constructor].
Qed.

(** Steps 2 to 4 when the bytes of the persistent file open as a handle
    that is not a database: CREATE TABLE throws, outside of any try block,
    and [initializeDatabase] throws with it. *)
Lemma initializeDatabase_from_garbage s :
  Fs.existsSync backupDir (disk s) = true ->
  Sql.network_log (loaded (disk s)) = Sql.NotADatabase ->
  ∃ s', initializeDatabase s = (Throw Sql.not_a_database, s') ∧
        db s' = Some (loaded (disk s)) ∧ lastLogId s' = lastLogId s ∧
        same_frame s s' ∧
        console s' = console s ++
          [(LOG, "Loaded persistent database from: " +:+ Fs.path_str dbPath)].
Proof.
  intros Hex. unfold initializeDatabase.
  unfold mbind, M_bind, bind, mret, M_ret, ret. simpl. rewrite Hex. simpl.
  unfold try_catch, fs_read, loaded, new_Database. cbv beta.
  destruct (Fs.readFileSync dbPath (disk s)) as [buf|err] eqn:Hread;
    [destruct (open_image buf) as [d0|] eqn:Hopen|]; simpl;
    intros Hg; try discriminate.
  unfold db_run. unfold mbind, M_bind, bind.
  erewrite db_exec_throw by (try (apply execute_garbage; exact Hg); reflexivity).
  eexists. split; [reflexivity|]. simpl. repeat split.
Qed.

Lemma mkdir_from_creates pre rest fs fs' :
  Fs.mkdir_from pre rest fs = Ok fs' -> rest ≠ [] ->
  is_Some (Fs.tree fs' !! (pre ++ rest)).
Proof.
  revert pre fs. induction rest as [|c rest IH]; intros pre fs Hmk Hne;
    [congruence|]. simpl in Hmk.
  replace (pre ++ c :: rest) with ((pre ++ [c]) ++ rest)
    by (rewrite <- app_assoc; reflexivity).
  destruct rest as [|c' rest'].
  - rewrite app_nil_r. simpl in Hmk.
    destruct (Fs.tree fs !! (pre ++ [c])) as [files|] eqn:Hd.
    + inversion Hmk; subst. rewrite Hd. eauto.
    + case_decide; [discriminate|]. inversion Hmk; subst. simpl.
      rewrite lookup_insert_eq. eauto.
  - destruct (Fs.tree fs !! (pre ++ [c])) as [files|] eqn:Hd.
    + eapply IH; [exact Hmk | discriminate].
    + case_decide; [discriminate|]. eapply IH; [exact Hmk | discriminate].
Qed.

Lemma existsSync_true d fs : Fs.existsSync d fs = true <-> is_Some (Fs.tree fs !! d).
Proof. unfold Fs.existsSync. apply bool_decide_eq_true. Qed.

(** Whether the directories can be created depends on which directories
    exist, not on the files in them. *)
Lemma mkdir_from_same_dirs pre rest fs1 fs2 fs1' :
  (∀ d, is_Some (Fs.tree fs1 !! d) <-> is_Some (Fs.tree fs2 !! d)) ->
  Fs.ddeny fs1 = Fs.ddeny fs2 ->
  Fs.mkdir_from pre rest fs1 = Ok fs1' ->
  ∃ fs2', Fs.mkdir_from pre rest fs2 = Ok fs2'.
Proof.
  revert pre fs1 fs2. induction rest as [|c rest IH]; intros pre fs1 fs2 Hdirs Hdeny Hmk.
  - simpl. eauto.
  - simpl in *.
    destruct (Fs.tree fs1 !! (pre ++ [c])) as [files|] eqn:H1.
    + destruct (Fs.tree fs2 !! (pre ++ [c])) as [files'|] eqn:H2.
      * eapply IH; eassumption.
      * assert (Hs : is_Some (Fs.tree fs2 !! (pre ++ [c])))
          by (apply Hdirs; rewrite H1; eauto).
        rewrite H2 in Hs. destruct Hs; discriminate.
    + destruct (Fs.tree fs2 !! (pre ++ [c])) as [files'|] eqn:H2.
      * assert (Hs : is_Some (Fs.tree fs1 !! (pre ++ [c])))
          by (apply Hdirs; rewrite H2; eauto).
        rewrite H1 in Hs. destruct Hs; discriminate.
      * rewrite <- Hdeny. case_decide; [discriminate|].
        eapply IH; [| |exact Hmk]; simpl; [|reflexivity].
        intros d. destruct (decide (pre ++ [c] = d)) as [<-|Hne].
        -- rewrite !lookup_insert_eq. split; eauto.
        -- rewrite !lookup_insert_ne by exact Hne. apply Hdirs.
Qed.

Lemma dirs_ready_store p data files fs :
  Fs.tree fs !! p.1 = Some files -> dirs_ready fs ->
  dirs_ready (Fs.store p data files fs).
Proof.
  intros Hdir [Hex|[fs' Hmk]].
  - left. apply existsSync_true. apply store_dir; [exact Hdir|].
    apply existsSync_true. exact Hex.
  - right. unfold Fs.mkdirSync_recursive in *.
    eapply mkdir_from_same_dirs; [| |exact Hmk].
    + intros d. symmetry. apply store_dir. exact Hdir.
    + reflexivity.
Qed.

Lemma initializeDatabase_mkdir s fs' :
  Fs.existsSync backupDir (disk s) = false ->
  Fs.mkdirSync_recursive backupDir (disk s) = Ok fs' ->
  initializeDatabase s =
  initializeDatabase
    (upd_console LOG ("Created backup directory: " +:+ String.concat "/" backupDir)
       (upd_disk fs' s)).
Proof.
  intros Hex Hmk.
  assert (Hnow : Fs.existsSync backupDir fs' = true).
  { apply existsSync_true. unfold Fs.mkdirSync_recursive in Hmk.
    apply mkdir_from_creates in Hmk; [exact Hmk|].
    unfold backupDir. destruct userData; discriminate. }
  unfold initializeDatabase.
  unfold mbind, M_bind, bind, mret, M_ret, ret. simpl.
  rewrite Hex, Hnow. simpl. unfold fs_mkdir. rewrite Hmk. reflexivity.
Qed.

Lemma initializeDatabase_mkdir_throws s e :
  Fs.existsSync backupDir (disk s) = false ->
  Fs.mkdirSync_recursive backupDir (disk s) = Throw e ->
  initializeDatabase s = (Throw e, s).
Proof.
  intros Hex Hmk. unfold initializeDatabase.
  unfold mbind, M_bind, bind, mret, M_ret, ret. simpl.
  rewrite Hex. simpl. unfold fs_mkdir. rewrite Hmk. reflexivity.
Qed.

Lemma same_files_refl fs : same_files fs fs.
Proof. repeat split; auto. Qed.

Lemma loaded_same_files fs fs' : same_files fs fs' -> loaded fs' = loaded fs.
Proof.
  intros (Hf & Hr & _). unfold loaded.
  rewrite (readFileSync_ext dbPath fs fs' (Hf dbPath) Hr). reflexivity.
Qed.

(** [initializeDatabase] completes whenever the backup directory exists or
    can be created and the handle it opens is a database: the database is
    the one read from the persistent file, or an empty one, with the table
    ensured; the counter is its largest id; nothing is printed by
    [console.error]. *)
Lemma initializeDatabase_spec s :
  dirs_ready (disk s) -> is_database (loaded (disk s)) ->
  ∃ s', initializeDatabase s = (Ok tt, s') ∧
        db s' = Some (ensure_table (loaded (disk s))) ∧
        lastLogId s' = counter (ensure_table (loaded (disk s))) ∧
        same_files (disk s) (disk s') ∧
        is_Some (Fs.tree (disk s') !! backupDir) ∧
        windows s' = windows s ∧ sent s' = sent s ∧
        intervals s' = intervals s ∧ quitting s' = quitting s ∧
        ∃ lines, console s' = console s ++ lines ∧ only_logs lines.
Proof.
  intros Hready Hisdb.
  destruct (Fs.existsSync backupDir (disk s)) eqn:Hex.
  - destruct (initializeDatabase_from s Hex Hisdb)
      as (s' & Hrun & Hdb & Hid & (Hdisk & Hw & Hs & Hi & Hq) & Hlines).
    exists s'. rewrite Hdisk.
    repeat (split; [assumption || apply same_files_refl
                    || (apply existsSync_true; assumption) |]).
    exact Hlines.
  - destruct Hready as [Habs|[fs' Hmk]]; [congruence|].
    rewrite (initializeDatabase_mkdir s fs' Hex Hmk).
    set (s1 := upd_console LOG _ (upd_disk fs' s)).
    assert (Hkeep : same_files (disk s) fs').
    { unfold Fs.mkdirSync_recursive in Hmk.
      apply mkdir_from_keeps in Hmk. exact Hmk. }
    assert (Hnow : Fs.existsSync backupDir (disk s1) = true).
    { apply existsSync_true. unfold Fs.mkdirSync_recursive in Hmk.
      apply mkdir_from_creates in Hmk; [exact Hmk|].
      unfold backupDir. destruct userData; discriminate. }
    assert (Hisdb1 : is_database (loaded (disk s1)))
      by (simpl; rewrite (loaded_same_files _ _ Hkeep); exact Hisdb).
    destruct (initializeDatabase_from s1 Hnow Hisdb1)
      as (s' & Hrun & Hdb & Hid & (Hdisk & Hw & Hs & Hi & Hq) & lines & Hc & Hl).
    exists s'. simpl in *.
    rewrite (loaded_same_files _ _ Hkeep) in Hdb, Hid. rewrite Hdisk.
    repeat (split; [assumption || (apply existsSync_true; assumption) |]).
    eexists. split; [rewrite Hc, <- app_assoc; reflexivity|].
    constructor; [reflexivity | exact Hl].
Qed.

(** When the handle is not a database, [initializeDatabase] throws: the
    error of CREATE TABLE is not caught, nothing is printed by
    [console.error] inside it, and [db] is left holding the handle. *)
Lemma initializeDatabase_garbage s :
  dirs_ready (disk s) -> Sql.network_log (loaded (disk s)) = Sql.NotADatabase ->
  ∃ s', initializeDatabase s = (Throw Sql.not_a_database, s') ∧
        db s' = Some (loaded (disk s)) ∧ lastLogId s' = lastLogId s ∧
        same_files (disk s) (disk s') ∧
        windows s' = windows s ∧ intervals s' = intervals s ∧
        quitting s' = quitting s ∧
        ∃ lines, console s' = console s ++ lines ∧ only_logs lines.
Proof.
  intros Hready Hg.
  destruct (Fs.existsSync backupDir (disk s)) eqn:Hex.
  - destruct (initializeDatabase_from_garbage s Hex Hg)
      as (s' & Hrun & Hdb & Hid & (Hdisk & Hw & Hs & Hi & Hq) & Hc).
    exists s'. rewrite Hdisk.
    repeat (split; [assumption || apply same_files_refl|]).
    eexists. split; [exact Hc | repeat constructor].
  - destruct Hready as [Habs|[fs' Hmk]]; [congruence|].
    rewrite (initializeDatabase_mkdir s fs' Hex Hmk).
    set (s1 := upd_console LOG _ (upd_disk fs' s)).
    assert (Hkeep : same_files (disk s) fs').
    { unfold Fs.mkdirSync_recursive in Hmk.
      apply mkdir_from_keeps in Hmk. exact Hmk. }
    assert (Hnow : Fs.existsSync backupDir (disk s1) = true).
    { apply existsSync_true. unfold Fs.mkdirSync_recursive in Hmk.
      apply mkdir_from_creates in Hmk; [exact Hmk|].
      unfold backupDir. destruct userData; discriminate. }
    assert (Hg1 : Sql.network_log (loaded (disk s1)) = Sql.NotADatabase)
      by (simpl; rewrite (loaded_same_files _ _ Hkeep); exact Hg).
    destruct (initializeDatabase_from_garbage s1 Hnow Hg1)
      as (s' & Hrun & Hdb & Hid & (Hdisk & Hw & Hs & Hi & Hq) & Hc).
    exists s'. simpl in *.
    rewrite (loaded_same_files _ _ Hkeep) in Hdb. rewrite Hdisk.
    repeat (split; [assumption|]).
    eexists. split; [rewrite Hc, <- app_assoc; reflexivity | repeat constructor].
Qed.

(** **** Row ids *)

Lemma max_id_bound rows m :
  Sql.max_id rows = Some m -> Forall (fun r => Sql.id r <= m) rows.
Proof.
  revert m. induction rows as [|r rows IH]; intros m Hm; [constructor|].
  simpl in Hm. destruct (Sql.max_id rows) as [m'|] eqn:Hrest.
  - inversion Hm; subst. constructor; [lia|].
    eapply Forall_impl; [apply IH; reflexivity|]. simpl. intros; lia.
  - inversion Hm; subst. destruct rows; [|simpl in Hrest].
    + constructor; [lia | constructor].
    + destruct (Sql.max_id rows); discriminate.
Qed.

Lemma max_id_none rows : Sql.max_id rows = None -> rows = [].
Proof.
  destruct rows as [|r rows]; [reflexivity|]. simpl.
  destruct (Sql.max_id rows); discriminate.
Qed.

Lemma max_id_snoc rows r i :
  Sql.id r = i -> Forall (fun r' => Sql.id r' <= i) rows ->
  Sql.max_id (rows ++ [r]) = Some i.
Proof.
  intros Hi Hall. induction Hall as [|r' rows Hr' Hall IH]; simpl.
  - congruence.
  - rewrite IH. f_equal. lia.
Qed.

(** The id AUTOINCREMENT picks is above the recorded sequence and above
    every id of the table. *)
Lemma new_rowid_above rows seq i :
  Sql.new_rowid rows seq = Some i ->
  seq < i ∧ Forall (fun r => Sql.id r < i) rows.
Proof.
  unfold Sql.new_rowid. intros Hnew.
  destruct ((_ =? _) || (_ =? _)); [discriminate|].
  inversion Hnew; subst; clear Hnew. split; [lia|].
  destruct (Sql.max_id rows) as [m|] eqn:Hm.
  - eapply Forall_impl; [apply max_id_bound; exact Hm|]. simpl. intros; lia.
  - apply max_id_none in Hm. subst. constructor.
Qed.

(** While no row is above the sequence, the new id is the sequence plus
    one. *)
Lemma new_rowid_next rows seq :
  Forall (fun r => Sql.id r <= seq) rows -> 0 <= seq -> seq < Sql.MAX_ROWID ->
  Sql.new_rowid rows seq = Some (seq + 1).
Proof.
  intros Hall Hpos Hmax. unfold Sql.new_rowid.
  assert (Hm : match Sql.max_id rows with Some m => m | None => 0 end <= seq).
  { destruct (Sql.max_id rows) as [m|] eqn:Hm; [|exact Hpos].
    clear Hpos Hmax. revert m Hm.
    induction Hall as [|r rows Hr Hall IH]; intros m Hm; [discriminate|].
    simpl in Hm. destruct (Sql.max_id rows) as [m'|].
    - inversion Hm; subst. specialize (IH m' eq_refl). lia.
    - inversion Hm; subst. exact Hr. }
  destruct (_ =? Sql.MAX_ROWID) eqn:E1; [apply Z.eqb_eq in E1; lia|].
  destruct (seq =? Sql.MAX_ROWID) eqn:E2; [apply Z.eqb_eq in E2; lia|].
  simpl. f_equal. lia.
Qed.

(** **** insert-log *)

Lemma insert_log_not_ready s e :
  db s = None -> insert_log e s = (Ok (Failure "Database not ready."), s).
Proof.
  intros Hdb. unfold insert_log. unfold mbind, M_bind, bind. simpl.
  rewrite Hdb. reflexivity.
Qed.

Lemma insert_log_ok s d rows e i :
  db s = Some d -> Sql.network_log d = Sql.Table rows ->
  Sql.new_rowid rows (Sql.sqlite_sequence d) = Some i ->
  insert_log e s =
    (Ok Success,
     upd_lastLogId (VNum (Sql.to_number i))
       (upd_db {| Sql.network_log :=
                    Sql.Table (rows ++ [Sql.mkRow i (entry_timestamp e) (entry_status e)]);
                  Sql.sqlite_sequence := i |} s)).
Proof.
  intros Hdb Hrows Hnew. unfold insert_log.
  unfold mbind, M_bind, bind, mret, M_ret, ret, try_catch. simpl. rewrite Hdb.
  erewrite db_run_ok;
    [| exact Hdb | unfold Sql.execute; rewrite Hrows, Hnew; reflexivity].
  erewrite db_exec_ok;
    [| reflexivity
     | unfold Sql.execute; simpl;
       erewrite max_id_snoc;
       [reflexivity | reflexivity
        | eapply Forall_impl;
          [apply (new_rowid_above _ _ _ Hnew) | simpl; intros; lia]]].
  reflexivity.
Qed.

Lemma insert_log_full s d rows e :
  db s = Some d -> Sql.network_log d = Sql.Table rows ->
  Sql.new_rowid rows (Sql.sqlite_sequence d) = None ->
  insert_log e s =
    (Ok (Failure (message Sql.database_full)),
     upd_console ERROR ("SQL.js insert failed: " +:+ message Sql.database_full) s).
Proof.
  intros Hdb Hrows Hnew. unfold insert_log.
  unfold mbind, M_bind, bind, mret, M_ret, ret, try_catch. simpl. rewrite Hdb.
  unfold db_run. unfold mbind, M_bind, bind.
  erewrite db_exec_throw;
    [| exact Hdb | unfold Sql.execute; rewrite Hrows, Hnew; reflexivity].
  reflexivity.
Qed.

Lemma insert_log_throws s d e err :
  db s = Some d ->
  Sql.execute (Sql.INSERT (entry_timestamp e) (entry_status e)) d = Throw err ->
  insert_log e s =
    (Ok (Failure (message err)),
     upd_console ERROR ("SQL.js insert failed: " +:+ message err) s).
Proof.
  intros Hdb Hex. unfold insert_log.
  unfold mbind, M_bind, bind, mret, M_ret, ret, try_catch. simpl. rewrite Hdb.
  unfold db_run. unfold mbind, M_bind, bind.
  erewrite db_exec_throw; [| exact Hdb | exact Hex].
  reflexivity.
Qed.

(** The three ways insert-log ends: the database is not there; the row is
    added; the INSERT throws and the handler replies with the failure. *)
Lemma insert_log_cases s e :
  (db s = None ∧ insert_log e s = (Ok (Failure "Database not ready."), s)) ∨
  (∃ d rows i,
     db s = Some d ∧ Sql.network_log d = Sql.Table rows ∧
     Sql.new_rowid rows (Sql.sqlite_sequence d) = Some i ∧
     insert_log e s =
       (Ok Success,
        upd_lastLogId (VNum (Sql.to_number i))
          (upd_db {| Sql.network_log :=
                       Sql.Table (rows ++ [Sql.mkRow i (entry_timestamp e)
                                             (entry_status e)]);
                     Sql.sqlite_sequence := i |} s))) ∨
  (∃ d err,
     db s = Some d ∧
     Sql.execute (Sql.INSERT (entry_timestamp e) (entry_status e)) d = Throw err ∧
     insert_log e s =
       (Ok (Failure (message err)),
        upd_console ERROR ("SQL.js insert failed: " +:+ message err) s)).
Proof.
  destruct (db s) as [d|] eqn:Hdb.
  - destruct (Sql.execute (Sql.INSERT (entry_timestamp e) (entry_status e)) d)
      as [[d' res]|err] eqn:Hex.
    + right; left. unfold Sql.execute in Hex.
      destruct (Sql.network_log d) as [rows| |] eqn:Hrows; try discriminate.
      destruct (Sql.new_rowid rows (Sql.sqlite_sequence d)) as [i|] eqn:Hnew;
        [|discriminate].
      exists d, rows, i. repeat (split; [reflexivity || assumption|]).
      apply (insert_log_ok s d rows e i); assumption.
    + right; right. exists d, err. split; [reflexivity|]. split; [exact Hex|].
      apply (insert_log_throws s d e err Hdb Hex).
  - left. split; [reflexivity|]. apply insert_log_not_ready. exact Hdb.
Qed.

(** **** clear-logs *)

Lemma execute_delete d rows :
  Sql.network_log d = Sql.Table rows ->
  Sql.execute Sql.DELETE_ALL d = Ok (emptied d, []).
Proof. intros Hrows. unfold Sql.execute. rewrite Hrows. reflexivity. Qed.

Lemma clear_logs_written s d rows files :
  db s = Some d -> Sql.network_log d = Sql.Table rows ->
  Fs.tree (disk s) !! userData = Some files -> dbPath ∉ Fs.wdeny (disk s) ->
  clear_logs s =
    (Ok Success,
     upd_console LOG "SQL log cleared and persistent file updated."
       (upd_console LOG ("[Persistence] Database saved/backed up to: "
                         +:+ Fs.path_str dbPath)
          (upd_disk (Fs.store dbPath (export (emptied d)) files (disk s))
             (upd_lastLogId (VNum 0) (upd_db (emptied d) s))))).
Proof.
  intros Hdb Hrows Hdir Hw. unfold clear_logs.
  unfold mbind, M_bind, bind, mret, M_ret, ret, try_catch. simpl. rewrite Hdb.
  erewrite db_run_ok; [| exact Hdb | eapply execute_delete; exact Hrows].
  simpl.
  erewrite performBackup_written;
    [| reflexivity | simpl; apply writeFileSync_ok; [exact Hdir | exact Hw]].
  reflexivity.
Qed.

Lemma clear_logs_enoent s d rows :
  db s = Some d -> Sql.network_log d = Sql.Table rows ->
  Fs.tree (disk s) !! userData = None ->
  clear_logs s =
    (Ok Success,
     upd_console LOG "SQL log cleared and persistent file updated."
       (upd_lastLogId (VNum 0) (upd_db (emptied d) s))).
Proof.
  intros Hdb Hrows Hdir. unfold clear_logs.
  unfold mbind, M_bind, bind, mret, M_ret, ret, try_catch. simpl. rewrite Hdb.
  erewrite db_run_ok; [| exact Hdb | eapply execute_delete; exact Hrows].
  simpl.
  erewrite performBackup_enoent; [| reflexivity | exact Hdir].
  reflexivity.
Qed.

Lemma clear_logs_denied s d rows :
  db s = Some d -> Sql.network_log d = Sql.Table rows ->
  is_Some (Fs.tree (disk s) !! userData) -> dbPath ∈ Fs.wdeny (disk s) ->
  clear_logs s =
    (Ok (Failure ("Backup/Export failed: " +:+ message Fs.eacces)),
     upd_console ERROR ("Error clearing SQL database: "
                        +:+ ("Backup/Export failed: " +:+ message Fs.eacces))
       (upd_lastLogId (VNum 0) (upd_db (emptied d) s))).
Proof.
  intros Hdb Hrows Hdir Hw. unfold clear_logs.
  unfold mbind, M_bind, bind, mret, M_ret, ret, try_catch. simpl. rewrite Hdb.
  erewrite db_run_ok; [| exact Hdb | eapply execute_delete; exact Hrows].
  simpl.
  erewrite performBackup_denied; [| reflexivity | exact Hdir | exact Hw].
  reflexivity.
Qed.

(** **** The flush and the archive *)

(** The three ways [performBackup] ends once the database is there: the
    image is written and the write is logged; the directory is missing
    and nothing happens; the write is refused and an error is thrown. *)
Lemma performBackup_cases s d p :
  db s = Some d ->
  (∃ files, Fs.tree (disk s) !! p.1 = Some files ∧ (p ∉ Fs.wdeny (disk s)) ∧
     performBackup p s =
       (Ok tt, upd_console LOG (saved_line p).2
                 (upd_disk (Fs.store p (export d) files (disk s)) s))) ∨
  (Fs.tree (disk s) !! p.1 = None ∧ performBackup p s = (Ok tt, s)) ∨
  (is_Some (Fs.tree (disk s) !! p.1) ∧ p ∈ Fs.wdeny (disk s) ∧
   performBackup p s = (Throw export_failed, s)).
Proof.
  intros Hdb.
  destruct (writeFileSync_cases p (export d) (disk s))
    as [(files & Hdir & Hw & Hwr)|[(Hdir & Hwr)|(Hdir & Hw & Hwr)]].
  - left. exists files. split; [exact Hdir|]. split; [exact Hw|].
    apply (performBackup_written s d); assumption.
  - right; left. split; [exact Hdir|]. eapply performBackup_enoent; eassumption.
  - right; right. split; [exact Hdir|]. split; [exact Hw|].
    eapply performBackup_denied; eassumption.
Qed.

Lemma backupDir_ne : backupDir ≠ userData.
Proof.
  unfold backupDir. intros Heq.
  apply (f_equal (@length string)) in Heq.
  rewrite length_app in Heq. simpl in Heq. lia.
Qed.

Lemma archive_path_ne name : (backupDir, name) ≠ dbPath.
Proof. unfold dbPath. intros Heq. inversion Heq as [Hd]. exact (backupDir_ne Hd). Qed.

Lemma healthy_store p data files fs :
  Fs.tree fs !! p.1 = Some files -> healthy fs ->
  healthy (Fs.store p data files fs).
Proof.
  intros Hdir (Hu & Hb & Hr & Hw).
  split; [apply store_dir; assumption|].
  split; [apply store_dir; assumption|]. split; assumption.
Qed.

Lemma healthy_write fs data :
  healthy fs ->
  ∃ files, Fs.tree fs !! userData = Some files ∧
           Fs.writeFileSync dbPath data fs = Ok (Fs.store dbPath data files fs).
Proof.
  intros ([files Hu] & _ & _ & Hw). exists files. split; [exact Hu|].
  apply writeFileSync_ok; assumption.
Qed.

Lemma healthy_read fs data :
  healthy fs -> Fs.lookup_file dbPath fs = Some data ->
  Fs.readFileSync dbPath fs = Ok data.
Proof.
  intros (_ & _ & Hr & _) Hfile. unfold Fs.readFileSync. rewrite Hfile.
  case_decide; [contradiction | reflexivity].
Qed.

(** On a healthy disk a tick of the backup timer writes the persistent
    file, whatever becomes of the archive. *)
Lemma autoHourlyBackup_healthy s d now :
  db s = Some d -> healthy (disk s) ->
  ∃ s', autoHourlyBackup now s = (Ok tt, s') ∧
        db s' = Some d ∧ lastLogId s' = lastLogId s ∧
        healthy (disk s') ∧
        Fs.lookup_file dbPath (disk s') = Some (export d) ∧
        intervals s' = intervals s.
Proof.
  intros Hdb Hh.
  destruct (healthy_write (disk s) (export d) Hh) as (files & Hu & Hwr).
  unfold autoHourlyBackup.
  unfold mbind, M_bind, bind, mret, M_ret, ret, try_catch. simpl. rewrite Hdb.
  rewrite (performBackup_written s d dbPath _ Hdb Hwr).
  set (s1 := upd_console LOG _ (upd_disk _ s)).
  assert (Hh1 : healthy (disk s1)) by (apply healthy_store; assumption).
  assert (Hf1 : Fs.lookup_file dbPath (disk s1) = Some (export d))
    by apply lookup_file_store.
  destruct (performBackup_cases s1 d (backupDir, backupFileName now) Hdb)
    as [(files' & Hdir & Hw & Hrun)|[(Hdir & Hrun)|(Hdir & Hw & Hrun)]];
    rewrite Hrun; simpl.
  - destruct (0 <? windows s)%nat; eexists; (split; [reflexivity|]); simpl;
      (split; [exact Hdb|]); (split; [reflexivity|]);
      (split; [apply healthy_store; assumption|]);
      (split; [|reflexivity]);
      (rewrite lookup_file_store_ne;
       [exact Hf1 | exact Hdir | intros Heq; symmetry in Heq;
                                 exact (archive_path_ne _ Heq)]).
  - destruct (0 <? windows s)%nat; eexists; (split; [reflexivity|]); simpl;
      (split; [exact Hdb|]); (split; [reflexivity|]);
      (split; [exact Hh1|]); (split; [exact Hf1 | reflexivity]).
  - eexists; (split; [reflexivity|]); simpl;
      (split; [exact Hdb|]); (split; [reflexivity|]);
      (split; [exact Hh1|]); (split; [exact Hf1 | reflexivity]).
Qed.

Lemma before_quit_healthy s d :
  db s = Some d -> healthy (disk s) ->
  ∃ s', before_quit s = (Ok tt, s') ∧
        db s' = Some d ∧ lastLogId s' = lastLogId s ∧
        healthy (disk s') ∧
        Fs.lookup_file dbPath (disk s') = Some (export d).
Proof.
  intros Hdb Hh.
  destruct (healthy_write (disk s) (export d) Hh) as (files & Hu & Hwr).
  unfold before_quit.
  unfold mbind, M_bind, bind, mret, M_ret, ret, try_catch. simpl. rewrite Hdb.
  rewrite (performBackup_written s d dbPath _ Hdb Hwr). simpl.
  eexists; split; [reflexivity|]. simpl.
  split; [exact Hdb|]. split; [reflexivity|].
  split; [apply healthy_store; assumption | apply lookup_file_store].
Qed.

(** **** Starting *)

Lemma whenReady_spec s :
  dirs_ready (disk s) -> is_database (loaded (disk s)) ->
  ∃ s', whenReady s = (Ok tt, s') ∧
        db s' = Some (ensure_table (loaded (disk s))) ∧
        lastLogId s' = counter (ensure_table (loaded (disk s))) ∧
        same_files (disk s) (disk s') ∧
        is_Some (Fs.tree (disk s') !! backupDir) ∧
        windows s' = S (windows s) ∧
        intervals s' = intervals s ++ [HOURLY_BACKUP_INTERVAL_MS] ∧
        quitting s' = quitting s.
Proof.
  intros Hready Hisdb.
  destruct (initializeDatabase_spec s Hready Hisdb)
    as (s1 & Hrun & Hdb & Hid & Hfiles & Hdir & Hw & Hs & Hi & Hq & _).
  unfold whenReady.
  unfold mbind, M_bind, bind, mret, M_ret, ret, try_catch. rewrite Hrun. simpl.
  eexists; split; [reflexivity|]. simpl.
  rewrite Hw, Hi. repeat (split; [assumption || reflexivity|]). assumption.
Qed.


Lemma is_database_table d rows : Sql.network_log d = Sql.Table rows -> is_database d.
Proof. unfold is_database. intros ->. discriminate. Qed.

Lemma is_database_empty : is_database Sql.empty.
Proof. unfold is_database. discriminate. Qed.

Lemma healthy_dirs_ready fs : healthy fs -> dirs_ready fs.
Proof. intros (_ & Hb & _). left. apply existsSync_true. exact Hb. Qed.

Lemma healthy_same_files fs fs' : healthy fs -> same_files fs fs' -> healthy fs'.
Proof.
  intros (Hu & Hb & Hr & Hw) (_ & Hr' & Hw' & Hdirs).
  split; [apply Hdirs; exact Hu|]. split; [apply Hdirs; exact Hb|].
  rewrite Hr', Hw'. split; assumption.
Qed.

Lemma loaded_export fs d :
  healthy fs -> Fs.lookup_file dbPath fs = Some (export d) -> loaded fs = d.
Proof.
  intros Hh Hfile. unfold loaded.
  rewrite (healthy_read fs _ Hh Hfile), open_export. reflexivity.
Qed.

Lemma ensure_table_id d rows : Sql.network_log d = Sql.Table rows -> ensure_table d = d.
Proof. intros Hrows. unfold ensure_table. rewrite Hrows. reflexivity. Qed.

(** Quitting and starting again on a healthy disk brings back the same
    database. *)
Lemma restart_healthy s d rows :
  db s = Some d -> Sql.network_log d = Sql.Table rows -> healthy (disk s) ->
  db (step Restart s) = Some d ∧ lastLogId (step Restart s) = counter d ∧
  healthy (disk (step Restart s)).
Proof.
  intros Hdb Hrows Hh. unfold step.
  destruct (before_quit_healthy s d Hdb Hh) as (s1 & Hq & _ & _ & Hh1 & Hfile).
  rewrite Hq. simpl.
  assert (Hl : loaded (disk s1) = d) by (apply loaded_export; assumption).
  assert (Hisdb : is_database (loaded (disk (boot (disk s1)))))
    by (simpl; rewrite Hl; eapply is_database_table; exact Hrows).
  destruct (whenReady_spec (boot (disk s1)) (healthy_dirs_ready _ Hh1) Hisdb)
    as (s2 & Hrun & Hdb2 & Hid2 & Hfiles & _).
  rewrite Hrun. simpl in *.
  rewrite Hl, (ensure_table_id d rows Hrows) in Hdb2, Hid2.
  split; [exact Hdb2|]. split; [exact Hid2|].
  eapply healthy_same_files; eassumption.
Qed.

(** **** Runs *)

Lemma store_ok_entries s :
  store_ok s -> Forall (fun r => Sql.id r <= seq_of s) (entries s).
Proof.
  intros (d & rows & Hdb & Hrows & Hall & _).
  unfold entries, seq_of. rewrite Hdb, Hrows. exact Hall.
Qed.

(** A successful insert gives the new row an id above the sequence and
    records that id as the new sequence. *)
Lemma assigned_id_above e s i :
  store_ok s -> assigned_id e s = Some i ->
  seq_of s < i ∧ seq_of (step (Insert e) s) = i.
Proof.
  intros (d & rows & Hdb & Hrows & Hall & Hpos). unfold assigned_id, step.
  destruct (Sql.new_rowid rows (Sql.sqlite_sequence d)) as [j|] eqn:Hnew.
  - rewrite (insert_log_ok s d rows e j Hdb Hrows Hnew).
    unfold entries, seq_of. simpl. rewrite Hdb, last_snoc. simpl.
    intros Hi. inversion Hi; subst.
    split; [apply (new_rowid_above _ _ _ Hnew) | reflexivity].
  - rewrite (insert_log_full s d rows e Hdb Hrows Hnew). discriminate.
Qed.

Lemma step_store_ok o s :
  store_ok s -> healthy (disk s) ->
  store_ok (step o s) ∧ healthy (disk (step o s)) ∧ seq_of s <= seq_of (step o s).
Proof.
  intros Hok Hh. pose proof Hok as (d & rows & Hdb & Hrows & Hall & Hpos).
  destruct o as [e| |now|].
  - unfold step.
    destruct (Sql.new_rowid rows (Sql.sqlite_sequence d)) as [j|] eqn:Hnew.
    + rewrite (insert_log_ok s d rows e j Hdb Hrows Hnew).
      destruct (new_rowid_above _ _ _ Hnew) as [Hlt Hbelow].
      unfold seq_of. simpl. rewrite Hdb.
      split; [|split; [exact Hh | lia]].
      eexists _, _. split; [reflexivity|]. split; [reflexivity|]. simpl.
      split; [|lia]. apply Forall_app. split.
      * eapply Forall_impl; [exact Hbelow|]. simpl. intros; lia.
      * constructor; [simpl; lia | constructor].
    + rewrite (insert_log_full s d rows e Hdb Hrows Hnew).
      unfold seq_of. simpl. split; [|split; [exact Hh | lia]].
      exists d, rows. auto.
  - unfold step.
    destruct Hh as ([files Hu] & Hrest).
    rewrite (clear_logs_written s d rows files Hdb Hrows Hu)
      by (apply Hrest).
    unfold seq_of. simpl. rewrite Hdb.
    split; [|split; [|simpl; lia]].
    + eexists _, _. split; [reflexivity|]. split; [reflexivity|].
      split; [constructor | exact Hpos].
    + apply healthy_store; [exact Hu|]. split; [eauto | exact Hrest].
  - unfold step, interval_fires.
    destruct (intervals s); [split; [exact Hok | split; [exact Hh | lia]]|].
    destruct (autoHourlyBackup_healthy s d now Hdb Hh)
      as (s' & Hrun & Hdb' & _ & Hh' & _).
    rewrite Hrun. simpl. unfold seq_of. rewrite Hdb, Hdb'.
    split; [|split; [exact Hh' | lia]].
    exists d, rows. auto.
  - destruct (restart_healthy s d rows Hdb Hrows Hh) as (Hdb' & _ & Hh').
    unfold seq_of. rewrite Hdb, Hdb'.
    split; [|split; [exact Hh' | lia]].
    exists d, rows. auto.
Qed.

Lemma assigned_sorted ops s :
  store_ok s -> healthy (disk s) ->
  StronglySorted Z.lt (assigned ops s) ∧
  Forall (fun i => seq_of s < i) (assigned ops s).
Proof.
  revert s. induction ops as [|o ops IH]; intros s Hok Hh; simpl.
  - split; constructor.
  - destruct (step_store_ok o s Hok Hh) as (Hok' & Hh' & Hle).
    destruct (IH (step o s) Hok' Hh') as [Hsorted Habove].
    assert (Htail : Forall (fun i => seq_of s < i) (assigned ops (step o s))).
    { eapply Forall_impl; [exact Habove|]. simpl. intros; lia. }
    destruct o as [e| |now|]; simpl; try (split; assumption).
    destruct (assigned_id e s) as [i|] eqn:Hi; simpl; [|split; assumption].
    destruct (assigned_id_above e s i Hok Hi) as [Hlt Hseq].
    split.
    + constructor; [exact Hsorted|]. rewrite <- Hseq. exact Habove.
    + constructor; assumption.
Qed.

(** C4: the ids that insert-log gives out along a run of inserts, clears,
    backup ticks and restarts (quit with its final flush, then start from
    the persistent file) on a healthy disk are strictly increasing, and
    each is above the recorded sequence and above every id present in the
    store the run starts from. *)
Theorem assigned_ids_strictly_increasing (ops : list Op) (s : State) :
  store_ok s -> healthy (disk s) ->
  StronglySorted Z.lt (assigned ops s) ∧
  Forall (fun i => seq_of s < i ∧ Forall (fun r => Sql.id r < i) (entries s))
         (assigned ops s).
Proof.
  intros Hok Hh. destruct (assigned_sorted ops s Hok Hh) as [Hsorted Habove].
  split; [exact Hsorted|].
  eapply Forall_impl; [exact Habove|]. simpl. intros i Hi. split; [exact Hi|].
  eapply Forall_impl; [apply store_ok_entries; exact Hok|]. simpl. intros; lia.
Qed.

(** C9: insert-log never touches the disk: after one insert, and after any
    number of them, the disk, and with it the persistent file, is what it
    was, whether the insert succeeds or fails. *)
Theorem insert_log_leaves_disk (s : State) (e : LogEntry) (es : list LogEntry) :
  disk (insert_log e s).2 = disk s ∧
  Fs.lookup_file dbPath (disk (insert_log e s).2) = Fs.lookup_file dbPath (disk s) ∧
  disk (run (map Insert es) s) = disk s.
Proof.
  assert (Hone : ∀ s' e', disk (insert_log e' s').2 = disk s').
  { intros s' e'.
    destruct (insert_log_cases s' e')
      as [(_ & Hrun)|[(d & rows & i & _ & _ & _ & Hrun)|(d & err & _ & _ & Hrun)]];
      rewrite Hrun; reflexivity. }
  split; [apply Hone|]. split; [rewrite Hone; reflexivity|].
  revert s. induction es as [|e' es IH]; intros s; simpl; [reflexivity|].
  unfold run in IH. rewrite IH. apply Hone.
Qed.

Lemma to_number_exact z : Z.abs z <= 2 ^ 53 -> Sql.to_number z = z.
Proof.
  intros Hz. unfold Sql.to_number.
  destruct (Z.abs z <=? 2 ^ 53) eqn:E; [reflexivity|].
  apply Z.leb_gt in E. lia.
Qed.

(** C3, as the program has it: in a store whose sequence has not reached
    the largest rowid, insert-log succeeds, appends a row whose id is the
    recorded sequence plus one and sets [lastLogId] to the number read back
    for that id, which is the id itself up to 2^53; the id is
    [lastLogId + 1] when [lastLogId] holds the sequence; the reply is
    [{ success: true }] and carries no id. *)
Theorem insert_log_assigns_next_in_sequence (s : State) (d : Sql.Database)
    (rows : list Sql.Row) (e : LogEntry) :
  db s = Some d -> Sql.network_log d = Sql.Table rows ->
  Forall (fun r => Sql.id r <= Sql.sqlite_sequence d) rows ->
  0 <= Sql.sqlite_sequence d -> Sql.sqlite_sequence d < Sql.MAX_ROWID ->
  let i := Sql.sqlite_sequence d + 1 in
  let s' := (insert_log e s).2 in
  (insert_log e s).1 = Ok Success ∧
  entries s' = rows ++ [Sql.mkRow i (entry_timestamp e) (entry_status e)] ∧
  seq_of s' = i ∧
  lastLogId s' = VNum (Sql.to_number i) ∧
  (i <= 2 ^ 53 -> lastLogId s' = VNum i) ∧
  (lastLogId s = VNum (Sql.sqlite_sequence d) -> ∃ n, lastLogId s = VNum n ∧ i = n + 1).
Proof.
  intros Hdb Hrows Hall Hpos Hmax i s'. subst s'.
  rewrite (insert_log_ok s d rows e i Hdb Hrows
             (new_rowid_next rows _ Hall Hpos Hmax)).
  unfold entries, seq_of. simpl.
  repeat (split; [reflexivity|]).
  split.
  - intros Hi. rewrite to_number_exact by (subst i; lia). reflexivity.
  - intros Hlast. exists (Sql.sqlite_sequence d). split; [exact Hlast | reflexivity].
Qed.

(** **** Loading *)

(** When step 2 finds no image to open, the process starts on the empty
    store and prints no error. *)
Lemma initializeDatabase_fallback fs :
  dirs_ready fs -> loaded fs = Sql.empty ->
  ∃ s', initializeDatabase (boot fs) = (Ok tt, s') ∧
        db s' = Some fresh_db ∧ entries s' = [] ∧ lastLogId s' = VNum 0 ∧
        only_logs (console s') ∧ same_files fs (disk s').
Proof.
  intros Hready Hloaded.
  assert (Hisdb : is_database (loaded (disk (boot fs))))
    by (simpl; rewrite Hloaded; apply is_database_empty).
  destruct (initializeDatabase_spec (boot fs) Hready Hisdb)
    as (s' & Hrun & Hdb & Hid & Hfiles & _ & _ & _ & _ & _ & lines & Hc & Hl).
  simpl in *. rewrite Hloaded in Hdb, Hid.
  exists s'. split; [exact Hrun|]. split; [exact Hdb|].
  split; [unfold entries; rewrite Hdb; reflexivity|].
  split; [exact Hid|]. split; [rewrite Hc; exact Hl | exact Hfiles].
Qed.

Lemma loaded_absent fs : Fs.lookup_file dbPath fs = None -> loaded fs = Sql.empty.
Proof. intros Hf. unfold loaded, Fs.readFileSync. rewrite Hf. reflexivity. Qed.

Lemma loaded_unreadable fs : dbPath ∈ Fs.rdeny fs -> loaded fs = Sql.empty.
Proof.
  intros Hr. unfold loaded, Fs.readFileSync.
  destruct (Fs.lookup_file dbPath fs); [|reflexivity].
  case_decide; [reflexivity | contradiction].
Qed.

Lemma loaded_malformed fs b :
  Fs.lookup_file dbPath fs = Some b -> open_image b = None -> loaded fs = Sql.empty.
Proof.
  intros Hf Hopen. unfold loaded, Fs.readFileSync. rewrite Hf.
  case_decide; [reflexivity|]. rewrite Hopen. reflexivity.
Qed.

(** C5, as the program has it: when the persistent file does not exist at
    startup, and just as well when it exists but cannot be read or the
    constructor throws on its bytes, [initializeDatabase] completes on the
    empty store (no entry, [lastLogId] 0) and prints no error: the catch
    clause of the load does not tell these cases apart. *)
Theorem start_empty_without_image (fs : Fs.FS) :
  dirs_ready fs ->
  Fs.lookup_file dbPath fs = None ∨ dbPath ∈ Fs.rdeny fs ∨
  (∃ b, Fs.lookup_file dbPath fs = Some b ∧ open_image b = None) ->
  ∃ s', initializeDatabase (boot fs) = (Ok tt, s') ∧
        db s' = Some fresh_db ∧ entries s' = [] ∧ lastLogId s' = VNum 0 ∧
        only_logs (console s').
Proof.
  intros Hready Hcase.
  assert (Hloaded : loaded fs = Sql.empty).
  { destruct Hcase as [Habs|[Hden|(b & Hf & Hopen)]].
    - apply loaded_absent; assumption.
    - apply loaded_unreadable; assumption.
    - eapply loaded_malformed; eassumption. }
  destruct (initializeDatabase_fallback fs Hready Hloaded)
    as (s' & Hrun & Hdb & Hent & Hid & Hlog & _).
  exists s'. auto.
Qed.

Lemma loaded_opened fs b d :
  Fs.lookup_file dbPath fs = Some b -> dbPath ∉ Fs.rdeny fs ->
  open_image b = Some d -> loaded fs = d.
Proof.
  intros Hf Hr Hopen. unfold loaded, Fs.readFileSync. rewrite Hf.
  case_decide; [contradiction|]. rewrite Hopen. reflexivity.
Qed.


(** **** Clearing *)

Lemma entries_ensure_empty s D :
  db s = Some (ensure_table D) ->
  lastLogId s = counter (ensure_table D) ->
  Sql.network_log D = Sql.NoTable ∨ Sql.network_log D = Sql.Table [] ->
  entries s = [] ∧ lastLogId s = VNum 0.
Proof.
  intros Hdb Hid Hcase. unfold entries. rewrite Hdb, Hid.
  unfold ensure_table, counter.
  destruct Hcase as [Hn | Hn]; rewrite Hn; simpl; try rewrite Hn; split; reflexivity.
Qed.

(** Starting on a file that gives no table or an empty table: the store
    of the new process is there and holds the table without an entry. *)
Lemma reload_empty_store fs D :
  dirs_ready fs -> loaded fs = D ->
  Sql.network_log D = Sql.NoTable ∨ Sql.network_log D = Sql.Table [] ->
  ∃ s2, initializeDatabase (boot fs) = (Ok tt, s2) ∧
        db s2 = Some (ensure_table D) ∧
        Sql.network_log (ensure_table D) = Sql.Table [] ∧
        entries s2 = [] ∧ lastLogId s2 = VNum 0.
Proof.
  intros Hready Hl Hcase.
  assert (Hisdb : is_database (loaded (disk (boot fs)))).
  { simpl. rewrite Hl. unfold is_database.
    destruct Hcase as [-> | ->]; discriminate. }
  destruct (initializeDatabase_spec (boot fs) Hready Hisdb)
    as (s2 & Hrun & Hdb2 & Hid2 & _).
  exists s2. split; [exact Hrun|]. simpl in Hdb2, Hid2.
  rewrite Hl in Hdb2, Hid2. split; [exact Hdb2|].
  split; [unfold ensure_table; destruct Hcase as [Hn | Hn]; rewrite Hn;
          [reflexivity | exact Hn]|].
  eapply entries_ensure_empty; eauto.
Qed.

(** C2: clear-logs empties the table and sets [lastLogId] to 0; where the
    persistent file can be written, it then holds the image of the emptied
    database and the reply is a success; and after any successful reply,
    [initializeDatabase] on the disk as clear-logs left it completes with a
    store that is there and is empty: its database holds the log table
    without an entry, and [lastLogId] is 0.  Where the persistent file can
    also be read, that database is the emptied database itself, the
    recorded sequence included. *)
Theorem clear_logs_empties_and_flushes (s : State) (d : Sql.Database)
    (rows : list Sql.Row) :
  db s = Some d -> Sql.network_log d = Sql.Table rows ->
  dirs_ready (disk s) ->
  let r := (clear_logs s).1 in
  let s' := (clear_logs s).2 in
  entries s' = [] ∧ lastLogId s' = VNum 0 ∧
  (is_Some (Fs.tree (disk s) !! userData) -> dbPath ∉ Fs.wdeny (disk s) ->
   r = Ok Success ∧
   Fs.lookup_file dbPath (disk s') = Some (export (emptied d))) ∧
  (r = Ok Success ->
   ∃ s2 d2, initializeDatabase (boot (disk s')) = (Ok tt, s2) ∧
            db s2 = Some d2 ∧ Sql.network_log d2 = Sql.Table [] ∧
            entries s2 = [] ∧ lastLogId s2 = VNum 0 ∧
            (is_Some (Fs.tree (disk s) !! userData) ->
             dbPath ∉ Fs.rdeny (disk s) -> d2 = emptied d)).
Proof.
  intros Hdb Hrows Hready0 r s'. subst r s'.
  destruct (Fs.tree (disk s) !! userData) as [files|] eqn:Hu.
  - destruct (decide (dbPath ∈ Fs.wdeny (disk s))) as [Hw|Hw].
    + rewrite (clear_logs_denied s d rows Hdb Hrows) by eauto. simpl.
      unfold entries. simpl.
      split; [reflexivity|]. split; [reflexivity|].
      split; [intros _ Hn; contradiction | discriminate].
    + rewrite (clear_logs_written s d rows files Hdb Hrows Hu Hw). simpl.
      unfold entries at 1. simpl.
      split; [reflexivity|]. split; [reflexivity|].
      split; [intros _ _; split; [reflexivity | apply lookup_file_store]|].
      intros _.
      set (fs1 := Fs.store dbPath (export (emptied d)) files (disk s)).
      assert (Hready : dirs_ready fs1)
        by (apply dirs_ready_store; assumption).
      destruct (decide (dbPath ∈ Fs.rdeny fs1)) as [Hr|Hr].
      * destruct (reload_empty_store fs1 Sql.empty Hready
                    (loaded_unreadable fs1 Hr) (or_introl eq_refl))
          as (s2 & Hrun & Hdb2 & Htable & Hentries & Hid).
        exists s2, (ensure_table Sql.empty).
        repeat (split; [assumption|]).
        intros _ Hnr. exfalso. apply Hnr. exact Hr.
      * assert (Hl : loaded fs1 = emptied d).
        { unfold loaded, Fs.readFileSync. unfold fs1 at 1.
          rewrite lookup_file_store.
          case_decide; [contradiction|]. rewrite open_export. reflexivity. }
        destruct (reload_empty_store fs1 (emptied d) Hready Hl
                    (or_intror eq_refl))
          as (s2 & Hrun & Hdb2 & Htable & Hentries & Hid).
        exists s2, (ensure_table (emptied d)).
        repeat (split; [assumption|]).
        intros _ _. reflexivity.
  - rewrite (clear_logs_enoent s d rows Hdb Hrows Hu). simpl.
    unfold entries at 1. simpl.
    split; [reflexivity|]. split; [reflexivity|].
    split; [intros [x Hx]; discriminate|].
    intros _.
    assert (Hl : loaded (disk s) = Sql.empty).
    { apply loaded_absent. unfold Fs.lookup_file. simpl. rewrite Hu. reflexivity. }
    destruct (reload_empty_store (disk s) Sql.empty Hready0 Hl (or_introl eq_refl))
      as (s2 & Hrun & Hdb2 & Htable & Hentries & Hid).
    exists s2, (ensure_table Sql.empty).
    repeat (split; [assumption|]).
    intros [x Hx]. discriminate.
Qed.

(** **** The round trip *)

Lemma insert_log_tracked s e : tracked s -> tracked (insert_log e s).2.
Proof.
  intros (d & rows & Hdb & Hrows & Hid).
  destruct (Sql.new_rowid rows (Sql.sqlite_sequence d)) as [i|] eqn:Hnew.
  - rewrite (insert_log_ok s d rows e i Hdb Hrows Hnew). simpl.
    eexists _, _. split; [reflexivity|]. split; [reflexivity|]. simpl.
    unfold counter. simpl.
    erewrite max_id_snoc; [reflexivity | reflexivity|].
    eapply Forall_impl; [apply (new_rowid_above _ _ _ Hnew)|].
    simpl. intros; lia.
  - rewrite (insert_log_full s d rows e Hdb Hrows Hnew). simpl.
    exists d, rows. auto.
Qed.

Lemma inserts_tracked es s : tracked s -> tracked (run (map Insert es) s).
Proof.
  revert s. induction es as [|e es IH]; intros s Ht; [exact Ht|].
  simpl. apply IH. apply insert_log_tracked. exact Ht.
Qed.

Lemma inserts_healthy es s : healthy (disk s) -> healthy (disk (run (map Insert es) s)).
Proof.
  revert s. induction es as [|e es IH]; intros s Hh; [exact Hh|].
  simpl. apply IH. unfold step.
  destruct (insert_log_cases s e)
    as [(_ & Hrun)|[(d & rows & i & _ & _ & _ & Hrun)|(d & err & _ & _ & Hrun)]];
    rewrite Hrun; exact Hh.
Qed.

(** The id an insert gives depends on the database alone. *)
Lemma assigned_id_db e s s' : db s = db s' -> assigned_id e s = assigned_id e s'.
Proof.
  intros Heq. unfold assigned_id.
  destruct (insert_log_cases s e)
    as [(Hdb & Hrun)|[(d & rows & i & Hdb & Hrows & Hnew & Hrun)
                     |(d & err & Hdb & Hex & Hrun)]];
    rewrite Hrun; rewrite Heq in Hdb.
  - rewrite (insert_log_not_ready s' e Hdb). reflexivity.
  - rewrite (insert_log_ok s' d rows e i Hdb Hrows Hnew). reflexivity.
  - rewrite (insert_log_throws s' d e err Hdb Hex). reflexivity.
Qed.

(** C1: from a running store on a healthy disk, after any sequence of
    inserts, writing the image with [performBackup] and loading it again
    as [initializeDatabase] does gives the same database, hence the same
    entries, the same [lastLogId], and the same id for the next insert. *)
Theorem backup_then_load_round_trip (s0 : State) (es : list LogEntry) :
  tracked s0 -> healthy (disk s0) ->
  let s := run (map Insert es) s0 in
  ∃ s1 s2,
    performBackup dbPath s = (Ok tt, s1) ∧
    initializeDatabase (boot (disk s1)) = (Ok tt, s2) ∧
    db s2 = db s ∧ entries s2 = entries s ∧ lastLogId s2 = lastLogId s ∧
    ∀ e, assigned_id e s2 = assigned_id e s.
Proof.
  intros Ht0 Hh0 s.
  destruct (inserts_tracked es s0 Ht0) as (d & rows & Hdb & Hrows & Hid).
  pose proof (inserts_healthy es s0 Hh0) as Hh. fold s in Hdb, Hid, Hh.
  destruct (healthy_write (disk s) (export d) Hh) as (files & Hu & Hwr).
  eexists. rewrite (performBackup_written s d dbPath _ Hdb Hwr).
  set (fs1 := Fs.store dbPath (export d) files (disk s)).
  assert (Hh1 : healthy fs1) by (apply healthy_store; assumption).
  assert (Hl : loaded fs1 = d)
    by (apply loaded_export; [exact Hh1 | apply lookup_file_store]).
  assert (Hisdb : is_database (loaded (disk (boot fs1))))
    by (simpl; rewrite Hl; eapply is_database_table; exact Hrows).
  destruct (initializeDatabase_spec (boot fs1) (healthy_dirs_ready _ Hh1) Hisdb)
    as (s2 & Hrun & Hdb2 & Hid2 & _).
  simpl in Hdb2, Hid2.
  rewrite Hl, (ensure_table_id d rows Hrows) in Hdb2, Hid2.
  exists s2. split; [reflexivity|]. split; [exact Hrun|].
  split; [congruence|]. split; [unfold entries; rewrite Hdb, Hdb2; reflexivity|].
  split; [congruence|]. intros e. apply assigned_id_db. congruence.
Qed.

(** **** Archive names *)

Lemma digit_inj a b : (a < 10)%N -> (b < 10)%N -> digit a = digit b -> a = b.
Proof.
  intros Ha Hb Heq. unfold digit in Heq.
  apply (f_equal N_of_ascii) in Heq.
  rewrite !N_ascii_embedding in Heq by lia. lia.
Qed.

Lemma digit_kept a : (a < 10)%N -> colon_or_dot (digit a) = false.
Proof.
  intros Ha.
  assert (Hcases : (a = 0 ∨ a = 1 ∨ a = 2 ∨ a = 3 ∨ a = 4 ∨ a = 5 ∨ a = 6
                    ∨ a = 7 ∨ a = 8 ∨ a = 9)%N) by lia.
  repeat (destruct Hcases as [->|Hcases]; [reflexivity|]). subst. reflexivity.
Qed.

Lemma fixed_length k n : length (fixed k n) = k.
Proof. revert n. induction k as [|k IH]; intros n; simpl; [|rewrite IH]; reflexivity. Qed.

Lemma pow10_pos k : (0 < 10 ^ N.of_nat k)%N.
Proof. apply N.neq_0_lt_0. apply N.pow_nonzero. discriminate. Qed.

Lemma leading_digit k n : (n < 10 ^ N.of_nat (S k))%N -> (n / 10 ^ N.of_nat k < 10)%N.
Proof.
  intros Hn. apply N.Div0.div_lt_upper_bound.
  rewrite Nat2N.inj_succ, N.pow_succ_r' in Hn. lia.
Qed.

Lemma fixed_inj k n m :
  (n < 10 ^ N.of_nat k)%N -> (m < 10 ^ N.of_nat k)%N ->
  fixed k n = fixed k m -> n = m.
Proof.
  revert n m. induction k as [|k IH]; intros n m Hn Hm Heq.
  - simpl in Hn, Hm. lia.
  - simpl in Heq. injection Heq as Hhead Htail.
    apply digit_inj in Hhead; try (apply leading_digit; assumption).
    apply IH in Htail; try (apply N.mod_lt; pose proof (pow10_pos k); lia).
    rewrite (N.div_mod n (10 ^ N.of_nat k)), (N.div_mod m (10 ^ N.of_nat k))
      by (pose proof (pow10_pos k); lia).
    rewrite Hhead, Htail. reflexivity.
Qed.

Lemma fixed_dash k n : (n < 10 ^ N.of_nat k)%N -> map dash (fixed k n) = fixed k n.
Proof.
  revert n. induction k as [|k IH]; intros n Hn; [reflexivity|].
  simpl. rewrite IH by (apply N.mod_lt; pose proof (pow10_pos k); lia).
  unfold dash at 1. rewrite digit_kept by (apply leading_digit; assumption).
  reflexivity.
Qed.

Lemma replace_colon_dot_chars l :
  replace_colon_dot (string_of_list_ascii l) = string_of_list_ascii (map dash l).
Proof. induction l as [|c l IH]; simpl; [|rewrite IH]; reflexivity. Qed.

Lemma string_of_chars_app l1 l2 :
  string_of_list_ascii (l1 ++ l2) = string_of_list_ascii l1 +:+ string_of_list_ascii l2.
Proof. induction l1 as [|c l1 IH]; simpl; [|rewrite IH]; reflexivity. Qed.

Lemma replace_toISOString d :
  valid_date d ->
  replace_colon_dot (toISOString d) = string_of_list_ascii (date_chars d).
Proof.
  intros (Hy & Hmo & Hd & Hh & Hmi & Hs & Hms).
  unfold toISOString, iso_chars, date_chars, year_chars.
  replace (year d <=? 9999)%N with true by (symmetry; apply N.leb_le; lia).
  rewrite replace_colon_dot_chars. f_equal.
  repeat (rewrite map_app; rewrite map_cons).
  rewrite !fixed_dash by assumption. reflexivity.
Qed.

Lemma cons_tail_eq {A} (x y : A) (l k : list A) : x :: l = y :: k -> l = k.
Proof. intros Heq. inversion Heq. reflexivity. Qed.

Lemma date_chars_inj d1 d2 :
  valid_date d1 -> valid_date d2 -> date_chars d1 = date_chars d2 -> d1 = d2.
Proof.
  intros (Hy1 & Hmo1 & Hd1 & Hh1 & Hmi1 & Hs1 & Hms1)
         (Hy2 & Hmo2 & Hd2 & Hh2 & Hmi2 & Hs2 & Hms2) Heq.
  unfold date_chars in Heq.
  repeat match type of Heq with
         | fixed ?k ?a ++ _ = fixed ?k ?b ++ _ =>
             apply app_inj_1 in Heq; [|rewrite !fixed_length; reflexivity];
             let Hf := fresh "Hf" in
             destruct Heq as [Hf Heq]; apply fixed_inj in Hf; try assumption
         | _ :: _ = _ :: _ => apply cons_tail_eq in Heq
         end.
  destruct d1, d2; simpl in *; congruence.
Qed.

(** Two valid dates that differ give archives of different names. *)
Lemma backupFileName_inj now1 now2 :
  valid_date now1 -> valid_date now2 ->
  backupFileName now1 = backupFileName now2 -> now1 = now2.
Proof.
  intros Hv1 Hv2 Heq. unfold backupFileName in Heq.
  apply String.app_inj in Heq.
  rewrite !replace_toISOString in Heq by assumption.
  rewrite <- (string_of_list_ascii_of_string ".db") in Heq.
  rewrite <- !string_of_chars_app in Heq.
  apply (f_equal list_ascii_of_string) in Heq.
  rewrite !list_ascii_of_string_of_list_ascii in Heq.
  apply app_inv_tail in Heq. apply date_chars_inj; assumption.
Qed.

(** **** The backup tick *)

(** A tick writes no file but the persistent file and the archive of its
    date. *)
Lemma autoHourlyBackup_other_files now s q :
  q ≠ dbPath -> q ≠ (backupDir, backupFileName now) ->
  Fs.lookup_file q (disk (autoHourlyBackup now s).2) = Fs.lookup_file q (disk s).
Proof.
  intros Hq1 Hq2. unfold autoHourlyBackup.
  unfold mbind, M_bind, bind, mret, M_ret, ret, try_catch. simpl.
  destruct (db s) as [d|] eqn:Hdb; [|reflexivity].
  destruct (performBackup_cases s d dbPath Hdb)
    as [(files & Hdir & Hw & Hrun)|[(Hdir & Hrun)|(Hdir & Hw & Hrun)]];
    rewrite Hrun; [| |reflexivity].
  - set (s1 := upd_console LOG _ (upd_disk _ s)).
    assert (Hs1 : Fs.lookup_file q (disk s1) = Fs.lookup_file q (disk s))
      by (apply lookup_file_store_ne; assumption).
    destruct (performBackup_cases s1 d (backupDir, backupFileName now) Hdb)
      as [(files' & Hdir' & Hw' & Hrun')|[(Hdir' & Hrun')|(Hdir' & Hw' & Hrun')]];
      rewrite Hrun'; simpl; try destruct (0 <? windows s)%nat; simpl;
      try exact Hs1.
    all: rewrite lookup_file_store_ne by assumption; exact Hs1.
  - destruct (performBackup_cases s d (backupDir, backupFileName now) Hdb)
      as [(files' & Hdir' & Hw' & Hrun')|[(Hdir' & Hrun')|(Hdir' & Hw' & Hrun')]];
      rewrite Hrun'; simpl; try destruct (0 <? windows s)%nat; simpl;
      try reflexivity.
    all: apply lookup_file_store_ne; assumption.
Qed.

(** Where both files can be written, the archive of a tick holds the
    image of the database, whatever was under its name before. *)
Lemma autoHourlyBackup_archives now s d :
  db s = Some d -> healthy (disk s) ->
  (backupDir, backupFileName now) ∉ Fs.wdeny (disk s) ->
  Fs.lookup_file (backupDir, backupFileName now) (disk (autoHourlyBackup now s).2)
  = Some (export d).
Proof.
  intros Hdb Hh Hw.
  destruct (healthy_write (disk s) (export d) Hh) as (files & Hu & Hwr).
  unfold autoHourlyBackup.
  unfold mbind, M_bind, bind, mret, M_ret, ret, try_catch. simpl. rewrite Hdb.
  rewrite (performBackup_written s d dbPath _ Hdb Hwr).
  set (s1 := upd_console LOG _ (upd_disk _ s)).
  assert (Hh1 : healthy (disk s1)) by (apply healthy_store; assumption).
  destruct Hh1 as (_ & [files' Hb] & _).
  erewrite (performBackup_written s1 d (backupDir, backupFileName now));
    [| exact Hdb | apply writeFileSync_ok; [exact Hb | exact Hw]].
  simpl. destruct (0 <? windows s)%nat; simpl; apply lookup_file_store.
Qed.

(** C6, as the program has it: the archive is named by the capture time
    to the millisecond and written without looking for an existing file.
    Two ticks at different valid times use different names, and the later
    one leaves the archive of the earlier one as it was; a tick whose
    archive can be written leaves the current image under its name,
    whatever was there before. *)
Theorem archives_of_different_times_are_kept (now1 now2 : Date) (s : State) :
  valid_date now1 -> valid_date now2 -> now1 ≠ now2 ->
  backupFileName now1 ≠ backupFileName now2 ∧
  Fs.lookup_file (backupDir, backupFileName now1) (disk (autoHourlyBackup now2 s).2)
  = Fs.lookup_file (backupDir, backupFileName now1) (disk s) ∧
  ∀ d, db s = Some d -> healthy (disk s) ->
       (backupDir, backupFileName now2) ∉ Fs.wdeny (disk s) ->
       Fs.lookup_file (backupDir, backupFileName now2)
         (disk (autoHourlyBackup now2 s).2) = Some (export d).
Proof.
  intros Hv1 Hv2 Hne.
  assert (Hnames : backupFileName now1 ≠ backupFileName now2).
  { intros Heq. apply Hne. apply backupFileName_inj; assumption. }
  split; [exact Hnames|]. split.
  - apply autoHourlyBackup_other_files; [apply archive_path_ne|].
    intros Heq. exact (Hnames (f_equal snd Heq)).
  - intros d Hdb Hh Hw. apply autoHourlyBackup_archives; assumption.
Qed.

(** The timer is never disarmed by its callback. *)
Lemma interval_fires_keeps_timer now s : intervals (interval_fires now s) = intervals s.
Proof.
  unfold interval_fires. destruct (intervals s) as [|i l] eqn:Hi; [exact Hi|].
  unfold autoHourlyBackup.
  unfold mbind, M_bind, bind, mret, M_ret, ret, try_catch. simpl.
  destruct (db s) as [d|] eqn:Hdb; [|exact Hi].
  destruct (performBackup_cases s d dbPath Hdb)
    as [(files & Hdir & Hw & Hrun)|[(Hdir & Hrun)|(Hdir & Hw & Hrun)]];
    rewrite Hrun; [| |exact Hi].
  - set (s1 := upd_console LOG _ (upd_disk _ s)).
    destruct (performBackup_cases s1 d (backupDir, backupFileName now) Hdb)
      as [(files' & Hdir' & Hw' & Hrun')|[(Hdir' & Hrun')|(Hdir' & Hw' & Hrun')]];
      rewrite Hrun'; simpl; try destruct (0 <? windows s)%nat; exact Hi.
  - destruct (performBackup_cases s d (backupDir, backupFileName now) Hdb)
      as [(files' & Hdir' & Hw' & Hrun')|[(Hdir' & Hrun')|(Hdir' & Hw' & Hrun')]];
      rewrite Hrun'; simpl; try destruct (0 <? windows s)%nat; exact Hi.
Qed.

(** A failure of the archive step is caught and printed by
    [console.error]; the tick completes and the persistent file is
    written. *)
Lemma archive_failure_is_logged now s d :
  db s = Some d -> healthy (disk s) ->
  (backupDir, backupFileName now) ∈ Fs.wdeny (disk s) ->
  ∃ s', autoHourlyBackup now s = (Ok tt, s') ∧
        last (console s') = Some (ERROR, "Auto Backup failed: " +:+ message export_failed) ∧
        Fs.lookup_file dbPath (disk s') = Some (export d).
Proof.
  intros Hdb Hh Hw.
  destruct (healthy_write (disk s) (export d) Hh) as (files & Hu & Hwr).
  unfold autoHourlyBackup.
  unfold mbind, M_bind, bind, mret, M_ret, ret, try_catch. simpl. rewrite Hdb.
  rewrite (performBackup_written s d dbPath _ Hdb Hwr).
  set (s1 := upd_console LOG _ (upd_disk _ s)).
  assert (Hh1 : healthy (disk s1)) by (apply healthy_store; assumption).
  destruct Hh1 as (_ & Hb & _).
  rewrite (performBackup_denied s1 d (backupDir, backupFileName now) Hdb Hb Hw).
  eexists. split; [reflexivity|]. simpl.
  split; [apply last_snoc | apply lookup_file_store].
Qed.

(** When the backup directory is missing, [performBackup] swallows the
    ENOENT of the archive step: no archive is made and the tick prints that
    one was. *)
Lemma archive_enoent_is_printed_as_success now s d :
  db s = Some d -> is_Some (Fs.tree (disk s) !! userData) ->
  dbPath ∉ Fs.wdeny (disk s) -> Fs.tree (disk s) !! backupDir = None ->
  ∃ s', autoHourlyBackup now s = (Ok tt, s') ∧
        Fs.lookup_file (backupDir, backupFileName now) (disk s') = None ∧
        In (LOG, "[Auto Backup] Archival backup created successfully: "
                 +:+ backupFileName now) (console s').
Proof.
  intros Hdb [files Hu] Hw Hb.
  unfold autoHourlyBackup.
  unfold mbind, M_bind, bind, mret, M_ret, ret, try_catch. simpl. rewrite Hdb.
  rewrite (performBackup_written s d dbPath _ Hdb
             (writeFileSync_ok dbPath (export d) (disk s) files Hu Hw)).
  set (s1 := upd_console LOG _ (upd_disk _ s)).
  assert (Hb1 : Fs.tree (disk s1) !! backupDir = None).
  { simpl. unfold Fs.store. simpl.
    rewrite lookup_insert_ne by (intros Heq; symmetry in Heq; exact (backupDir_ne Heq)).
    exact Hb. }
  rewrite (performBackup_enoent s1 d (backupDir, backupFileName now) Hdb Hb1).
  simpl.
  destruct (0 <? windows s)%nat; eexists; (split; [reflexivity|]); simpl;
    (split; [unfold Fs.lookup_file; simpl; unfold Fs.store in Hb1; simpl in Hb1;
             rewrite Hb1; reflexivity
            | apply in_or_app; right; left; reflexivity]).
Qed.

(** C7, at the input on which the program departs from it: when the write
    of the persistent file is refused during a tick, [autoHourlyBackup]
    throws out of its body: the state is as before the tick, so nothing
    is printed and no archive is made, and the promise the timer drops is
    a rejected one.  The listener of before-quit, on the same state,
    catches the same failure and prints it. *)
Theorem scheduled_flush_failure_is_not_logged (now : Date) (s : State)
    (d : Sql.Database) :
  db s = Some d ->
  is_Some (Fs.tree (disk s) !! userData) -> dbPath ∈ Fs.wdeny (disk s) ->
  autoHourlyBackup now s = (Throw export_failed, s) ∧
  console (interval_fires now s) = console s ∧
  disk (interval_fires now s) = disk s ∧
  before_quit s =
    (Ok tt, upd_console ERROR
              ("Final persistence save failed: " +:+ message export_failed) s).
Proof.
  intros Hdb Hdir Hw.
  assert (Hrun : autoHourlyBackup now s = (Throw export_failed, s)).
  { unfold autoHourlyBackup.
    unfold mbind, M_bind, bind, mret, M_ret, ret. simpl. rewrite Hdb.
    rewrite (performBackup_denied s d dbPath Hdb Hdir Hw). reflexivity. }
  split; [exact Hrun|].
  unfold interval_fires. rewrite Hrun.
  split; [destruct (intervals s); reflexivity|].
  split; [destruct (intervals s); reflexivity|].
  unfold before_quit.
  unfold mbind, M_bind, bind, mret, M_ret, ret, try_catch. simpl. rewrite Hdb.
  rewrite (performBackup_denied s d dbPath Hdb Hdir Hw). reflexivity.
Qed.

(** **** The scenario of two inserts *)

(** **** Queries *)

Lemma insert_by_perm le r rows : Sql.insert_by le r rows ≡ₚ r :: rows.
Proof.
  induction rows as [|r' rows IH]; simpl; [reflexivity|].
  destruct (le (Sql.id r) (Sql.id r')); [reflexivity|].
  rewrite IH. apply Permutation_swap.
Qed.

Lemma sort_by_perm le rows : Sql.sort_by le rows ≡ₚ rows.
Proof.
  induction rows as [|r rows IH]; simpl; [reflexivity|].
  rewrite insert_by_perm. rewrite IH. reflexivity.
Qed.

Lemma insert_by_sorted (le : Z -> Z -> bool) r rows :
  (∀ a b, le a b = false -> le b a = true) ->
  (∀ a b c, le a b = true -> le b c = true -> le a c = true) ->
  StronglySorted (fun a b => le (Sql.id a) (Sql.id b) = true) rows ->
  StronglySorted (fun a b => le (Sql.id a) (Sql.id b) = true) (Sql.insert_by le r rows).
Proof.
  intros Htotal Htrans Hs. induction Hs as [|r' rows Hs IH Hall]; simpl.
  - constructor; constructor.
  - destruct (le (Sql.id r) (Sql.id r')) eqn:Hle.
    + constructor; [constructor; assumption|].
      constructor; [exact Hle|].
      eapply Forall_impl; [exact Hall|]. simpl. intros x Hx. eapply Htrans; eassumption.
    + constructor; [exact IH|].
      rewrite insert_by_perm. constructor; [apply Htotal; exact Hle | exact Hall].
Qed.

Lemma sort_by_sorted (le : Z -> Z -> bool) rows :
  (∀ a b, le a b = false -> le b a = true) ->
  (∀ a b c, le a b = true -> le b c = true -> le a c = true) ->
  StronglySorted (fun a b => le (Sql.id a) (Sql.id b) = true) (Sql.sort_by le rows).
Proof.
  intros Htotal Htrans. induction rows as [|r rows IH]; simpl; [constructor|].
  apply insert_by_sorted; assumption.
Qed.

Lemma StronglySorted_weaken {A} (R R' : A -> A -> Prop) l :
  (∀ a b, R a b -> R' a b) -> StronglySorted R l -> StronglySorted R' l.
Proof.
  intros Himp Hs. induction Hs as [|x l Hs IH Hall]; constructor; [exact IH|].
  eapply Forall_impl; [exact Hall|]. simpl. auto.
Qed.

(** ORDER BY gives the rows of the table, each once, in the order asked
    for. *)
Lemma order_by_id_spec o rows :
  Sql.order_by_id o rows ≡ₚ rows ∧
  StronglySorted (fun a b => match o with
                             | Sql.ASC => Sql.id a <= Sql.id b
                             | Sql.DESC => Sql.id b <= Sql.id a
                             end) (Sql.order_by_id o rows).
Proof.
  split; [destruct o; apply sort_by_perm|].
  destruct o; simpl.
  - eapply StronglySorted_weaken; [|apply (sort_by_sorted Z.leb)].
    + simpl. intros a b Hab. apply Z.leb_le. exact Hab.
    + intros a b Hab. apply Z.leb_gt in Hab. apply Z.leb_le. lia.
    + intros a b c Hab Hbc. apply Z.leb_le in Hab, Hbc. apply Z.leb_le. lia.
  - eapply StronglySorted_weaken; [|apply (sort_by_sorted Z.geb)].
    + simpl. intros a b Hab. apply Z.geb_le in Hab. exact Hab.
    + intros a b Hab. rewrite Z.geb_leb in Hab. apply Z.leb_gt in Hab.
      rewrite Z.geb_leb. apply Z.leb_le. lia.
    + intros a b c Hab Hbc. rewrite Z.geb_leb in *.
      apply Z.leb_le in Hab, Hbc. apply Z.leb_le. lia.
Qed.

Lemma log_object_row r :
  log_object ["id"; "timestamp"; "status"] (Sql.row_values r) = row_object r.
Proof. reflexivity. Qed.

Lemma load_logs_reply s :
  (load_logs s).1 = Ok (map row_object (Sql.order_by_id Sql.DESC (entries s))).
Proof.
  unfold load_logs, entries.
  unfold mbind, M_bind, bind, mret, M_ret, ret, try_catch. simpl.
  destruct (db s) as [d|] eqn:Hdb; [|reflexivity].
  destruct (Sql.network_log d) as [rows| |] eqn:Hrows.
  - destruct rows as [|r rows].
    + erewrite db_exec_ok;
        [| exact Hdb | unfold Sql.execute; rewrite Hrows; reflexivity].
      reflexivity.
    + erewrite db_exec_ok;
        [| exact Hdb | unfold Sql.execute; rewrite Hrows; reflexivity].
      cbv beta iota zeta. cbn [Sql.columns Sql.values fst].
      rewrite map_map. reflexivity.
  - erewrite db_exec_throw;
      [| exact Hdb | unfold Sql.execute; rewrite Hrows; reflexivity].
    reflexivity.
  - erewrite db_exec_throw;
      [| exact Hdb | unfold Sql.execute; rewrite Hrows; reflexivity].
    reflexivity.
Qed.

(** X1: load-logs never throws and never changes the store or the disk; its
    reply holds one object per entry of the table, with the id, timestamp
    and status of the entry, in descending order of id (newest first); it
    is the empty list when the database is not there or has no table. *)
Theorem load_logs_lists_entries_newest_first (s : State) :
  (load_logs s).1 = Ok (map row_object (Sql.order_by_id Sql.DESC (entries s))) ∧
  Sql.order_by_id Sql.DESC (entries s) ≡ₚ entries s ∧
  StronglySorted (fun a b => Sql.id b <= Sql.id a)
                 (Sql.order_by_id Sql.DESC (entries s)) ∧
  db (load_logs s).2 = db s ∧ lastLogId (load_logs s).2 = lastLogId s ∧
  disk (load_logs s).2 = disk s.
Proof.
  split; [apply load_logs_reply|].
  split; [apply (order_by_id_spec Sql.DESC)|].
  split; [apply (order_by_id_spec Sql.DESC)|].
  unfold load_logs.
  unfold mbind, M_bind, bind, mret, M_ret, ret, try_catch. simpl.
  destruct (db s) as [d|] eqn:Hdb; [|simpl; repeat split; auto].
  destruct (Sql.execute (Sql.SELECT_ALL_ORDER_BY_ID Sql.DESC) d)
    as [[d' res]|err] eqn:Hex.
  - assert (d' = d).
    { unfold Sql.execute in Hex.
      destruct (Sql.network_log d) as [rows| |]; try discriminate.
      destruct rows; inversion Hex; reflexivity. }
    subst d'. rewrite (db_exec_ok s d _ d res Hdb Hex).
    rewrite (upd_db_same s d Hdb). destruct res; simpl; repeat split; auto.
  - rewrite (db_exec_throw s d _ err Hdb Hex). simpl. repeat split; auto.
Qed.

(** **** The CSV export *)

Lemma select_asc_rows s d rows :
  db s = Some d -> Sql.network_log d = Sql.Table rows ->
  db_exec (Sql.SELECT_ALL_ORDER_BY_ID Sql.ASC) s =
    (Ok match rows with
        | [] => []
        | _ :: _ => [ {| Sql.columns := ["id"; "timestamp"; "status"];
                         Sql.values := map Sql.row_values
                                         (Sql.order_by_id Sql.ASC rows) |} ]
        end, s).
Proof.
  intros Hdb Hrows.
  destruct rows as [|r rows];
    (erewrite db_exec_ok;
     [| exact Hdb | unfold Sql.execute; rewrite Hrows; reflexivity]);
    rewrite (upd_db_same s d Hdb); reflexivity.
Qed.

Lemma writeFileSync_result p data fs fs' :
  Fs.writeFileSync p data fs = Ok fs' ->
  Fs.lookup_file p fs' = Some data ∧
  ∀ q, q ≠ p -> Fs.lookup_file q fs' = Fs.lookup_file q fs.
Proof.
  intros Hw.
  destruct (writeFileSync_cases p data fs)
    as [(files & Hdir & Hnw & Hwr)|[(Hdir & Hwr)|(Hdir & Hnw & Hwr)]];
    rewrite Hwr in Hw; inversion Hw; subst.
  split; [apply lookup_file_store|].
  intros q Hq. apply lookup_file_store_ne; assumption.
Qed.

(** A number above 2^53 is not rounded below 2^53. *)
Lemma to_number_above a : 2 ^ 53 < a -> 2 ^ 53 <= Sql.to_number a.
Proof.
  intros Ha. unfold Sql.to_number. cbv zeta.
  rewrite (Z.abs_eq a) by lia.
  destruct (a <=? 2 ^ 53) eqn:E; [apply Z.leb_le in E; lia|].
  rewrite (Z.sgn_pos a) by lia.
  assert (Hlog : 53 <= Z.log2 a) by (apply Z.log2_le_pow2; lia).
  set (e := Z.log2 a - 52).
  assert (He : 1 <= e) by (unfold e; lia).
  assert (Hpow : 2 ^ Z.log2 a = 2 ^ 52 * 2 ^ e).
  { unfold e. rewrite <- Z.pow_add_r by lia. f_equal. lia. }
  assert (Hpe : 2 <= 2 ^ e).
  { change 2 with (2 ^ 1) at 1. apply Z.pow_le_mono_r; lia. }
  assert (Hq : 2 ^ 52 <= a / 2 ^ e).
  { apply Z.div_le_lower_bound; [lia|].
    pose proof (Z.log2_spec a ltac:(lia)) as [Hlo _]. lia. }
  assert (Hq' : 2 ^ 52 <=
                (if a mod 2 ^ e <? 2 ^ (e - 1) then a / 2 ^ e
                 else if 2 ^ (e - 1) <? a mod 2 ^ e then a / 2 ^ e + 1
                 else if Z.even (a / 2 ^ e) then a / 2 ^ e else a / 2 ^ e + 1)).
  { repeat match goal with |- context [if ?b then _ else _] => destruct b end; lia. }
  change (2 ^ 53) with (2 ^ 52 * 2). nia.
Qed.

(** Below 2^53 only the integer itself reads back as the same double. *)
Lemma to_number_only_itself c x :
  0 <= c -> 0 < x < 2 ^ 53 -> Sql.to_number c = x -> c = x.
Proof.
  intros Hc Hx Hcx. destruct (Z_le_gt_dec c (2 ^ 53)) as [Hle|Hgt].
  - rewrite to_number_exact in Hcx by (rewrite Z.abs_eq; lia). exact Hcx.
  - pose proof (to_number_above c ltac:(lia)). lia.
Qed.

Lemma shortest_from_exact fuel p x :
  0 < x < 2 ^ 53 -> 0 <= p -> shortest_from fuel p x = x.
Proof.
  intros Hx. revert p. induction fuel as [|fuel IH]; intros p Hp; [reflexivity|].
  cbn [shortest_from]. cbv zeta.
  assert (Hlo : 0 <= x / p * p).
  { destruct (Z.eq_dec p 0) as [->|Hp0]; [rewrite Z.mul_0_r; lia|].
    apply Z.mul_nonneg_nonneg; [apply Z.div_pos; lia | exact Hp]. }
  assert (Hdiv : 0 <= p / 10) by (apply Z.div_pos; lia).
  destruct (Sql.to_number (x / p * p) =? x) eqn:Elo;
    destruct (Sql.to_number (x / p * p + p) =? x) eqn:Ehi; cbn [andb];
    try (apply Z.eqb_eq in Elo; apply to_number_only_itself in Elo; [|lia|lia]);
    try (apply Z.eqb_eq in Ehi; apply to_number_only_itself in Ehi; [|lia|lia]);
    try (apply IH; exact Hdiv);
    repeat match goal with |- context [if ?b then _ else _] => destruct b end;
    lia.
Qed.

(** Up to [Number.MAX_SAFE_INTEGER] a number is printed as the integer it
    is. *)
Lemma Number_toString_exact n :
  Z.abs n < 2 ^ 53 -> Number_toString n = pretty n.
Proof.
  intros Hn. unfold Number_toString. cbv zeta.
  destruct (n =? 0) eqn:E0; [apply Z.eqb_eq in E0; subst n; reflexivity|].
  apply Z.eqb_neq in E0.
  unfold shortest. cbv zeta. rewrite shortest_from_exact; [|lia|].
  - replace (Z.abs n <? 10 ^ 21) with true by (symmetry; apply Z.ltb_lt; lia).
    destruct n as [|q|q]; [contradiction | reflexivity | reflexivity].
  - clear. generalize (S (Z.to_nat (Z.log2 (Z.abs n)))) as fuel.
    assert (Hgen : ∀ fuel q, 0 <= q -> 0 <= pow10_below fuel q (Z.abs n)).
    { induction fuel as [|fuel IH]; intros q Hq; simpl; [exact Hq|].
      destruct (10 * q <=? Z.abs n); [apply IH; lia | exact Hq]. }
    intros fuel. apply Hgen. lia.
Qed.

Lemma csv_row_exact r :
  Z.abs (Sql.id r) < 2 ^ 53 -> csv_row (Sql.row_values r) = csv_line r.
Proof.
  intros Hr. unfold csv_row, Sql.row_values, csv_line. cbn [nth to_string].
  rewrite to_number_exact by lia. rewrite Number_toString_exact by exact Hr.
  reflexivity.
Qed.

(** X2: export-log-csv writes nothing and replies with a failure, without
    throwing, when the database is not there ("Database not ready."), when
    the table has no entry ("No logs to export.", before any dialog), and
    when the dialog gives no path ("Export canceled by user."); the state
    is left as it was. *)
Theorem export_log_csv_without_entries_or_path (s : State) (chosen : option Fs.path) :
  (db s = None ->
   export_log_csv chosen s =
     (Ok {| success := false; text := "Database not ready." |}, s)) ∧
  (∀ d, db s = Some d -> Sql.network_log d = Sql.Table [] ->
   export_log_csv chosen s =
     (Ok {| success := false; text := "No logs to export." |}, s)) ∧
  (∀ d rows, db s = Some d -> Sql.network_log d = Sql.Table rows -> rows ≠ [] ->
   export_log_csv None s =
     (Ok {| success := false; text := "Export canceled by user." |}, s)).
Proof.
  split; [|split].
  - intros Hdb. unfold export_log_csv.
    unfold mbind, M_bind, bind, mret, M_ret, ret. simpl. rewrite Hdb. reflexivity.
  - intros d Hdb Hrows. unfold export_log_csv.
    unfold mbind, M_bind, bind, mret, M_ret, ret. simpl. rewrite Hdb.
    rewrite (select_asc_rows s d [] Hdb Hrows). reflexivity.
  - intros d rows Hdb Hrows Hne. unfold export_log_csv.
    unfold mbind, M_bind, bind, mret, M_ret, ret. simpl. rewrite Hdb.
    rewrite (select_asc_rows s d rows Hdb Hrows).
    destruct rows; [congruence | reflexivity].
Qed.

(** X3: with entries in the table and a path from the dialog,
    export-log-csv writes to that path, and to no other, the header and
    one row per entry in ascending order of id; it replies with a success
    when the write succeeds and with the error message, without throwing
    and without a change of state, when the write fails.  The database is
    never changed.  An id is written as JavaScript prints the double that
    sql.js gives for it: in decimal when it is below 2^53 in absolute
    value, and with the shortest digits that give the same double
    above. *)
Theorem export_log_csv_writes_entries_oldest_first (s : State) (d : Sql.Database)
    (rows : list Sql.Row) (p : Fs.path) :
  db s = Some d -> Sql.network_log d = Sql.Table rows -> rows ≠ [] ->
  let sorted := Sql.order_by_id Sql.ASC rows in
  let bytes := list_byte_of_string (csv_content (map Sql.row_values sorted)) in
  sorted ≡ₚ rows ∧
  StronglySorted (fun a b => Sql.id a <= Sql.id b) sorted ∧
  match Fs.writeFileSync p bytes (disk s) with
  | Ok fs' =>
      export_log_csv (Some p) s =
        (Ok {| success := true;
               text := "CSV exported successfully to: " +:+ Fs.path_str p |},
         upd_disk fs' s) ∧
      Fs.lookup_file p fs' = Some bytes ∧
      ∀ q, q ≠ p -> Fs.lookup_file q fs' = Fs.lookup_file q (disk s)
  | Throw e =>
      export_log_csv (Some p) s =
        (Ok {| success := false; text := "CSV Export failed: " +:+ message e |}, s)
  end ∧
  (Forall (fun r => Z.abs (Sql.id r) < 2 ^ 53) rows ->
   csv_content (map Sql.row_values sorted) =
     join newline ("ID,Timestamp_ISO,Status" :: map csv_line sorted)).
Proof.
  intros Hdb Hrows Hne sorted bytes.
  assert (Hperm : sorted ≡ₚ rows) by apply (order_by_id_spec Sql.ASC).
  split; [exact Hperm|].
  split; [apply (order_by_id_spec Sql.ASC)|].
  split.
  - unfold export_log_csv.
    unfold mbind, M_bind, bind, mret, M_ret, ret, try_catch. simpl. rewrite Hdb.
    rewrite (select_asc_rows s d rows Hdb Hrows).
    destruct rows as [|r rows]; [congruence|].
    cbv beta iota zeta. cbn [Sql.values]. unfold fs_write.
    fold sorted. fold bytes.
    destruct (Fs.writeFileSync p bytes (disk s)) as [fs'|e] eqn:Hw.
    + split; [reflexivity|]. apply (writeFileSync_result p bytes (disk s) fs' Hw).
    + reflexivity.
  - intros Hsmall. rewrite <- Hperm in Hsmall.
    unfold csv_content. cbv zeta. f_equal. f_equal.
    rewrite map_map. clear -Hsmall.
    induction Hsmall as [|r l Hr _ IH]; [reflexivity|].
    cbn [map]. rewrite IH, (csv_row_exact r Hr). reflexivity.
Qed.

(** **** More on the flush and the archive *)

(** X4: [performBackup] never changes the database or [lastLogId] and
    writes no file but the one it is given.  Without a database it throws
    "Database not initialized. Cannot perform backup." and changes nothing.
    When it returns normally, either the file holds the image of the
    database, or the directory of the file is missing and nothing at all
    has happened: a normal return does not mean that the image was
    saved. *)
Theorem performBackup_outcomes (p : Fs.path) (s : State) :
  db (performBackup p s).2 = db s ∧
  lastLogId (performBackup p s).2 = lastLogId s ∧
  (∀ q, q ≠ p ->
        Fs.lookup_file q (disk (performBackup p s).2) = Fs.lookup_file q (disk s)) ∧
  (db s = None ->
   performBackup p s =
     (Throw (Error "Database not initialized. Cannot perform backup."), s)) ∧
  (∀ d, db s = Some d -> (performBackup p s).1 = Ok tt ->
        Fs.lookup_file p (disk (performBackup p s).2) = Some (export d) ∨
        (Fs.tree (disk s) !! p.1 = None ∧ (performBackup p s).2 = s)).
Proof.
  destruct (db s) as [d|] eqn:Hdb.
  - destruct (performBackup_cases s d p Hdb)
      as [(files & Hdir & Hw & Hrun)|[(Hdir & Hrun)|(Hdir & Hw & Hrun)]];
      rewrite Hrun; simpl.
    + split; [exact Hdb|]. split; [reflexivity|].
      split; [intros q Hq; apply lookup_file_store_ne; assumption|].
      split; [discriminate|].
      intros d' Hd' _. inversion Hd'; subst. left. apply lookup_file_store.
    + split; [exact Hdb|]. split; [reflexivity|]. split; [reflexivity|].
      split; [discriminate|]. intros d' _ _. right. split; [exact Hdir | reflexivity].
    + split; [exact Hdb|]. split; [reflexivity|]. split; [reflexivity|].
      split; discriminate.
  - assert (Hrun : performBackup p s =
                   (Throw (Error "Database not initialized. Cannot perform backup."), s)).
    { unfold performBackup. unfold mbind, M_bind, bind. simpl. rewrite Hdb. reflexivity. }
    rewrite Hrun. simpl.
    split; [exact Hdb|]. split; [reflexivity|]. split; [reflexivity|].
    split; [reflexivity | discriminate].
Qed.

(** The state after a tick, apart from the disk, the console and the
    messages sent. *)
Lemma autoHourlyBackup_frame now s :
  db (autoHourlyBackup now s).2 = db s ∧
  lastLogId (autoHourlyBackup now s).2 = lastLogId s ∧
  intervals (autoHourlyBackup now s).2 = intervals s ∧
  windows (autoHourlyBackup now s).2 = windows s ∧
  quitting (autoHourlyBackup now s).2 = quitting s.
Proof.
  unfold autoHourlyBackup.
  unfold mbind, M_bind, bind, mret, M_ret, ret, try_catch. simpl.
  destruct (db s) as [d|] eqn:Hdb; [|simpl; auto].
  destruct (performBackup_cases s d dbPath Hdb)
    as [(files & Hdir & Hw & Hrun)|[(Hdir & Hrun)|(Hdir & Hw & Hrun)]];
    rewrite Hrun; [| |simpl; auto].
  - set (s1 := upd_console LOG _ (upd_disk _ s)).
    destruct (performBackup_cases s1 d (backupDir, backupFileName now) Hdb)
      as [(files' & Hdir' & Hw' & Hrun')|[(Hdir' & Hrun')|(Hdir' & Hw' & Hrun')]];
      rewrite Hrun'; simpl; try destruct (0 <? windows s)%nat; simpl; auto.
  - destruct (performBackup_cases s d (backupDir, backupFileName now) Hdb)
      as [(files' & Hdir' & Hw' & Hrun')|[(Hdir' & Hrun')|(Hdir' & Hw' & Hrun')]];
      rewrite Hrun'; simpl; try destruct (0 <? windows s)%nat; simpl; auto.
Qed.

(** X5: a tick of the backup timer never changes the database, [lastLogId],
    the timers, the windows or the quitting flag, whatever fails; it
    writes no file but the persistent file and the archive of its date; and
    without a database it does nothing at all. *)
Theorem tick_touches_only_its_two_files (now : Date) (s : State) :
  db (autoHourlyBackup now s).2 = db s ∧
  lastLogId (autoHourlyBackup now s).2 = lastLogId s ∧
  intervals (autoHourlyBackup now s).2 = intervals s ∧
  windows (autoHourlyBackup now s).2 = windows s ∧
  quitting (autoHourlyBackup now s).2 = quitting s ∧
  (∀ q, q ≠ dbPath -> q ≠ (backupDir, backupFileName now) ->
        Fs.lookup_file q (disk (autoHourlyBackup now s).2)
        = Fs.lookup_file q (disk s)) ∧
  (db s = None -> autoHourlyBackup now s = (Ok tt, s)).
Proof.
  destruct (autoHourlyBackup_frame now s) as (Hd & Hl & Hi & Hw & Hq).
  repeat (split; [assumption|]).
  split; [intros q Hq1 Hq2; apply autoHourlyBackup_other_files; assumption|].
  intros Hdb. unfold autoHourlyBackup.
  unfold mbind, M_bind, bind, mret, M_ret, ret. simpl. rewrite Hdb. reflexivity.
Qed.

(** X6: when both writes of a tick succeed, the persistent file is written
    first and the archive second, both with the image of the database, so
    the archive is a copy of the persistent file; the tick returns
    normally, and the message on backup-status is sent exactly when a
    window exists. *)
Theorem tick_archives_a_copy_of_the_file (now : Date) (s : State) (d : Sql.Database) :
  db s = Some d -> healthy (disk s) ->
  (backupDir, backupFileName now) ∉ Fs.wdeny (disk s) ->
  ∃ s', autoHourlyBackup now s = (Ok tt, s') ∧
        Fs.lookup_file dbPath (disk s') = Some (export d) ∧
        Fs.lookup_file (backupDir, backupFileName now) (disk s') = Some (export d) ∧
        console s' = console s ++
          [saved_line dbPath; saved_line (backupDir, backupFileName now);
           (LOG, "[Auto Backup] Archival backup created successfully: "
                 +:+ backupFileName now)] ∧
        sent s' = if (0 <? windows s)%nat
                  then sent s ++ ["Last Auto Backup: " +:+ toLocaleTimeString now]
                  else sent s.
Proof.
  intros Hdb Hh Hw.
  destruct (healthy_write (disk s) (export d) Hh) as (files & Hu & Hwr).
  unfold autoHourlyBackup.
  unfold mbind, M_bind, bind, mret, M_ret, ret, try_catch. simpl. rewrite Hdb.
  rewrite (performBackup_written s d dbPath _ Hdb Hwr).
  set (s1 := upd_console LOG _ (upd_disk _ s)).
  assert (Hh1 : healthy (disk s1)) by (apply healthy_store; assumption).
  destruct Hh1 as (_ & [files' Hb] & _).
  erewrite (performBackup_written s1 d (backupDir, backupFileName now));
    [| exact Hdb | apply writeFileSync_ok; [exact Hb | exact Hw]].
  simpl.
  destruct (0 <? windows s)%nat; eexists; (split; [reflexivity|]); simpl;
    (split; [rewrite lookup_file_store_ne;
             [apply lookup_file_store | exact Hb
             | intros Heq; symmetry in Heq; exact (archive_path_ne _ Heq)]|]);
    (split; [apply lookup_file_store|]);
    (split; [rewrite <- !app_assoc; reflexivity | reflexivity]).
Qed.


(** X8: with the data directory and the backup directory missing, every
    caller of [performBackup] goes on as if the image had been saved,
    because the ENOENT of the write is swallowed: clear-logs replies with
    a success, the tick prints that the archive was created, the listener
    of before-quit prints that the final save is complete; and the disk is
    what it was, without a persistent file and without an archive. *)
Theorem missing_directory_is_taken_for_saved (now : Date) (s : State)
    (d : Sql.Database) (rows : list Sql.Row) :
  db s = Some d -> Sql.network_log d = Sql.Table rows ->
  Fs.tree (disk s) !! userData = None -> Fs.tree (disk s) !! backupDir = None ->
  ((clear_logs s).1 = Ok Success ∧ disk (clear_logs s).2 = disk s) ∧
  ((autoHourlyBackup now s).1 = Ok tt ∧
   console (autoHourlyBackup now s).2 = console s ++
     [(LOG, "[Auto Backup] Archival backup created successfully: "
            +:+ backupFileName now)] ∧
   disk (autoHourlyBackup now s).2 = disk s) ∧
  before_quit s =
    (Ok tt, upd_console LOG "Final save to persistent file complete before quit." s) ∧
  Fs.lookup_file dbPath (disk s) = None ∧
  Fs.lookup_file (backupDir, backupFileName now) (disk s) = None.
Proof.
  intros Hdb Hrows Hu Hb.
  split; [rewrite (clear_logs_enoent s d rows Hdb Hrows Hu); split; reflexivity|].
  split.
  - unfold autoHourlyBackup.
    unfold mbind, M_bind, bind, mret, M_ret, ret, try_catch. simpl. rewrite Hdb.
    rewrite (performBackup_enoent s d dbPath Hdb Hu).
    rewrite (performBackup_enoent s d (backupDir, backupFileName now) Hdb Hb).
    simpl. destruct (0 <? windows s)%nat; repeat split; reflexivity.
  - split.
    + unfold before_quit.
      unfold mbind, M_bind, bind, mret, M_ret, ret, try_catch. simpl. rewrite Hdb.
      rewrite (performBackup_enoent s d dbPath Hdb Hu). reflexivity.
    + unfold Fs.lookup_file. simpl. rewrite Hu, Hb. split; reflexivity.
Qed.

(** X9: the listener of before-quit never throws and never changes the
    database or [lastLogId]; it writes no file but the persistent file;
    without a database it does nothing; and when the write is refused it
    prints "Final persistence save failed: ..." and leaves the disk as it
    was. *)
Theorem before_quit_never_throws (s : State) :
  (before_quit s).1 = Ok tt ∧
  db (before_quit s).2 = db s ∧ lastLogId (before_quit s).2 = lastLogId s ∧
  (∀ q, q ≠ dbPath ->
        Fs.lookup_file q (disk (before_quit s).2) = Fs.lookup_file q (disk s)) ∧
  (db s = None -> before_quit s = (Ok tt, s)) ∧
  (∀ d, db s = Some d -> is_Some (Fs.tree (disk s) !! userData) ->
        dbPath ∈ Fs.wdeny (disk s) ->
        before_quit s =
          (Ok tt, upd_console ERROR
                    ("Final persistence save failed: " +:+ message export_failed) s)).
Proof.
  unfold before_quit.
  unfold mbind, M_bind, bind, mret, M_ret, ret, try_catch. simpl.
  destruct (db s) as [d|] eqn:Hdb.
  - destruct (performBackup_cases s d dbPath Hdb)
      as [(files & Hdir & Hw & Hrun)|[(Hdir & Hrun)|(Hdir & Hw & Hrun)]];
      rewrite Hrun; simpl.
    + split; [reflexivity|]. split; [exact Hdb|]. split; [reflexivity|].
      split; [intros q Hq; apply lookup_file_store_ne; assumption|].
      split; [discriminate|]. intros d' _ _ Hin. contradiction.
    + split; [reflexivity|]. split; [exact Hdb|]. split; [reflexivity|].
      split; [reflexivity|]. split; [discriminate|].
      intros d' _ [x Hx] _. simpl in Hdir. congruence.
    + split; [reflexivity|]. split; [exact Hdb|]. split; [reflexivity|].
      split; [reflexivity|]. split; [discriminate|]. intros d' _ _ _. reflexivity.
  - simpl. split; [reflexivity|]. split; [exact Hdb|]. split; [reflexivity|].
    split; [reflexivity|]. split; [reflexivity | discriminate].
Qed.

(** X10: on a healthy disk, quitting and starting again loses nothing:
    the final flush of before-quit saves every entry, including those
    inserted since the last tick, and the new process has the same
    database, the same entries, [lastLogId] at the largest id, one window
    and one timer of one hour. *)
Theorem quit_and_restart_keeps_entries (s0 : State) (es : list LogEntry)
    (d : Sql.Database) (rows : list Sql.Row) :
  let s := run (map Insert es) s0 in
  db s = Some d -> Sql.network_log d = Sql.Table rows -> healthy (disk s0) ->
  db (step Restart s) = Some d ∧ entries (step Restart s) = rows ∧
  lastLogId (step Restart s) = counter d ∧
  intervals (step Restart s) = [HOURLY_BACKUP_INTERVAL_MS] ∧
  windows (step Restart s) = 1%nat ∧ quitting (step Restart s) = false.
Proof.
  intros s Hdb Hrows Hh0.
  assert (Hh : healthy (disk s)) by (apply inserts_healthy; exact Hh0).
  destruct (restart_healthy s d rows Hdb Hrows Hh) as (Hdb' & Hid' & _).
  split; [exact Hdb'|]. split; [unfold entries; rewrite Hdb', Hrows; reflexivity|].
  split; [exact Hid'|].
  unfold step.
  destruct (before_quit_healthy s d Hdb Hh) as (s1 & Hq & _ & _ & Hh1 & Hfile).
  rewrite Hq. simpl.
  assert (Hl : loaded (disk s1) = d) by (apply loaded_export; assumption).
  assert (Hisdb : is_database (loaded (disk (boot (disk s1)))))
    by (simpl; rewrite Hl; eapply is_database_table; exact Hrows).
  destruct (whenReady_spec (boot (disk s1)) (healthy_dirs_ready _ Hh1) Hisdb)
    as (s2 & Hrun & _ & _ & _ & _ & Hw & Hi & Hqq).
  rewrite Hrun. simpl in *. auto.
Qed.

(** **** More on starting *)

(** The three ways [initializeDatabase] ends. *)
Lemma initializeDatabase_cases s :
  (∃ s', initializeDatabase s = (Ok tt, s') ∧
         db s' = Some (ensure_table (loaded (disk s))) ∧
         same_files (disk s) (disk s') ∧ windows s' = windows s ∧
         intervals s' = intervals s ∧ quitting s' = quitting s) ∨
  (∃ s', initializeDatabase s = (Throw Sql.not_a_database, s') ∧
         same_files (disk s) (disk s') ∧ windows s' = windows s ∧
         intervals s' = intervals s ∧ quitting s' = quitting s) ∨
  (∃ e, Fs.existsSync backupDir (disk s) = false ∧
        Fs.mkdirSync_recursive backupDir (disk s) = Throw e ∧
        initializeDatabase s = (Throw e, s)).
Proof.
  assert (Hcases : dirs_ready (disk s) ∨
                   ∃ e, Fs.existsSync backupDir (disk s) = false ∧
                        Fs.mkdirSync_recursive backupDir (disk s) = Throw e).
  { unfold dirs_ready. destruct (Fs.existsSync backupDir (disk s)); [auto|].
    destruct (Fs.mkdirSync_recursive backupDir (disk s)) as [fs'|e]; eauto. }
  destruct Hcases as [Hready|(e & Hex & Hmk)].
  - destruct (Sql.network_log (loaded (disk s))) as [rows| |] eqn:Hl.
    + left.
      destruct (initializeDatabase_spec s Hready (is_database_table _ rows Hl))
        as (s' & Hrun & Hdb & _ & Hfiles & _ & Hw & _ & Hi & Hq & _).
      exists s'. auto 10.
    + left.
      assert (Hisdb : is_database (loaded (disk s)))
        by (unfold is_database; rewrite Hl; discriminate).
      destruct (initializeDatabase_spec s Hready Hisdb)
        as (s' & Hrun & Hdb & _ & Hfiles & _ & Hw & _ & Hi & Hq & _).
      exists s'. auto 10.
    + right; left.
      destruct (initializeDatabase_garbage s Hready Hl)
        as (s' & Hrun & _ & _ & Hfiles & Hw & Hi & Hq & _).
      exists s'. auto 10.
  - right; right. exists e. split; [exact Hex|]. split; [exact Hmk|].
    apply initializeDatabase_mkdir_throws; assumption.
Qed.

(** X11: [initializeDatabase] never writes, replaces or removes a file,
    however it ends: the content of every path is the same after as
    before, the directories that existed still exist, and at most
    directories were created. *)
Theorem initializeDatabase_never_writes_a_file (s : State) :
  (∀ p, Fs.lookup_file p (disk (initializeDatabase s).2) = Fs.lookup_file p (disk s)) ∧
  (∀ d, is_Some (Fs.tree (disk s) !! d) ->
        is_Some (Fs.tree (disk (initializeDatabase s).2) !! d)).
Proof.
  destruct (initializeDatabase_cases s)
    as [(s' & Hrun & _ & (Hf & _ & _ & Hd) & _)
       |[(s' & Hrun & (Hf & _ & _ & Hd) & _)|(e & _ & _ & Hrun)]];
    rewrite Hrun; simpl; auto.
Qed.

(** X12: the ready callback never throws.  When [initializeDatabase]
    completes, it opens one window and arms one timer of 3600000 ms; when
    [initializeDatabase] throws, for instance because the backup directory
    cannot be created, it prints "Critical error during app
    initialization: ..." and quits, and no window is opened and no timer
    armed. *)
Theorem whenReady_arms_the_timer_or_quits (s : State) :
  (whenReady s).1 = Ok tt ∧
  match (initializeDatabase s).1 with
  | Ok _ =>
      windows (whenReady s).2 = S (windows s) ∧
      intervals (whenReady s).2 = intervals s ++ [3600000] ∧
      quitting (whenReady s).2 = quitting s
  | Throw e =>
      quitting (whenReady s).2 = true ∧
      windows (whenReady s).2 = windows s ∧
      intervals (whenReady s).2 = intervals s ∧
      last (console (whenReady s).2) =
        Some (ERROR, "Critical error during app initialization: " +:+ message e)
  end.
Proof.
  unfold whenReady.
  unfold mbind, M_bind, bind, mret, M_ret, ret, try_catch.
  destruct (initializeDatabase_cases s)
    as [(s' & Hrun & _ & _ & Hw & Hi & Hq)
       |[(s' & Hrun & _ & Hw & Hi & Hq)|(e & _ & _ & Hrun)]];
    rewrite Hrun; simpl.
  - rewrite Hw, Hi, Hq. auto.
  - rewrite Hw, Hi. split; [reflexivity|]. split; [reflexivity|].
    split; [reflexivity|]. split; [reflexivity | apply last_snoc].
  - split; [reflexivity|]. split; [reflexivity|].
    split; [reflexivity|]. split; [reflexivity | apply last_snoc].
Qed.

(** X13: started on a persistent file that holds the image of any
    database with the log table, [initializeDatabase] takes the database
    as it is: the entries and the recorded sequence are those of the
    image, and [lastLogId] is derived from the entries, as the largest id
    present, or 0 when there is none, not from the sequence. *)
Theorem start_from_an_image (fs : Fs.FS) (d : Sql.Database) (rows : list Sql.Row) :
  dirs_ready fs ->
  Fs.lookup_file dbPath fs = Some (export d) -> dbPath ∉ Fs.rdeny fs ->
  Sql.network_log d = Sql.Table rows ->
  ∃ s', initializeDatabase (boot fs) = (Ok tt, s') ∧
        db s' = Some d ∧ entries s' = rows ∧
        seq_of s' = Sql.sqlite_sequence d ∧
        lastLogId s' = match Sql.max_id rows with
                       | Some m => VNum (Sql.to_number m)
                       | None => VNum 0
                       end ∧
        (rows = [] -> lastLogId s' = VNum 0).
Proof.
  intros Hready Hfile Hr Hrows.
  assert (Hl : loaded fs = d) by (eapply loaded_opened; eauto using open_export).
  assert (Hisdb : is_database (loaded (disk (boot fs))))
    by (simpl; rewrite Hl; eapply is_database_table; exact Hrows).
  destruct (initializeDatabase_spec (boot fs) Hready Hisdb)
    as (s' & Hrun & Hdb & Hid & _).
  simpl in Hdb, Hid. rewrite Hl, (ensure_table_id d rows Hrows) in Hdb, Hid.
  exists s'. split; [exact Hrun|]. split; [exact Hdb|].
  split; [unfold entries; rewrite Hdb, Hrows; reflexivity|].
  split; [unfold seq_of; rewrite Hdb; reflexivity|].
  unfold counter in Hid. rewrite Hrows in Hid.
  split; [exact Hid|]. intros ->. exact Hid.
Qed.

(** **** More on the handlers *)

(** X14: insert-log never throws.  When it replies with a success, the
    table is the table before followed by one new row, which holds the
    timestamp and the status of the request as they were given (nothing is
    validated) and an id above every id of the table.  When it replies
    with a failure, the database and [lastLogId] are what they were. *)
Theorem insert_log_adds_one_row_or_nothing (s : State) (e : LogEntry) :
  match (insert_log e s).1 with
  | Ok Success =>
      ∃ i, entries (insert_log e s).2
           = entries s ++ [Sql.mkRow i (entry_timestamp e) (entry_status e)] ∧
           Forall (fun r => Sql.id r < i) (entries s)
  | Ok (Failure _) =>
      db (insert_log e s).2 = db s ∧ lastLogId (insert_log e s).2 = lastLogId s
  | Throw _ => False
  end.
Proof.
  destruct (insert_log_cases s e)
    as [(Hdb & Hrun)|[(d & rows & i & Hdb & Hrows & Hnew & Hrun)
                     |(d & err & Hdb & Hex & Hrun)]];
    rewrite Hrun; simpl; auto.
  exists i. unfold entries. simpl. rewrite Hdb, Hrows.
  split; [reflexivity | apply (new_rowid_above _ _ _ Hnew)].
Qed.

(** X15: when the write of the persistent file is refused, clear-logs
    replies with a failure, yet the entries are already deleted and
    [lastLogId] is already 0 in memory, while the persistent file is left
    as it was: if it held the image of the database before the clear,
    starting again from the disk brings the deleted entries back. *)
Theorem clear_logs_refused_write_clears_memory_only (s : State) (d : Sql.Database)
    (rows : list Sql.Row) :
  db s = Some d -> Sql.network_log d = Sql.Table rows ->
  is_Some (Fs.tree (disk s) !! userData) -> dbPath ∈ Fs.wdeny (disk s) ->
  (clear_logs s).1 = Ok (Failure (message export_failed)) ∧
  entries (clear_logs s).2 = [] ∧ lastLogId (clear_logs s).2 = VNum 0 ∧
  disk (clear_logs s).2 = disk s ∧
  (dirs_ready (disk s) -> dbPath ∉ Fs.rdeny (disk s) ->
   Fs.lookup_file dbPath (disk s) = Some (export d) ->
   ∃ s2, initializeDatabase (boot (disk (clear_logs s).2)) = (Ok tt, s2) ∧
         entries s2 = rows).
Proof.
  intros Hdb Hrows Hu Hw.
  rewrite (clear_logs_denied s d rows Hdb Hrows Hu Hw). simpl.
  split; [reflexivity|]. split; [reflexivity|]. split; [reflexivity|].
  split; [reflexivity|].
  intros Hready Hr Hfile.
  assert (Hl : loaded (disk s) = d) by (eapply loaded_opened; eauto using open_export).
  assert (Hisdb : is_database (loaded (disk (boot (disk s)))))
    by (simpl; rewrite Hl; eapply is_database_table; exact Hrows).
  destruct (initializeDatabase_spec (boot (disk s)) Hready Hisdb)
    as (s2 & Hrun & Hdb2 & _).
  simpl in Hdb2. rewrite Hl, (ensure_table_id d rows Hrows) in Hdb2.
  exists s2. split; [exact Hrun|]. unfold entries. rewrite Hdb2, Hrows. reflexivity.
Qed.

(** **** Characters of the names and of the CSV text *)

Lemma occurrences_app c s1 s2 :
  occurrences c (s1 +:+ s2) = (occurrences c s1 + occurrences c s2)%nat.
Proof. induction s1 as [|c' s1 IH]; simpl; [reflexivity|]. rewrite IH. lia. Qed.

Lemma occurrences_replace c s :
  colon_or_dot c = true -> occurrences c (replace_colon_dot s) = 0%nat.
Proof.
  intros Hc. induction s as [|c' s IH]; simpl; [reflexivity|]. rewrite IH.
  destruct (colon_or_dot c') eqn:Hc'.
  - destruct (Ascii.eqb_spec c "-"%char) as [->|]; [discriminate Hc | reflexivity].
  - destruct (Ascii.eqb_spec c c') as [->|]; [congruence | reflexivity].
Qed.

Lemma replace_colon_dot_length s :
  String.length (replace_colon_dot s) = String.length s.
Proof. induction s as [|c s IH]; simpl; congruence. Qed.

Lemma length_string_of_chars l :
  String.length (string_of_list_ascii l) = length l.
Proof. induction l as [|c l IH]; simpl; congruence. Qed.

Lemma string_length_app s1 s2 :
  String.length (s1 +:+ s2) = (String.length s1 + String.length s2)%nat.
Proof. induction s1 as [|c s1 IH]; simpl; [reflexivity | rewrite IH; reflexivity]. Qed.

(** X16: whatever the clock gives, the name of an archive holds no colon
    and its only dot is the one of the extension; it is 46 characters long
    up to the year 9999 and 49 characters long afterwards, when the year
    is printed with a sign and six digits. *)
Theorem backupFileName_has_no_colon (now : Date) :
  occurrences ":" (backupFileName now) = 0%nat ∧
  occurrences "." (backupFileName now) = 1%nat ∧
  String.length (backupFileName now) =
    if (year now <=? 9999)%N then 46%nat else 49%nat.
Proof.
  unfold backupFileName. cbv zeta.
  rewrite !occurrences_app, !string_length_app.
  rewrite !occurrences_replace by reflexivity.
  rewrite replace_colon_dot_length. unfold toISOString.
  rewrite length_string_of_chars. unfold iso_chars, year_chars.
  destruct (year now <=? 9999)%N;
    repeat (rewrite ?length_app, ?fixed_length; simpl);
    repeat split; lia.
Qed.

Lemma pretty_N_go_occurrences c x s :
  (∀ n, pretty_N_char n ≠ c) ->
  occurrences c (pretty_N_go x s) = occurrences c s.
Proof.
  intros Hc. revert s. induction (N.lt_wf_0 x) as [x _ IH]; intros s.
  destruct (decide (x = 0)%N) as [->|Hx]; [rewrite pretty_N_go_0; reflexivity|].
  rewrite pretty_N_go_step by lia.
  rewrite IH by (apply N.div_lt; lia). simpl.
  destruct (Ascii.eqb_spec c (pretty_N_char (x `mod` 10)%N)) as [Heq|];
    [|reflexivity].
  exfalso. apply (Hc (x `mod` 10)%N). symmetry. exact Heq.
Qed.

(** A number is rendered with digits and at most a minus sign. *)
Lemma pretty_Z_occurrences c (z : Z) :
  (∀ n, pretty_N_char n ≠ c) -> c ≠ "-"%char ->
  occurrences c (pretty z) = 0%nat.
Proof.
  intros Hc Hd.
  assert (Hpos : ∀ p : positive, occurrences c (pretty p) = 0%nat).
  { intros p. unfold pretty, pretty_positive, pretty, pretty_N.
    destruct (decide (N.pos p = 0%N)); [discriminate|].
    rewrite pretty_N_go_occurrences by exact Hc. reflexivity. }
  destruct z as [|p|p]; unfold pretty, pretty_Z.
  - simpl. destruct (Ascii.eqb_spec c "0"%char) as [->|]; [|reflexivity].
    exfalso. apply (Hc 0%N). reflexivity.
  - apply Hpos.
  - rewrite occurrences_app, Hpos. simpl.
    destruct (Ascii.eqb_spec c "-"%char); [contradiction | reflexivity].
Qed.

Lemma occurrences_join c sep h l :
  occurrences c (join sep (h :: l)) =
  (occurrences c h
   + list_sum (map (fun x => occurrences c sep + occurrences c x) l))%nat.
Proof.
  unfold join. revert h. induction l as [|x l IH]; intros h.
  - simpl. lia.
  - change (String.concat sep (h :: x :: l))
      with (h +:+ sep +:+ String.concat sep (x :: l)).
    rewrite !occurrences_app, IH. simpl. lia.
Qed.

Lemma exponential_occurrences c (v : Z) :
  (∀ n, pretty_N_char n ≠ c) -> c ≠ "-"%char -> c ≠ "."%char ->
  c ≠ "e"%char -> c ≠ "+"%char ->
  occurrences c (exponential v) = 0%nat.
Proof.
  intros Hc Hd Hp He Hplus. unfold exponential. cbv zeta.
  pose proof (pretty_Z_occurrences c (strip_zeros (String.length (pretty v)) v)
                Hc Hd) as Hs.
  pose proof (pretty_Z_occurrences c (Z.of_nat (String.length (pretty v)) - 1)
                Hc Hd) as Hexp.
  destruct (pretty (strip_zeros (String.length (pretty v)) v))
    as [|c0 [|c1 rest]]; [reflexivity | |];
    cbn [occurrences] in Hs |- *; rewrite ?occurrences_app, Hexp;
    cbn [occurrences];
    destruct (Ascii.eqb_spec c "e"%char); try contradiction;
    destruct (Ascii.eqb_spec c "+"%char); try contradiction;
    destruct (Ascii.eqb_spec c "."%char); try contradiction; lia.
Qed.

(** A number is rendered with digits and at most a minus sign, a dot and
    an exponent. *)
Lemma Number_toString_occurrences c (n : Z) :
  (∀ n, pretty_N_char n ≠ c) -> c ≠ "-"%char -> c ≠ "."%char ->
  c ≠ "e"%char -> c ≠ "+"%char ->
  occurrences c (Number_toString n) = 0%nat.
Proof.
  intros Hc Hd Hp He Hplus. unfold Number_toString. cbv zeta.
  destruct (n =? 0); [exact (pretty_Z_occurrences c 0 Hc Hd)|].
  assert (Htext : occurrences c
                    (if shortest (Z.abs n) <? 10 ^ 21
                     then pretty (shortest (Z.abs n))
                     else exponential (shortest (Z.abs n))) = 0%nat).
  { destruct (shortest (Z.abs n) <? 10 ^ 21);
      [apply pretty_Z_occurrences | apply exponential_occurrences]; assumption. }
  destruct (n <? 0); [|exact Htext].
  rewrite occurrences_app, Htext. cbn [occurrences].
  destruct (Ascii.eqb_spec c "-"%char); [contradiction | reflexivity].
Qed.

Lemma occurrences_csv_row c r :
  (∀ n, pretty_N_char n ≠ c) -> c ≠ "-"%char -> c ≠ "."%char ->
  c ≠ "e"%char -> c ≠ "+"%char ->
  occurrences c (csv_row (Sql.row_values r)) =
  (occurrences c ("," +:+ dquote +:+ dquote +:+ ",")
   + (occurrences c (Sql.timestamp r) + occurrences c (Sql.status r)))%nat.
Proof.
  intros Hc Hd Hp He Hplus. unfold csv_row, Sql.row_values.
  cbn [nth to_string]. rewrite !occurrences_app.
  rewrite (Number_toString_occurrences c _ Hc Hd Hp He Hplus). lia.
Qed.

Lemma occurrences_csv_content c rows :
  (∀ n, pretty_N_char n ≠ c) -> c ≠ "-"%char -> c ≠ "."%char ->
  c ≠ "e"%char -> c ≠ "+"%char ->
  occurrences c (csv_content (map Sql.row_values rows)) =
  (occurrences c "ID,Timestamp_ISO,Status"
   + length rows * (occurrences c newline
                    + occurrences c ("," +:+ dquote +:+ dquote +:+ ","))
   + field_occurrences c rows)%nat.
Proof.
  intros Hc Hd Hp He Hplus. unfold csv_content. cbv zeta. rewrite occurrences_join.
  change (join "," ["ID"; "Timestamp_ISO"; "Status"]) with "ID,Timestamp_ISO,Status".
  unfold field_occurrences. rewrite !map_map, <- Nat.add_assoc. f_equal.
  unfold list_sum. induction rows as [|r rows IH]; [reflexivity|].
  cbn [map fold_right length]. rewrite (occurrences_csv_row c r Hc Hd Hp He Hplus), IH. lia.
Qed.

Lemma not_a_digit c :
  (if decide (c ∈ ["0"; "1"; "2"; "3"; "4"; "5"; "6"; "7"; "8"; "9"]%char)
   then False else True) ->
  ∀ n, pretty_N_char n ≠ c.
Proof.
  intros Hc n Hn. destruct (decide _) as [|Hnot]; [contradiction|].
  apply Hnot. subst c.
  unfold pretty_N_char. repeat case_match; set_solver.
Qed.

(** X17: the CSV text is written without any quoting of its fields: it
    holds one line break per entry, two commas and two double quotes per
    entry (and the two commas of the header), plus every line break, comma
    and double quote that occurs in a timestamp or a status.  So a field
    with such a character changes the number of lines or of columns. *)
Theorem csv_content_fields_are_verbatim (rows : list Sql.Row) :
  let csv := csv_content (map Sql.row_values rows) in
  occurrences "010" csv = (length rows + field_occurrences "010" rows)%nat ∧
  occurrences "," csv = (2 + 2 * length rows + field_occurrences "," rows)%nat ∧
  occurrences "034" csv = (2 * length rows + field_occurrences "034" rows)%nat.
Proof.
  cbv zeta.
  rewrite !occurrences_csv_content
    by (try (apply not_a_digit; vm_compute; exact I); discriminate).
  change (occurrences "010" "ID,Timestamp_ISO,Status") with 0%nat.
  change (occurrences "," "ID,Timestamp_ISO,Status") with 2%nat.
  change (occurrences "034" "ID,Timestamp_ISO,Status") with 0%nat.
  change (occurrences "010" newline) with 1%nat.
  change (occurrences "," newline) with 0%nat.
  change (occurrences "034" newline) with 0%nat.
  change (occurrences "010" ("," +:+ dquote +:+ dquote +:+ ",")) with 0%nat.
  change (occurrences "," ("," +:+ dquote +:+ dquote +:+ ",")) with 2%nat.
  change (occurrences "034" ("," +:+ dquote +:+ dquote +:+ ",")) with 2%nat.
  repeat split; lia.
Qed.

(** **** The order of the table *)

Lemma insert_by_first le r rows :
  Forall (fun r' => le (Sql.id r) (Sql.id r') = true) rows ->
  Sql.insert_by le r rows = r :: rows.
Proof.
  intros Hall. destruct Hall as [|r' rows Hr' _]; simpl; [reflexivity|].
  rewrite Hr'. reflexivity.
Qed.

Lemma insert_by_last le r rows :
  Forall (fun r' => le (Sql.id r) (Sql.id r') = false) rows ->
  Sql.insert_by le r rows = rows ++ [r].
Proof.
  intros Hall. induction Hall as [|r' rows Hr' _ IH]; simpl; [reflexivity|].
  rewrite Hr', IH. reflexivity.
Qed.

(** On a table in strictly increasing order of id, ORDER BY id ASC is the
    table and ORDER BY id DESC is the table reversed. *)
Lemma order_by_id_increasing rows :
  StronglySorted Z.lt (map Sql.id rows) ->
  Sql.order_by_id Sql.ASC rows = rows ∧ Sql.order_by_id Sql.DESC rows = rev rows.
Proof.
  unfold Sql.order_by_id, Sql.sort_by.
  induction rows as [|r rows IH]; intros Hs; [split; reflexivity|].
  cbn [map] in Hs. apply StronglySorted_inv in Hs as [Hs Hall].
  destruct (IH Hs) as [Hasc Hdesc]. simpl. rewrite Hasc, Hdesc.
  apply (proj1 (List.Forall_map _ _ _)) in Hall. split.
  - apply insert_by_first. eapply Forall_impl; [exact Hall|].
    simpl. intros r' Hr'. apply Z.leb_le. lia.
  - apply insert_by_last. apply Forall_rev.
    eapply Forall_impl; [exact Hall|].
    simpl. intros r' Hr'. rewrite Z.geb_leb. apply Z.leb_gt. exact Hr'.
Qed.

Lemma StronglySorted_snoc (l : list Z) (x : Z) :
  StronglySorted Z.lt l -> Forall (fun y => y < x) l ->
  StronglySorted Z.lt (l ++ [x]).
Proof.
  intros Hs Hall. induction Hs as [|y l Hs IH Hy]; simpl.
  - constructor; constructor.
  - apply Forall_cons in Hall as [Hyx Hall].
    constructor; [apply IH; exact Hall|].
    apply Forall_app. split; [exact Hy | constructor; [exact Hyx | constructor]].
Qed.

Lemma StronglySorted_lt_NoDup (l : list Z) : StronglySorted Z.lt l -> NoDup l.
Proof.
  intros Hs. induction Hs as [|y l Hs IH Hy]; constructor; [|exact IH].
  intros Hin. rewrite Forall_forall in Hy. specialize (Hy y Hin). lia.
Qed.

Lemma step_ids_increasing o s :
  store_ok s -> healthy (disk s) -> ids_increasing s -> ids_increasing (step o s).
Proof.
  intros Hok Hh. pose proof Hok as (d & rows & Hdb & Hrows & Hall & Hpos).
  unfold ids_increasing, entries at 1. rewrite Hdb, Hrows. intros Hs.
  destruct o as [e| |now|].
  - unfold step.
    destruct (Sql.new_rowid rows (Sql.sqlite_sequence d)) as [j|] eqn:Hnew.
    + rewrite (insert_log_ok s d rows e j Hdb Hrows Hnew).
      destruct (new_rowid_above _ _ _ Hnew) as [_ Hbelow].
      unfold entries. simpl. rewrite map_app. simpl.
      apply StronglySorted_snoc; [exact Hs|].
      apply (proj2 (List.Forall_map _ _ _)). exact Hbelow.
    + rewrite (insert_log_full s d rows e Hdb Hrows Hnew).
      unfold entries. simpl. rewrite Hdb, Hrows. exact Hs.
  - unfold step.
    destruct Hh as ([files Hu] & Hrest).
    rewrite (clear_logs_written s d rows files Hdb Hrows Hu)
      by (apply Hrest).
    unfold entries. simpl. constructor.
  - unfold step, interval_fires.
    destruct (intervals s);
      [unfold entries; rewrite Hdb, Hrows; exact Hs|].
    destruct (autoHourlyBackup_healthy s d now Hdb Hh)
      as (s' & Hrun & Hdb' & _).
    rewrite Hrun. simpl. unfold entries. rewrite Hdb', Hrows. exact Hs.
  - destruct (restart_healthy s d rows Hdb Hrows Hh) as (Hdb' & _).
    unfold entries. rewrite Hdb', Hrows. exact Hs.
Qed.

(** X18: on a healthy disk the table stays in strictly increasing order of
    id along every run of inserts, clears, backup ticks and restarts that
    starts from a table in that order: no two entries share an id, the
    export query gives the table as it is, and load-logs replies with the
    entries in exactly the reverse of the order they were inserted in. *)
Theorem runs_keep_the_table_in_id_order (ops : list Op) (s : State) :
  store_ok s -> healthy (disk s) -> ids_increasing s ->
  ids_increasing (run ops s) ∧
  NoDup (map Sql.id (entries (run ops s))) ∧
  Sql.order_by_id Sql.ASC (entries (run ops s)) = entries (run ops s) ∧
  (load_logs (run ops s)).1 = Ok (rev (map row_object (entries (run ops s)))).
Proof.
  intros Hok Hh Hs.
  assert (Hinv : ids_increasing (run ops s)).
  { revert s Hok Hh Hs. induction ops as [|o ops IH]; intros s Hok Hh Hs;
      [exact Hs|].
    simpl. destruct (step_store_ok o s Hok Hh) as (Hok' & Hh' & _).
    apply IH; [exact Hok' | exact Hh' | apply step_ids_increasing; assumption]. }
  split; [exact Hinv|].
  split; [apply StronglySorted_lt_NoDup; exact Hinv|].
  destruct (order_by_id_increasing _ Hinv) as [Hasc Hdesc].
  split; [exact Hasc|].
  rewrite load_logs_reply, Hdesc, map_rev. reflexivity.
Qed.

Lemma clear_logs_throws s d err :
  db s = Some d -> Sql.execute Sql.DELETE_ALL d = Throw err ->
  clear_logs s =
    (Ok (Failure (message err)),
     upd_console ERROR ("Error clearing SQL database: " +:+ message err) s).
Proof.
  intros Hdb Hex. unfold clear_logs.
  unfold mbind, M_bind, bind, mret, M_ret, ret, try_catch. simpl. rewrite Hdb.
  unfold db_run. unfold mbind, M_bind, bind.
  erewrite db_exec_throw; [| exact Hdb | exact Hex].
  reflexivity.
Qed.

(** X19: clear-logs never throws, and whatever it replies no entry is left
    in memory afterwards; the recorded sequence is kept, so ids are not
    given out again; no file but the persistent file is touched.  A
    success means that [lastLogId] is 0, and a failure of the DELETE
    itself (no table, or a file that is not a database) changes neither
    the database nor [lastLogId] nor the disk. *)
Theorem clear_logs_never_throws (s : State) :
  entries (clear_logs s).2 = [] ∧
  seq_of (clear_logs s).2 = seq_of s ∧
  (∀ q, q ≠ dbPath ->
        Fs.lookup_file q (disk (clear_logs s).2) = Fs.lookup_file q (disk s)) ∧
  match (clear_logs s).1 with
  | Ok Success => lastLogId (clear_logs s).2 = VNum 0
  | Ok (Failure _) =>
      (∀ d, db s = Some d -> (∀ rows, Sql.network_log d ≠ Sql.Table rows) ->
            db (clear_logs s).2 = db s ∧
            lastLogId (clear_logs s).2 = lastLogId s ∧
            disk (clear_logs s).2 = disk s)
  | Throw _ => False
  end.
Proof.
  destruct (db s) as [d|] eqn:Hdb.
  - destruct (Sql.network_log d) as [rows| |] eqn:Hrows.
    + destruct (Fs.tree (disk s) !! userData) as [files|] eqn:Hu.
      * destruct (decide (dbPath ∈ Fs.wdeny (disk s))) as [Hw|Hw].
        -- rewrite (clear_logs_denied s d rows Hdb Hrows (mk_is_Some _ _ Hu) Hw).
           unfold entries, seq_of. simpl. rewrite Hdb.
           split; [reflexivity|]. split; [reflexivity|]. split; [reflexivity|].
           intros d' Hd' Hno. inversion Hd'; subst d'.
           exfalso. exact (Hno rows Hrows).
        -- rewrite (clear_logs_written s d rows files Hdb Hrows Hu Hw).
           unfold entries, seq_of. simpl. rewrite Hdb.
           split; [reflexivity|]. split; [reflexivity|]. split; [|reflexivity].
           intros q Hq. apply lookup_file_store_ne; [exact Hu | exact Hq].
      * rewrite (clear_logs_enoent s d rows Hdb Hrows Hu).
        unfold entries, seq_of. simpl. rewrite Hdb.
        split; [reflexivity|]. split; [reflexivity|]. split; reflexivity.
    + rewrite (clear_logs_throws s d Sql.no_such_table Hdb)
        by (unfold Sql.execute; rewrite Hrows; reflexivity).
      unfold entries, seq_of. simpl. rewrite Hdb, Hrows.
      split; [reflexivity|]. split; [reflexivity|]. split; [reflexivity|].
      intros d' _ _. split; [reflexivity|]. split; reflexivity.
    + rewrite (clear_logs_throws s d Sql.not_a_database Hdb)
        by (unfold Sql.execute; rewrite Hrows; reflexivity).
      unfold entries, seq_of. simpl. rewrite Hdb, Hrows.
      split; [reflexivity|]. split; [reflexivity|]. split; [reflexivity|].
      intros d' _ _. split; [reflexivity|]. split; reflexivity.
  - assert (Hrun : clear_logs s = (Ok (Failure "Database not ready."), s)).
    { unfold clear_logs. unfold mbind, M_bind, bind, mret, M_ret, ret.
      simpl. rewrite Hdb. reflexivity. }
    rewrite Hrun. unfold entries, seq_of. simpl. rewrite Hdb.
    split; [reflexivity|]. split; [reflexivity|]. split; [reflexivity|].
    intros d Hd. discriminate.
Qed.

(** **** The scenario of two inserts *)

Lemma max_id_le rows q m :
  Forall (fun r => Sql.id r <= q) rows -> Sql.max_id rows = Some m -> m <= q.
Proof.
  intros Hall. revert m. induction Hall as [|r rows Hr Hall IH]; intros m Hm;
    [discriminate|].
  simpl in Hm. destruct (Sql.max_id rows) as [m'|].
  - inversion Hm; subst m. pose proof (IH m' eq_refl). lia.
  - inversion Hm; subst m. exact Hr.
Qed.

(** With no id above the sequence [q], the next id is [q + 1]. *)
Lemma new_rowid_after q rows :
  0 <= q < 2 ^ 53 -> Forall (fun r => Sql.id r <= q) rows ->
  Sql.new_rowid rows q = Some (q + 1).
Proof.
  intros Hq Hall. unfold Sql.new_rowid, Sql.MAX_ROWID. cbv zeta.
  assert (Hm : match Sql.max_id rows with Some m => m | None => 0 end <= q).
  { destruct (Sql.max_id rows) as [m|] eqn:Hmax; [|lia].
    exact (max_id_le rows q m Hall Hmax). }
  change (2 ^ 53) with 9007199254740992 in Hq.
  destruct (_ =? 9223372036854775807) eqn:E1; [apply Z.eqb_eq in E1; lia|].
  destruct (q =? 9223372036854775807) eqn:E2; [apply Z.eqb_eq in E2; lia|].
  simpl. f_equal. lia.
Qed.

(** C8: in the store made by inserting the DOWN entry and then the UP
    entry into an empty store whose recorded sequence is [q], the largest
    id ever given out, the entries have the ids [q + 1] and [q + 2]:
    load-logs gives the UP entry with id [q + 2] before the DOWN entry with
    id [q + 1], and export-log-csv writes the header
    ID,Timestamp_ISO,Status followed by the rows in ascending order of id,
    the timestamp and only the timestamp between double quotes.  In the
    store of a first start [q] is 0 and the ids are 1 and 2. *)
Theorem two_inserts_then_query_and_export (s0 : State) (q : Z) (p : Fs.path) :
  0 <= q -> q + 2 < 2 ^ 53 ->
  let s2 := (insert_log up_entry
               (insert_log down_entry
                  (upd_db {| Sql.network_log := Sql.Table [];
                             Sql.sqlite_sequence := q |} s0)).2).2 in
  (load_logs s2).1 =
    Ok [ [("id", VNum (q + 2)); ("timestamp", VStr "2024-01-01T00:05:00Z");
          ("status", VStr "UP")];
         [("id", VNum (q + 1)); ("timestamp", VStr "2024-01-01T00:00:00Z");
          ("status", VStr "DOWN")] ] ∧
  (export_log_csv (Some p) s2).1 =
    match Fs.writeFileSync p (list_byte_of_string (two_rows_csv q)) (disk s0) with
    | Ok _ => Ok {| success := true;
                    text := "CSV exported successfully to: " +:+ Fs.path_str p |}
    | Throw error => Ok {| success := false;
                           text := "CSV Export failed: " +:+ message error |}
    end ∧
  disk (export_log_csv (Some p) s2).2 =
    match Fs.writeFileSync p (list_byte_of_string (two_rows_csv q)) (disk s0) with
    | Ok fs' => fs'
    | Throw _ => disk s0
    end ∧
  two_rows_csv 0 = expected_csv.
Proof.
  intros Hq0 Hq s2. subst s2.
  set (r1 := Sql.mkRow (q + 1) "2024-01-01T00:00:00Z" "DOWN").
  set (r2 := Sql.mkRow (q + 2) "2024-01-01T00:05:00Z" "UP").
  set (d0 := {| Sql.network_log := Sql.Table []; Sql.sqlite_sequence := q |}).
  pose (d1 := {| Sql.network_log := Sql.Table [r1];
                 Sql.sqlite_sequence := q + 1 |}).
  pose (s1 := upd_lastLogId (VNum (Sql.to_number (q + 1)))
                (upd_db d1 (upd_db d0 s0))).
  pose (d2 := {| Sql.network_log := Sql.Table [r1; r2];
                 Sql.sqlite_sequence := q + 2 |}).
  pose (s2 := upd_lastLogId (VNum (Sql.to_number (q + 2))) (upd_db d2 s1)).
  assert (E1 : insert_log down_entry (upd_db d0 s0) = (Ok Success, s1)).
  { apply (insert_log_ok (upd_db d0 s0) d0 [] down_entry (q + 1) eq_refl eq_refl).
    apply (new_rowid_after q []); [lia | constructor]. }
  assert (E2 : insert_log up_entry s1 = (Ok Success, s2)).
  { apply (insert_log_ok s1 d1 [r1] up_entry (q + 2) eq_refl eq_refl).
    replace (q + 2) with (q + 1 + 1) by lia.
    apply (new_rowid_after (q + 1) [r1]);
      [lia | constructor; [simpl; lia | constructor]]. }
  rewrite E1. cbn [snd]. rewrite E2. cbn [snd].
  assert (Hdb : db s2 = Some d2) by reflexivity.
  assert (Hrows : Sql.network_log d2 = Sql.Table [r1; r2]) by reflexivity.
  assert (Hdisk : disk s2 = disk s0) by reflexivity.
  assert (Hentries : entries s2 = [r1; r2]) by reflexivity.
  assert (Hsorted : StronglySorted Z.lt (map Sql.id [r1; r2])).
  { simpl. repeat constructor. lia. }
  destruct (order_by_id_increasing _ Hsorted) as [Hasc Hdesc].
  assert (Hload : map row_object (rev [r1; r2]) =
                  [ [("id", VNum (q + 2)); ("timestamp", VStr "2024-01-01T00:05:00Z");
                     ("status", VStr "UP")];
                    [("id", VNum (q + 1)); ("timestamp", VStr "2024-01-01T00:00:00Z");
                     ("status", VStr "DOWN")] ]).
  { unfold row_object. simpl. rewrite !to_number_exact by lia. reflexivity. }
  assert (Hcsv : csv_content (map Sql.row_values [r1; r2]) = two_rows_csv q).
  { unfold csv_content, two_rows_csv. cbn [map].
    rewrite (csv_row_exact r1), (csv_row_exact r2) by (simpl; lia).
    reflexivity. }
  clear E1 E2. clearbody s2 d2 r1 r2.
  assert (Hexport :
    export_log_csv (Some p) s2 =
      match Fs.writeFileSync p (list_byte_of_string (two_rows_csv q)) (disk s0) with
      | Ok fs' =>
          (Ok {| success := true;
                 text := "CSV exported successfully to: " +:+ Fs.path_str p |},
           upd_disk fs' s2)
      | Throw error =>
          (Ok {| success := false;
                 text := "CSV Export failed: " +:+ message error |}, s2)
      end).
  { unfold export_log_csv.
    unfold mbind, M_bind, bind, mret, M_ret, ret, try_catch. simpl. rewrite Hdb.
    rewrite (select_asc_rows s2 d2 [r1; r2] Hdb Hrows).
    cbv beta iota zeta. cbn [Sql.values]. unfold fs_write.
    rewrite Hasc, Hcsv, Hdisk.
    destruct (Fs.writeFileSync p _ (disk s0)); reflexivity. }
  split; [rewrite load_logs_reply, Hentries, Hdesc, Hload; reflexivity|].
  rewrite Hexport.
  destruct (Fs.writeFileSync p _ (disk s0));
    (split; [reflexivity|]); (split; [simpl; auto | vm_compute; reflexivity]).
Qed.

End Main.

(** ** The properties on concrete inputs *)

(** Closed decidable facts, by evaluation. *)
Ltac by_eval :=
  match goal with
  | |- ?P => refine (bool_decide_unpack P _); vm_compute; exact I
  end.

(** The disk of the examples is healthy. *)
Lemma ex_disk_healthy : healthy ex_home ex_disk.
Proof. repeat split; by_eval. Defined.

(** The round trip after the two inserts of the scenario. *)
Lemma backup_then_load_round_trip_witness :
  tracked ex_started ∧ healthy ex_home (disk ex_started) ∧
  let s := run ex_home ex_clock (map Insert [down_entry; up_entry]) ex_started in
  ∃ s1 s2,
    performBackup (dbPath ex_home) s = (Ok tt, s1) ∧
    initializeDatabase ex_home (boot (disk s1)) = (Ok tt, s2) ∧
    db s2 = db s ∧ entries s2 = entries s ∧ lastLogId s2 = lastLogId s ∧
    ∀ e, assigned_id e s2 = assigned_id e s.
Proof.
  assert (Ht : tracked ex_started).
  { eexists _, _. repeat split; reflexivity. }
  split; [exact Ht|]. split; [exact ex_disk_healthy|].
  exact (backup_then_load_round_trip ex_home ex_clock ex_started
           [down_entry; up_entry] Ht ex_disk_healthy).
Defined.

(** Clearing the store of two entries, then starting again. *)
Lemma clear_logs_empties_and_flushes_witness :
  db ex_logged = Some ex_db ∧
  dirs_ready ex_home (disk ex_logged) ∧
  let s' := (clear_logs ex_home ex_logged).2 in
  (clear_logs ex_home ex_logged).1 = Ok Success ∧
  entries s' = [] ∧ lastLogId s' = VNum 0 ∧
  Fs.lookup_file (dbPath ex_home) (disk s') = Some (export (emptied ex_db)) ∧
  ∃ s2, initializeDatabase ex_home (boot (disk s')) = (Ok tt, s2) ∧
        db s2 = Some (emptied ex_db) ∧ entries s2 = [] ∧ lastLogId s2 = VNum 0.
Proof.
  assert (Hready : dirs_ready ex_home (disk ex_logged))
    by (left; vm_compute; reflexivity).
  assert (Hdir : is_Some (Fs.tree (disk ex_logged) !! ex_home)) by by_eval.
  assert (Hw : dbPath ex_home ∉ Fs.wdeny (disk ex_logged)) by by_eval.
  assert (Hr : dbPath ex_home ∉ Fs.rdeny (disk ex_logged)) by by_eval.
  split; [reflexivity|]. split; [exact Hready|]. cbv zeta.
  pose proof (clear_logs_empties_and_flushes ex_home ex_logged ex_db
                [Sql.mkRow 1 "2024-01-01T00:00:00Z" "DOWN";
                 Sql.mkRow 2 "2024-01-01T00:05:00Z" "UP"]
                eq_refl eq_refl Hready) as Hclear.
  cbv zeta in Hclear.
  destruct Hclear as (Hentries & Hid & Hwrite & Hreload).
  destruct (Hwrite Hdir Hw) as [Hreply Hfile].
  destruct (Hreload Hreply)
    as (s2 & d2 & Hrun & Hdb2 & _ & Hentries2 & Hid2 & Hsame).
  rewrite (Hsame Hdir Hr) in Hdb2.
  split; [exact Hreply|]. split; [exact Hentries|]. split; [exact Hid|].
  split; [exact Hfile|].
  exists s2. repeat split; assumption.
Defined.

(** An insert into the cleared store: the id 3 follows the sequence 2,
    whatever [lastLogId] says. *)
Lemma insert_log_assigns_next_in_sequence_witness :
  lastLogId ex_cleared = VNum 0 ∧
  let s' := (insert_log up_entry ex_cleared).2 in
  (insert_log up_entry ex_cleared).1 = Ok Success ∧
  entries s' = [Sql.mkRow 3 "2024-01-01T00:05:00Z" "UP"] ∧
  lastLogId s' = VNum 3 ∧ seq_of s' = 3.
Proof.
  split; [reflexivity|].
  destruct (insert_log_assigns_next_in_sequence ex_cleared
              {| Sql.network_log := Sql.Table []; Sql.sqlite_sequence := 2 |} []
              up_entry)
    as (Hr & He & Hs & Hl & _).
  - reflexivity.
  - reflexivity.
  - constructor.
  - simpl; lia.
  - reflexivity.
  - repeat split; assumption.
Defined.

(** C3 fails as stated: after one insert and a clear, [lastLogId] is 0 and
    the next insert gives the id 2, not 1; the reply is [{ success: true }]
    and holds no id. *)
Lemma insert_after_clear_counterexample :
  let s := step ex_home ex_clock Clear
             (step ex_home ex_clock (Insert down_entry) ex_started) in
  entries s = [] ∧ lastLogId s = VNum 0 ∧
  assigned_id up_entry s = Some 2 ∧
  (insert_log up_entry s).1 = Ok Success ∧
  lastLogId (insert_log up_entry s).2 = VNum 2.
Proof. vm_compute. repeat split; reflexivity. Qed.

(** A run with a tick, a clear and a restart between three inserts. *)
Lemma assigned_ids_strictly_increasing_witness :
  store_ok ex_started ∧ healthy ex_home (disk ex_started) ∧
  let ops := [Insert down_entry; Tick ex_noon; Clear; Insert up_entry; Restart;
              Insert down_entry] in
  StronglySorted Z.lt (assigned ex_home ex_clock ops ex_started) ∧
  Forall (fun i => seq_of ex_started < i ∧
                   Forall (fun r => Sql.id r < i) (entries ex_started))
         (assigned ex_home ex_clock ops ex_started).
Proof.
  assert (Hok : store_ok ex_started).
  { eexists _, _. split; [reflexivity|]. split; [reflexivity|].
    split; [constructor | simpl; lia]. }
  split; [exact Hok|]. split; [exact ex_disk_healthy|].
  exact (assigned_ids_strictly_increasing ex_home ex_clock _ ex_started
           Hok ex_disk_healthy).
Defined.

(** A first start, with no persistent file. *)
Lemma start_empty_without_image_witness :
  dirs_ready ex_home ex_disk ∧ Fs.lookup_file (dbPath ex_home) ex_disk = None ∧
  ∃ s', initializeDatabase ex_home (boot ex_disk) = (Ok tt, s') ∧
        db s' = Some fresh_db ∧ entries s' = [] ∧ lastLogId s' = VNum 0 ∧
        only_logs (console s').
Proof.
  assert (Hready : dirs_ready ex_home ex_disk) by (left; vm_compute; reflexivity).
  assert (Habsent : Fs.lookup_file (dbPath ex_home) ex_disk = None)
    by (vm_compute; reflexivity).
  split; [exact Hready|]. split; [exact Habsent|].
  exact (start_empty_without_image ex_home ex_disk Hready (or_introl Habsent)).
Defined.

(** C5 fails as stated: a persistent file that exists and holds the image
    of a database with two entries, but cannot be read, is taken as
    starting empty, without an error, exactly as an absent file is. *)
Lemma present_file_starts_empty_counterexample :
  Fs.lookup_file (dbPath ex_home) ex_unreadable = Some (export ex_db) ∧
  open_image (export ex_db) = Some ex_db ∧
  ∃ s', initializeDatabase ex_home (boot ex_unreadable) = (Ok tt, s') ∧
        db s' = Some fresh_db ∧ entries s' = [] ∧ lastLogId s' = VNum 0 ∧
        console s' = [(LOG, "Created new in-memory SQL.js database.");
                      (LOG, "Network logs table ensured.")].
Proof.
  split; [vm_compute; reflexivity|]. split; [apply open_export|].
  eexists. split; [vm_compute; reflexivity|]. repeat split; reflexivity.
Qed.



(** A tick at one o'clock keeps the archive of noon. *)
Lemma archives_of_different_times_are_kept_witness :
  valid_date ex_noon ∧ valid_date ex_one ∧ ex_noon ≠ ex_one ∧
  backupFileName ex_noon ≠ backupFileName ex_one ∧
  Fs.lookup_file (backupDir ex_home, backupFileName ex_noon)
    (disk (autoHourlyBackup ex_home ex_clock ex_one ex_logged).2)
  = Fs.lookup_file (backupDir ex_home, backupFileName ex_noon) (disk ex_logged).
Proof.
  assert (Hv1 : valid_date ex_noon) by (repeat split; reflexivity).
  assert (Hv2 : valid_date ex_one) by (repeat split; reflexivity).
  assert (Hne : ex_noon ≠ ex_one) by discriminate.
  split; [exact Hv1|]. split; [exact Hv2|]. split; [exact Hne|].
  destruct (archives_of_different_times_are_kept ex_home ex_clock ex_noon ex_one
              ex_logged Hv1 Hv2 Hne) as (Hnames & Hkept & _).
  split; [exact Hnames | exact Hkept].
Defined.

(** C6 fails as stated: two ticks with the same capture time, an insert
    between them, write the same archive; after the second tick the backup
    directory holds one file, with the second image, and the first image is
    gone. *)
Lemma same_time_archive_is_overwritten_counterexample :
  let arch := (backupDir ex_home, backupFileName ex_noon) in
  let s1 := step ex_home ex_clock (Tick ex_noon)
              (step ex_home ex_clock (Insert down_entry) ex_started) in
  let s2 := step ex_home ex_clock (Tick ex_noon)
              (step ex_home ex_clock (Insert up_entry) s1) in
  ∃ d1 d2,
    db s1 = Some d1 ∧ db s2 = Some d2 ∧
    Fs.lookup_file arch (disk s1) = Some (export d1) ∧
    Fs.lookup_file arch (disk s2) = Some (export d2) ∧
    export d1 ≠ export d2 ∧
    size <$> (Fs.tree (disk s2) !! backupDir ex_home) = Some 1%nat.
Proof.
  intros arch s1 s2. eexists _, _.
  split; [vm_compute; reflexivity|]. split; [vm_compute; reflexivity|].
  split; [vm_compute; reflexivity|]. split; [vm_compute; reflexivity|].
  split; [|vm_compute; reflexivity].
  intros Heq. apply (f_equal open_image) in Heq.
  rewrite !open_export in Heq. discriminate.
Qed.

(** A tick on a disk that refuses to write the persistent file. *)
Lemma scheduled_flush_failure_is_not_logged_witness :
  db ex_locked = Some ex_db ∧
  is_Some (Fs.tree (disk ex_locked) !! ex_home) ∧
  dbPath ex_home ∈ Fs.wdeny (disk ex_locked) ∧
  autoHourlyBackup ex_home ex_clock ex_noon ex_locked
  = (Throw export_failed, ex_locked) ∧
  console (interval_fires ex_home ex_clock ex_noon ex_locked) = console ex_locked ∧
  disk (interval_fires ex_home ex_clock ex_noon ex_locked) = disk ex_locked ∧
  before_quit ex_home ex_locked =
    (Ok tt, upd_console ERROR
              ("Final persistence save failed: " +:+ message export_failed)
              ex_locked).
Proof.
  assert (Hdir : is_Some (Fs.tree (disk ex_locked) !! ex_home)) by by_eval.
  assert (Hw : dbPath ex_home ∈ Fs.wdeny (disk ex_locked)) by by_eval.
  split; [reflexivity|]. split; [exact Hdir|]. split; [exact Hw|].
  exact (scheduled_flush_failure_is_not_logged ex_home ex_clock ex_noon ex_locked
           ex_db eq_refl Hdir Hw).
Defined.

(** The two inserts into the store of a first start. *)
Lemma two_inserts_then_query_and_export_witness :
  0 <= 0 ∧ 0 + 2 < 2 ^ 53 ∧
  let s2 := (insert_log up_entry
               (insert_log down_entry (upd_db fresh_db ex_started)).2).2 in
  (load_logs s2).1 =
    Ok [ [("id", VNum 2); ("timestamp", VStr "2024-01-01T00:05:00Z");
          ("status", VStr "UP")];
         [("id", VNum 1); ("timestamp", VStr "2024-01-01T00:00:00Z");
          ("status", VStr "DOWN")] ] ∧
  (export_log_csv (Some (["data"], "log.csv")) s2).1 =
    Ok {| success := true;
          text := "CSV exported successfully to: data/log.csv" |} ∧
  Fs.lookup_file (["data"], "log.csv")
    (disk (export_log_csv (Some (["data"], "log.csv")) s2).2) =
    Some (list_byte_of_string expected_csv).
Proof.
  assert (H0 : 0 <= 0) by lia.
  assert (H2 : 0 + 2 < 2 ^ 53) by reflexivity.
  split; [exact H0|]. split; [exact H2|]. cbv zeta.
  pose proof (two_inserts_then_query_and_export ex_started 0
                (["data"], "log.csv") H0 H2) as Hrun.
  cbv zeta in Hrun. destruct Hrun as (Hload & Hreply & Hdisk & _).
  split; [exact Hload|]. split.
  - etransitivity; [exact Hreply|]. vm_compute. reflexivity.
  - etransitivity;
      [exact (f_equal (Fs.lookup_file (["data"], "log.csv")) Hdisk)|].
    vm_compute. reflexivity.
Defined.

(** C8 fails as stated: the store that clear-logs leaves is empty as
    well, and the same two inserts into it give the ids 3 and 4, as the
    sequence stands at 2: load-logs gives the UP entry with id 4 before
    the DOWN entry with id 3, and the rows of the export begin with 3 and
    with 4. *)
Lemma two_inserts_after_clear_counterexample :
  db (clear_logs ex_home ex_logged).2 = db ex_cleared ∧
  entries ex_cleared = [] ∧
  let s2 := (insert_log up_entry (insert_log down_entry ex_cleared).2).2 in
  (load_logs s2).1 =
    Ok [ [("id", VNum 4); ("timestamp", VStr "2024-01-01T00:05:00Z");
          ("status", VStr "UP")];
         [("id", VNum 3); ("timestamp", VStr "2024-01-01T00:00:00Z");
          ("status", VStr "DOWN")] ] ∧
  (export_log_csv (Some (["data"], "log.csv")) s2).1 =
    Ok {| success := true;
          text := "CSV exported successfully to: data/log.csv" |} ∧
  Fs.lookup_file (["data"], "log.csv")
    (disk (export_log_csv (Some (["data"], "log.csv")) s2).2) =
    Some (list_byte_of_string
            ("ID,Timestamp_ISO,Status" +:+ newline +:+
             "3," +:+ dquote +:+ "2024-01-01T00:00:00Z" +:+ dquote +:+ ",DOWN"
             +:+ newline +:+
             "4," +:+ dquote +:+ "2024-01-01T00:05:00Z" +:+ dquote +:+ ",UP")).
Proof. cbv zeta. repeat split; vm_compute; reflexivity. Qed.

(** *** Further properties on concrete inputs *)

(** The three refusals of the export: no database, an empty table, a
    cancelled dialog. *)
Lemma export_log_csv_without_entries_or_path_witness :
  export_log_csv None ex_unready =
    (Ok {| success := false; text := "Database not ready." |}, ex_unready) ∧
  export_log_csv None ex_started =
    (Ok {| success := false; text := "No logs to export." |}, ex_started) ∧
  export_log_csv None ex_logged =
    (Ok {| success := false; text := "Export canceled by user." |}, ex_logged).
Proof.
  split; [|split].
  - apply (proj1 (export_log_csv_without_entries_or_path ex_unready None)).
    reflexivity.
  - eapply (proj1 (proj2 (export_log_csv_without_entries_or_path ex_started None)));
      reflexivity.
  - eapply (proj2 (proj2 (export_log_csv_without_entries_or_path ex_logged None)));
      [reflexivity | reflexivity | discriminate].
Defined.

(** The export of the two entries to a file of the data directory. *)
Lemma export_log_csv_writes_entries_oldest_first_witness :
  db ex_logged = Some ex_db ∧
  ∃ fs', export_log_csv (Some (["data"], "log.csv")) ex_logged =
           (Ok {| success := true;
                  text := "CSV exported successfully to: data/log.csv" |},
            upd_disk fs' ex_logged) ∧
         Fs.lookup_file (["data"], "log.csv") fs'
         = Some (list_byte_of_string expected_csv).
Proof.
  split; [reflexivity|].
  assert (Hne : [Sql.mkRow 1 "2024-01-01T00:00:00Z" "DOWN";
                 Sql.mkRow 2 "2024-01-01T00:05:00Z" "UP"] ≠ []) by discriminate.
  destruct (export_log_csv_writes_entries_oldest_first ex_logged ex_db _
              (["data"], "log.csv") eq_refl eq_refl Hne) as (_ & _ & Hw & _).
  destruct (Fs.writeFileSync _ _ _) as [fs'|e] eqn:Hwrite.
  - exists fs'. destruct Hw as (Hrun & Hfile & _). split; [exact Hrun | exact Hfile].
  - vm_compute in Hwrite. discriminate Hwrite.
Defined.

(** A flush without a database throws and changes nothing. *)
Lemma performBackup_outcomes_witness :
  performBackup (dbPath ex_home) ex_unready =
    (Throw (Error "Database not initialized. Cannot perform backup."), ex_unready).
Proof.
  apply (proj1 (proj2 (proj2 (proj2
           (performBackup_outcomes (dbPath ex_home) ex_unready))))).
  reflexivity.
Defined.

(** A tick before the database is there does nothing. *)
Lemma tick_touches_only_its_two_files_witness :
  autoHourlyBackup ex_home ex_clock ex_noon ex_unready = (Ok tt, ex_unready).
Proof.
  apply (tick_touches_only_its_two_files ex_home ex_clock ex_noon ex_unready).
  reflexivity.
Defined.

(** The tick of noon with two entries in the store. *)
Lemma tick_archives_a_copy_of_the_file_witness :
  db ex_logged = Some ex_db ∧ healthy ex_home (disk ex_logged) ∧
  ∃ s', autoHourlyBackup ex_home ex_clock ex_noon ex_logged = (Ok tt, s') ∧
        Fs.lookup_file (dbPath ex_home) (disk s') = Some (export ex_db) ∧
        Fs.lookup_file (backupDir ex_home,
                        "network_log_backup_2024-01-01T12-00-00-000Z.db") (disk s')
        = Some (export ex_db) ∧
        sent s' = ["Last Auto Backup: 12"].
Proof.
  split; [reflexivity|]. split; [exact ex_disk_healthy|].
  destruct (tick_archives_a_copy_of_the_file ex_home ex_clock ex_noon ex_logged
              ex_db eq_refl ex_disk_healthy)
    as (s' & Hrun & Hfile & Harchive & _ & Hsent); [by_eval|].
  exists s'. repeat split; assumption.
Defined.


(** The handlers on a disk without any directory. *)
Lemma missing_directory_is_taken_for_saved_witness :
  Fs.tree (disk ex_bare) !! ex_home = None ∧
  (clear_logs ex_home ex_bare).1 = Ok Success ∧
  (autoHourlyBackup ex_home ex_clock ex_noon ex_bare).1 = Ok tt ∧
  before_quit ex_home ex_bare =
    (Ok tt, upd_console LOG "Final save to persistent file complete before quit."
              ex_bare) ∧
  Fs.lookup_file (dbPath ex_home) (disk ex_bare) = None.
Proof.
  split; [reflexivity|].
  destruct (missing_directory_is_taken_for_saved ex_home ex_clock ex_noon ex_bare
              ex_db _ eq_refl eq_refl eq_refl eq_refl)
    as ((Hclear & _) & (Htick & _) & Hquit & Hfile & _).
  repeat split; assumption.
Defined.

(** Quitting on a disk that refuses the final save. *)
Lemma before_quit_never_throws_witness :
  before_quit ex_home ex_locked =
    (Ok tt, upd_console ERROR
              ("Final persistence save failed: " +:+ message export_failed)
              ex_locked).
Proof.
  apply (proj2 (proj2 (proj2 (proj2 (proj2
           (before_quit_never_throws ex_home ex_locked))))) ex_db).
  - reflexivity.
  - by_eval.
  - by_eval.
Defined.

(** Two inserts, then quit and start again. *)
Lemma quit_and_restart_keeps_entries_witness :
  healthy ex_home (disk ex_started) ∧
  let s := run ex_home ex_clock (map Insert [down_entry; up_entry]) ex_started in
  db s = Some ex_db ∧
  db (step ex_home ex_clock Restart s) = Some ex_db ∧
  entries (step ex_home ex_clock Restart s) =
    [Sql.mkRow 1 "2024-01-01T00:00:00Z" "DOWN";
     Sql.mkRow 2 "2024-01-01T00:05:00Z" "UP"] ∧
  lastLogId (step ex_home ex_clock Restart s) = VNum 2.
Proof.
  split; [exact ex_disk_healthy|]. cbv zeta. split; [reflexivity|].
  destruct (quit_and_restart_keeps_entries ex_home ex_clock ex_started
              [down_entry; up_entry] ex_db _ eq_refl eq_refl ex_disk_healthy)
    as (Hdb & Hentries & Hid & _).
  repeat split; assumption.
Defined.

(** A start on the image of the two entries. *)
Lemma start_from_an_image_witness :
  dirs_ready ex_home ex_saved ∧
  Fs.lookup_file (dbPath ex_home) ex_saved = Some (export ex_db) ∧
  ∃ s', initializeDatabase ex_home (boot ex_saved) = (Ok tt, s') ∧
        db s' = Some ex_db ∧ seq_of s' = 2 ∧ lastLogId s' = VNum 2.
Proof.
  assert (Hready : dirs_ready ex_home ex_saved) by (left; vm_compute; reflexivity).
  assert (Hfile : Fs.lookup_file (dbPath ex_home) ex_saved = Some (export ex_db))
    by (vm_compute; reflexivity).
  split; [exact Hready|]. split; [exact Hfile|].
  destruct (start_from_an_image ex_home ex_saved ex_db
              [Sql.mkRow 1 "2024-01-01T00:00:00Z" "DOWN";
               Sql.mkRow 2 "2024-01-01T00:05:00Z" "UP"] Hready Hfile)
    as (s' & Hrun & Hdb & _ & Hseq & Hid & _); [by_eval | reflexivity|].
  exists s'. repeat split; assumption.
Defined.

(** A clear on a write-protected persistent file, then a restart. *)
Lemma clear_logs_refused_write_clears_memory_only_witness :
  dbPath ex_home ∈ Fs.wdeny (disk ex_stale) ∧
  Fs.lookup_file (dbPath ex_home) (disk ex_stale) = Some (export ex_db) ∧
  (clear_logs ex_home ex_stale).1 = Ok (Failure (message export_failed)) ∧
  entries (clear_logs ex_home ex_stale).2 = [] ∧
  ∃ s2, initializeDatabase ex_home (boot (disk (clear_logs ex_home ex_stale).2))
        = (Ok tt, s2) ∧
        entries s2 = [Sql.mkRow 1 "2024-01-01T00:00:00Z" "DOWN";
                      Sql.mkRow 2 "2024-01-01T00:05:00Z" "UP"].
Proof.
  assert (Hw : dbPath ex_home ∈ Fs.wdeny (disk ex_stale)) by by_eval.
  assert (Hfile : Fs.lookup_file (dbPath ex_home) (disk ex_stale)
                  = Some (export ex_db)) by (vm_compute; reflexivity).
  split; [exact Hw|]. split; [exact Hfile|].
  destruct (clear_logs_refused_write_clears_memory_only ex_home ex_stale ex_db _
              eq_refl eq_refl)
    as (Hreply & Hentries & _ & _ & Hrestart); [by_eval | exact Hw|].
  split; [exact Hreply|]. split; [exact Hentries|].
  apply Hrestart; [left; vm_compute; reflexivity | by_eval | exact Hfile].
Defined.

(** A run with a tick, a clear and a restart between three inserts. *)
Lemma runs_keep_the_table_in_id_order_witness :
  store_ok ex_started ∧ healthy ex_home (disk ex_started) ∧
  ids_increasing ex_started ∧
  let ops := [Insert down_entry; Tick ex_noon; Clear; Insert up_entry; Restart;
              Insert down_entry] in
  ids_increasing (run ex_home ex_clock ops ex_started) ∧
  NoDup (map Sql.id (entries (run ex_home ex_clock ops ex_started))) ∧
  (load_logs (run ex_home ex_clock ops ex_started)).1 =
    Ok (rev (map row_object (entries (run ex_home ex_clock ops ex_started)))).
Proof.
  assert (Hok : store_ok ex_started).
  { eexists _, _. split; [reflexivity|]. split; [reflexivity|].
    split; [constructor | simpl; lia]. }
  assert (Hs : ids_increasing ex_started) by constructor.
  split; [exact Hok|]. split; [exact ex_disk_healthy|]. split; [exact Hs|].
  cbv zeta.
  destruct (runs_keep_the_table_in_id_order ex_home ex_clock
              [Insert down_entry; Tick ex_noon; Clear; Insert up_entry; Restart;
               Insert down_entry] ex_started Hok ex_disk_healthy Hs)
    as (Hinv & Hnodup & _ & Hload).
  repeat split; assumption.
Defined.

(** *** The renderings on concrete inputs *)

(** An id of 2^60 is written as JavaScript prints that double, and the
    largest rowid as the double next to it. *)
Lemma csv_row_of_a_large_id :
  csv_row (Sql.row_values (Sql.mkRow (2 ^ 60) "2024-01-01T00:00:00Z" "UP")) =
    "1152921504606847000," +:+ dquote +:+ "2024-01-01T00:00:00Z" +:+ dquote
    +:+ ",UP" ∧
  to_string (VNum (Sql.to_number Sql.MAX_ROWID)) = "9223372036854776000" ∧
  to_string (VNum (10 ^ 21)) = "1e+21" ∧
  to_string (VNum (Sql.to_number (2 ^ 100))) = "1.2676506002282294e+30".
Proof. repeat split; vm_compute; reflexivity. Qed.

(** The archive of the first instant of the year 10000. *)
Lemma backupFileName_after_9999 :
  toISOString (mkDate 10000 1 1 0 0 0 0) = "+010000-01-01T00:00:00.000Z" ∧
  backupFileName (mkDate 10000 1 1 0 0 0 0) =
    "network_log_backup_+010000-01-01T00-00-00-000Z.db".
Proof. split; vm_compute; reflexivity. Qed.

(** Files of no byte and of one byte open as the empty database, two bytes
    that are not an image as a handle that is not a database. *)
Lemma open_image_of_short_files :
  open_image [] = Some Sql.empty ∧ open_image [Byte.x02] = Some Sql.empty ∧
  open_image [Byte.x02; Byte.x02] = Some Demo.garbage.
Proof. repeat split; reflexivity. Qed.
